(** * vscode-azuretools: a shallow embedding of the tree-item helper, the
    GitHub connection flow and the App Service creation wizard.

    Sources embedded here:
    - the tree data provider's [InvalidTreeItem] and
      [createTreeItemsWithErrorHandling] (UI package);
    - the class [AppServicePlanListStep] (App Service package);
    - appservice/src/connectToGitHub.ts;
    - appservice/src/createAppService/createAppService.ts.

    JavaScript values of type [any] are an inductive type, exceptions are a
    [result] sum, and code that talks to the editor host or to the network
    is a state-and-error monad over an explicit world: what the outside
    answers is scripted in the state, what the program does to the outside
    is appended to a trace. *)

From Stdlib Require Import ZArith String Ascii List Lia Permutation.
From stdpp Require Import base list gmap strings.
Import ListNotations.

Set Warnings "-register-all".
Set Default Proof Using "Type".

Open Scope Z_scope.

(** ** JavaScript values *)

(** Values of TypeScript type [any]: what [JSON.parse] produces, what a
    [throw] carries. Numbers are restricted to the integers. An object is
    the list of its own properties. *)
Inductive any : Type :=
| JUndefined
| JNull
| JBool (b : bool)
| JNumber (n : Z)
| JString (s : string)
| JArray (items : list any)
| JObject (props : list (string * any)).

(** ToBoolean: the test behind [if (v)], [!v], [a && b]. *)
Definition truthy (v : any) : bool :=
  match v with
  | JUndefined | JNull => false
  | JBool b => b
  | JNumber n => negb (n =? 0)
  | JString s => negb (String.eqb s "")
  | JArray _ | JObject _ => true
  end.

(** A value of type [string | undefined]; [if (name)] holds for a
    non-empty string only. *)
Definition truthy_str (name : option string) : bool :=
  match name with
  | Some s => negb (String.eqb s "")
  | None => false
  end.

(** [new Error(message)]. *)
Definition new_Error (message : string) : any :=
  JObject [("message"%string, JString message)].

(** The outcome of a call that may throw; an awaited promise that rejects
    is a [Throw] as well. *)
Inductive result (A : Type) : Type :=
| Ok (a : A)
| Throw (e : any).
Arguments Ok {A} a.
Arguments Throw {A} e.

(** [localize(key, defaultMessage)] of vscode-nls with no translation
    bundle loaded: the default message. *)
Definition localize (key defaultMessage : string) : string := defaultMessage.

(** ** Effects *)

(** A computation over a state [S] that returns or throws. The state holds
    what the program can change (the objects it mutates) and the world
    around it. *)
Definition M (S A : Type) : Type := S -> result A * S.

#[global] Instance M_ret {S : Type} : MRet (M S) :=
  fun A a s => (Ok a, s).

#[global] Instance M_bind {S : Type} : MBind (M S) :=
  fun A B f m s =>
    match m s with
    | (Ok a, s') => f a s'
    | (Throw e, s') => (Throw e, s')
    end.

#[global] Instance result_ret : MRet result := fun A a => Ok a.

#[global] Instance result_bind : MBind result :=
  fun A B f r =>
    match r with
    | Ok a => f a
    | Throw e => Throw e
    end.

Definition throw {S A : Type} (e : any) : M S A := fun s => (Throw e, s).

Definition get {S : Type} : M S S := fun s => (Ok s, s).

Definition modify {S : Type} (f : S -> S) : M S unit := fun s => (Ok tt, f s).

(** A call whose outcome is already known: returns it or throws it. *)
Definition settle {S A : Type} (r : result A) : M S A := fun s => (r, s).

(** [try { body } catch (e) { handler e }]. *)
Definition try_catch {S A : Type} (body : M S A) (handler : any -> M S A) : M S A :=
  fun s =>
    match body s with
    | (Ok a, s') => (Ok a, s')
    | (Throw e, s') => handler e s'
    end.

(** ** JavaScript strings *)

(** The [String.prototype] methods the sources call, on strings of 8-bit
    characters. *)
Module JsString.

(** The first position at which [search] occurs in [s]. *)
Fixpoint find (search s : string) : option nat :=
  if String.prefix search s then Some 0%nat
  else match s with
       | EmptyString => None
       | String _ s' => option_map S (find search s')
       end.

(** [s.indexOf(search)]: [-1] when [search] does not occur. *)
Definition indexOf (s search : string) : Z :=
  match find search s with
  | Some i => Z.of_nat i
  | None => -1
  end.

(** [s.includes(search)]. *)
Definition includes (s search : string) : bool :=
  match find search s with
  | Some _ => true
  | None => false
  end.

(** [s.substring(start, end)]: both indices are clamped to the string, and
    swapped when [start] is the greater. *)
Definition clamp (len : nat) (i : Z) : nat :=
  Z.to_nat (Z.min (Z.max i 0) (Z.of_nat len)).

Definition substring (s : string) (start end_ : Z) : string :=
  let len := String.length s in
  let a := clamp len start in
  let b := clamp len end_ in
  String.substring (Nat.min a b) (Nat.max a b - Nat.min a b) s.

(** [s.split(separator)] for a non-empty separator: [skip] counts the
    characters of a separator just matched that are still to be passed
    over, [cur] is the piece being read. *)
Fixpoint split_go (separator : string) (skip : nat) (cur s : string) : list string :=
  match s with
  | EmptyString => [cur]
  | String c s' =>
      match skip with
      | S k => split_go separator k cur s'
      | O =>
          if String.prefix separator s
          then cur :: split_go separator (String.length separator - 1) EmptyString s'
          else split_go separator 0 (cur +:+ String c EmptyString) s'
      end
  end.

(** With an empty separator, [split] yields the characters one by one. *)
Definition split (s separator : string) : list string :=
  match separator with
  | EmptyString => map (fun c => String c EmptyString) (list_ascii_of_string s)
  | _ => split_go separator 0 EmptyString s
  end.

Example split_two : split "a, b" ", " = ["a"; "b"]%string.
Proof. reflexivity. Qed.

Example split_trailing : split "a, " ", " = ["a"; ""]%string.
Proof. reflexivity. Qed.

Example split_none : split "" ", " = [""%string].
Proof. reflexivity. Qed.

Example substring_swaps : substring "hello" 4 1 = "ell"%string.
Proof. reflexivity. Qed.

Example substring_clamps : substring "hello" (-1) 10 = "hello"%string.
Proof. reflexivity. Qed.

Example indexOf_missing : indexOf "hello" "z" = -1.
Proof. reflexivity. Qed.

(** *** Searching in a concatenation *)

(** [c] is one of the characters of [s]. *)
Fixpoint occurs (c : ascii) (s : string) : bool :=
  match s with
  | EmptyString => false
  | String x s' => Ascii.eqb x c || occurs c s'
  end.

(** No occurrence of [search] in [a +:+ rest] starts inside [a]. *)
Fixpoint noStart (search a rest : string) : bool :=
  match a with
  | EmptyString => true
  | String _ a' => negb (String.prefix search (a +:+ rest)) && noStart search a' rest
  end.

(** [array.join(separator)]. *)
Fixpoint join (separator : string) (pieces : list string) : string :=
  match pieces with
  | [] => EmptyString
  | [piece] => piece
  | piece :: rest => piece +:+ separator +:+ join separator rest
  end.

Lemma append_cons (x : ascii) (a b : string) :
  String x a +:+ b = String x (a +:+ b).
Proof. reflexivity. Qed.

Lemma append_nil_l (b : string) : EmptyString +:+ b = b.
Proof. reflexivity. Qed.

(** The standard library keeps [append] folded; these two equations open it. *)
Ltac open_append := repeat (rewrite append_cons || rewrite append_nil_l).

Lemma append_assoc (a b c : string) : (a +:+ b) +:+ c = a +:+ (b +:+ c).
Proof. induction a as [|x a IH]; open_append; [reflexivity | now rewrite IH]. Qed.

Lemma append_nil_r (a : string) : a +:+ EmptyString = a.
Proof. induction a as [|x a IH]; open_append; [reflexivity | now rewrite IH]. Qed.

Lemma length_append (a b : string) :
  String.length (a +:+ b) = (String.length a + String.length b)%nat.
Proof. induction a as [|x a IH]; open_append; cbn; [reflexivity | now rewrite IH]. Qed.

(** A character that [search] does not have stops every match of [search]. *)
Lemma prefix_barrier (search a b : string) (c : ascii) :
  occurs c search = false ->
  String.prefix search (a +:+ String c b) = String.prefix search a.
Proof.
  revert search. induction a as [|y a IH]; intros search Hc; open_append.
  - destruct search as [|x search]; [reflexivity|]. cbn in *.
    apply orb_false_iff in Hc as [Hx _]. apply Ascii.eqb_neq in Hx.
    now destruct (ascii_dec x c).
  - destruct search as [|x search]; [reflexivity|]. cbn in *.
    apply orb_false_iff in Hc as [_ Hc].
    destruct (ascii_dec x y); [now apply IH | reflexivity].
Qed.

Lemma find_None_prefix (search a : string) :
  find search a = None -> String.prefix search a = false.
Proof.
  destruct a as [|x a]; cbn [find];
    match goal with |- context [String.prefix ?p ?q] => destruct (String.prefix p q) end;
    congruence.
Qed.

Lemma find_None_tail (search a : string) (x : ascii) :
  find search (String x a) = None -> find search a = None.
Proof.
  cbn [find]. destruct (String.prefix search (String x a)); [discriminate|].
  now destruct (find search a).
Qed.

Lemma noStart_barrier (search a b : string) (c : ascii) :
  find search a = None ->
  occurs c search = false ->
  noStart search a (String c b) = true.
Proof.
  intros Hfind Hc. induction a as [|y a IH]; [reflexivity|].
  cbn [noStart]. rewrite (prefix_barrier search (String y a) b c Hc).
  rewrite (find_None_prefix _ _ Hfind). cbn.
  apply IH. now apply find_None_tail in Hfind.
Qed.

Lemma prefix_empty (s : string) : String.prefix EmptyString s = true.
Proof. now destruct s. Qed.

(** A search for one character: its matches are its occurrences. *)
Lemma noStart_single (x : ascii) (a rest : string) :
  find (String x EmptyString) a = None ->
  noStart (String x EmptyString) a rest = true.
Proof.
  intros Hfind. induction a as [|y a IH]; [reflexivity|].
  pose proof (find_None_prefix _ _ Hfind) as Hprefix.
  apply find_None_tail in Hfind. cbn [noStart]. open_append.
  cbn [String.prefix] in *. rewrite prefix_empty in *.
  destruct (ascii_dec x y); [discriminate Hprefix|]. cbn. now apply IH.
Qed.

Lemma noStart_app (search a1 a2 rest : string) :
  noStart search (a1 +:+ a2) rest =
  noStart search a1 (a2 +:+ rest) && noStart search a2 rest.
Proof.
  induction a1 as [|x a1 IH]; [reflexivity|].
  open_append. cbn [noStart]. open_append.
  rewrite IH, append_assoc. now rewrite andb_assoc.
Qed.

Lemma find_skip (search a rest : string) :
  noStart search a rest = true ->
  find search (a +:+ rest) =
  option_map (Nat.add (String.length a)) (find search rest).
Proof.
  induction a as [|x a IH]; intros Hno; open_append.
  - cbn. now destruct (find search rest).
  - cbn [noStart] in Hno. apply andb_true_iff in Hno as [Hprefix Hno].
    apply negb_true_iff in Hprefix. rewrite append_cons in Hprefix. cbn [find].
    rewrite Hprefix, (IH Hno). now destruct (find search rest).
Qed.

Lemma split_go_skip (separator a rest cur : string) :
  noStart separator a rest = true ->
  split_go separator 0 cur (a +:+ rest) = split_go separator 0 (cur +:+ a) rest.
Proof.
  revert cur. induction a as [|x a IH]; intros cur Hno; open_append.
  - now rewrite append_nil_r.
  - cbn [noStart] in Hno. apply andb_true_iff in Hno as [Hprefix Hno].
    apply negb_true_iff in Hprefix. rewrite append_cons in Hprefix. cbn [split_go].
    rewrite Hprefix, (IH _ Hno), append_assoc. reflexivity.
Qed.

(** *** Substrings of a concatenation *)

Lemma substring_drop (a b : string) (n m : nat) :
  String.substring (String.length a + n) m (a +:+ b) = String.substring n m b.
Proof. induction a as [|x a IH]; open_append; cbn; [reflexivity | apply IH]. Qed.

Lemma substring_take (a b : string) :
  String.substring 0 (String.length a) (a +:+ b) = a.
Proof.
  induction a as [|x a IH]; open_append; cbn.
  - now destruct b.
  - now rewrite IH.
Qed.

(** The part [b] of [a +:+ b +:+ c], by its two ends. *)
Lemma substring_middle (a b c : string) :
  substring (a +:+ b +:+ c)
    (Z.of_nat (String.length a))
    (Z.of_nat (String.length a + String.length b)) = b.
Proof.
  unfold substring, clamp. rewrite !length_append.
  replace (Z.to_nat (Z.min (Z.max (Z.of_nat (String.length a)) 0) _))
    with (String.length a) by lia.
  replace (Z.to_nat (Z.min (Z.max (Z.of_nat (String.length a + String.length b)) 0) _))
    with (String.length a + String.length b)%nat by lia.
  rewrite Nat.min_l, Nat.max_r by lia.
  replace (String.length a + String.length b - String.length a)%nat
    with (String.length b) by lia.
  rewrite <- (Nat.add_0_r (String.length a)) at 1.
  rewrite substring_drop. apply substring_take.
Qed.

End JsString.

(** ** Tree items: InvalidTreeItem and createTreeItemsWithErrorHandling *)

Module TreeItems.

Section WithTypes.

(** [TParent] stands for [AzExtParentTreeItem<TRoot>], [TNode] for the tree
    items the caller's [createTreeItem] builds. The class [InvalidTreeItem]
    is private to the file, so a caller's node is never one of them: an
    [AzExtTreeItem] of the returned array is one or the other. *)
Context {TSource TParent TNode : Type}.

Record InvalidTreeItem : Type := mkInvalidTreeItem {
  parent : TParent;
  label : string;
  _error : any;
  contextValue : string;
  description : string
}.

(** The constructor; [description] defaults to [localize('invalid', 'Invalid')]. *)
Definition new_InvalidTreeItem (parent : TParent) (label : string) (error : any)
    (contextValue : string) (description : option string) : InvalidTreeItem :=
  {| parent := parent;
     label := label;
     _error := error;
     contextValue := contextValue;
     description := default (localize "invalid" "Invalid") description |}.

Inductive AzExtTreeItem : Type :=
| Node (item : TNode)
| Invalid (item : InvalidTreeItem).

Definition loadMoreChildrenImpl (this : InvalidTreeItem) : result (list AzExtTreeItem) :=
  Throw (_error this).

Definition hasMoreChildrenImpl (this : InvalidTreeItem) : bool := false.

Definition isAncestorOfImpl (this : InvalidTreeItem) : bool := false.

Definition cantShowItems : string :=
  localize "cantShowItems" "Some items could not be displayed".

Section Create.

Variable treeItem : TParent.
Variable invalidContextValue : string.
Variable createTreeItem : TSource -> result (option TNode).
Variable getLabelOnError : TSource -> result (option string).

(** The two variables the callbacks share: [treeItems] and [unknownError]
    ([undefined] until assigned). *)
Definition Shared : Type := (list AzExtTreeItem * any)%type.

(** [name] after the inner try/catch: a throwing [getLabelOnError] is
    ignored and leaves [name] undefined. *)
Definition labelOf (source : TSource) : option string :=
  match getLabelOnError source with
  | Ok name => name
  | Throw _ => None
  end.

(** What one callback of [sourceArray.map] does to the shared variables.
    Every write sits after the callback's last [await], in one run of
    synchronous code, so a callback acts on them in one step. *)
Definition callback (st : Shared) (source : TSource) : Shared :=
  let '(treeItems, unknownError) := st in
  match createTreeItem source with
  | Ok (Some item) => (treeItems ++ [Node item], unknownError)
  | Ok None => st
  | Throw error =>
      let name := labelOf source in
      if truthy_str name
      then (treeItems ++ [Invalid (new_InvalidTreeItem treeItem (default ""%string name)
                                     error invalidContextValue None)], unknownError)
      else if truthy error && negb (truthy unknownError)
           then (treeItems, error)
           else st
  end.

(** [Promise.all] lets the callbacks finish in any order: [completed] lists
    the sources in the order in which their callbacks reach their last
    step, a permutation of [sourceArray]. *)
Definition completion_of (sourceArray completed : list TSource) : Prop :=
  Permutation sourceArray completed.

Definition createTreeItemsWithErrorHandling (completed : list TSource)
    : list AzExtTreeItem :=
  let '(treeItems, unknownError) := fold_left callback completed ([], JUndefined) in
  if truthy unknownError
  then treeItems ++ [Invalid (new_InvalidTreeItem treeItem cantShowItems unknownError
                                invalidContextValue (Some ""%string))]
  else treeItems.

(** *** Reading the result off the sources *)

(** The node a source contributes by itself. *)
Definition nodeOf (source : TSource) : list AzExtTreeItem :=
  match createTreeItem source with
  | Ok (Some item) => [Node item]
  | Ok None => []
  | Throw error =>
      let name := labelOf source in
      if truthy_str name
      then [Invalid (new_InvalidTreeItem treeItem (default ""%string name) error
                       invalidContextValue None)]
      else []
  end.

(** The error of a source that failed without a recoverable label. *)
Definition unknownErrorOf (source : TSource) : list any :=
  match createTreeItem source with
  | Ok _ => []
  | Throw error => if truthy_str (labelOf source) then [] else [error]
  end.

Definition unknownErrors (completed : list TSource) : list any :=
  flat_map unknownErrorOf completed.

(** The aggregate node: labelled [cantShowItems], with a blank description. *)
Definition is_aggregate (node : AzExtTreeItem) : bool :=
  match node with
  | Node _ => false
  | Invalid i => String.eqb (label i) cantShowItems && String.eqb (description i) ""
  end.

Definition carries (error : any) (node : AzExtTreeItem) : Prop :=
  match node with
  | Node _ => False
  | Invalid i => _error i = error
  end.

Definition count_aggregates (nodes : list AzExtTreeItem) : nat :=
  length (List.filter is_aggregate nodes).

(** The claims as the specification words them, to be tested on inputs. *)

(** Every source whose [createTreeItem] throws has a placeholder carrying
    its error in the result, every source that yields a node has its node. *)
Definition every_failure_has_placeholder (sourceArray completed : list TSource) : Prop :=
  forall source, In source sourceArray ->
    (forall error, createTreeItem source = Throw error ->
       exists i, In (Invalid i) (createTreeItemsWithErrorHandling completed) /\
                 _error i = error) /\
    (forall item, createTreeItem source = Ok (Some item) ->
       In (Node item) (createTreeItemsWithErrorHandling completed)).

(** At most one aggregate node, carrying the first unknown error met. *)
Definition aggregate_carries_first_unknown (completed : list TSource) : Prop :=
  (count_aggregates (createTreeItemsWithErrorHandling completed) <= 1)%nat /\
  forall node, In node (createTreeItemsWithErrorHandling completed) ->
    is_aggregate node = true ->
    exists error, head (unknownErrors completed) = Some error /\ carries error node.

(** *** The loop, in closed form *)

(** [unknownError] after the errors [errors] were offered to it in turn. *)
Definition keepFirst (unknownError : any) (errors : list any) : any :=
  fold_left (fun u e => if truthy e && negb (truthy u) then e else u) errors unknownError.

Lemma keepFirst_truthy (u : any) (errors : list any) :
  truthy u = true -> keepFirst u errors = u.
Proof.
  revert u. induction errors as [|e errors IH]; intros u Hu; [reflexivity|].
  unfold keepFirst in *. cbn. rewrite Hu, andb_false_r. now apply IH.
Qed.

Lemma keepFirst_falsy (u : any) (errors : list any) :
  truthy u = false ->
  keepFirst u errors = default u (List.find truthy errors).
Proof.
  revert u. induction errors as [|e errors IH]; intros u Hu; [reflexivity|].
  unfold keepFirst in *. cbn. rewrite Hu, andb_true_r.
  destruct (truthy e) eqn:He.
  - now apply keepFirst_truthy.
  - now apply IH.
Qed.

Lemma callback_spec (treeItems : list AzExtTreeItem) (unknownError : any)
    (source : TSource) :
  callback (treeItems, unknownError) source =
  (treeItems ++ nodeOf source, keepFirst unknownError (unknownErrorOf source)).
Proof.
  unfold callback, nodeOf, unknownErrorOf, keepFirst.
  destruct (createTreeItem source) as [[item|]|error]; cbn;
    rewrite ?app_nil_r; try reflexivity.
  destruct (truthy_str (labelOf source)); cbn; rewrite ?app_nil_r; [reflexivity|].
  now destruct (truthy error && negb (truthy unknownError)).
Qed.

Lemma fold_callback (completed : list TSource) (treeItems : list AzExtTreeItem)
    (unknownError : any) :
  fold_left callback completed (treeItems, unknownError) =
  (treeItems ++ flat_map nodeOf completed,
   keepFirst unknownError (unknownErrors completed)).
Proof.
  revert treeItems unknownError.
  induction completed as [|source completed IH]; intros treeItems unknownError.
  - cbn. now rewrite app_nil_r.
  - cbn [fold_left]. rewrite callback_spec, IH. unfold unknownErrors. cbn [flat_map].
    rewrite <- app_assoc. f_equal. unfold keepFirst. now rewrite fold_left_app.
Qed.

(** The returned array: the nodes of the sources in completion order, then
    the aggregate node when a truthy unknown error was met. *)
Lemma createTreeItems_closed_form (completed : list TSource) :
  createTreeItemsWithErrorHandling completed =
  flat_map nodeOf completed ++
  match List.find truthy (unknownErrors completed) with
  | Some error => [Invalid (new_InvalidTreeItem treeItem cantShowItems error
                              invalidContextValue (Some ""%string))]
  | None => []
  end.
Proof.
  unfold createTreeItemsWithErrorHandling. rewrite fold_callback. cbn [app].
  rewrite keepFirst_falsy by reflexivity.
  destruct (List.find truthy (unknownErrors completed)) as [error|] eqn:Hfind; cbn.
  - apply find_some in Hfind as [_ ->]. reflexivity.
  - now rewrite app_nil_r.
Qed.

Lemma nodeOf_not_aggregate (source : TSource) (node : AzExtTreeItem) :
  In node (nodeOf source) -> is_aggregate node = false.
Proof.
  unfold nodeOf. destruct (createTreeItem source) as [[item|]|error]; cbn.
  - intros [<-|[]]. reflexivity.
  - intros [].
  - destruct (truthy_str (labelOf source)); cbn; [|intros []].
    intros [<-|[]]. cbn. apply andb_false_r.
Qed.

Lemma filter_aggregate_nodes (completed : list TSource) :
  List.filter is_aggregate (flat_map nodeOf completed) = [].
Proof.
  induction completed as [|source completed IH]; [reflexivity|].
  cbn [flat_map]. rewrite List.filter_app, IH, app_nil_r.
  assert (H := nodeOf_not_aggregate source).
  induction (nodeOf source) as [|node nodes IHn]; [reflexivity|].
  cbn. rewrite (H node) by now left. apply IHn. intros n Hn. apply H. now right.
Qed.

(** C1, as amended. A source whose [createTreeItem] yields a node has that
    node in the returned array; a source whose [createTreeItem] throws and
    whose [getLabelOnError] gives a non-empty label has, in the returned
    array, an [InvalidTreeItem] with that label, the default description
    and the thrown error. This holds in whatever order the callbacks
    complete. *)
Theorem createTreeItems_nodes (sourceArray completed : list TSource) :
  completion_of sourceArray completed ->
  forall source, In source sourceArray ->
    (forall item, createTreeItem source = Ok (Some item) ->
       In (Node item) (createTreeItemsWithErrorHandling completed)) /\
    (forall error name,
       createTreeItem source = Throw error ->
       getLabelOnError source = Ok (Some name) ->
       name <> ""%string ->
       In (Invalid (new_InvalidTreeItem treeItem name error invalidContextValue None))
          (createTreeItemsWithErrorHandling completed)).
Proof.
  intros Hperm source Hin.
  assert (Hc : In source completed) by (eapply Permutation_in; eassumption).
  rewrite createTreeItems_closed_form.
  assert (Hsub : forall node, In node (nodeOf source) ->
                   In node (flat_map nodeOf completed)).
  { intros node Hnode. apply in_flat_map. eauto. }
  split.
  - intros item Hitem. apply in_or_app. left. apply Hsub.
    unfold nodeOf. rewrite Hitem. now left.
  - intros error name Herr Hname Hne. apply in_or_app. left. apply Hsub.
    unfold nodeOf, labelOf. rewrite Herr, Hname. cbn.
    destruct (String.eqb_spec name "") as [->|_]; [contradiction|]. now left.
Qed.

(** C3, as amended. The returned array holds at most one aggregate node,
    and an aggregate node in it carries the first truthy error among those
    thrown by sources without a recoverable label, in the order in which
    the callbacks completed. *)
Theorem aggregate_node_unique (completed : list TSource) :
  (count_aggregates (createTreeItemsWithErrorHandling completed) <= 1)%nat /\
  forall node, In node (createTreeItemsWithErrorHandling completed) ->
    is_aggregate node = true ->
    exists error,
      List.find truthy (unknownErrors completed) = Some error /\
      node = Invalid (new_InvalidTreeItem treeItem cantShowItems error
                        invalidContextValue (Some ""%string)).
Proof.
  rewrite createTreeItems_closed_form. unfold count_aggregates. split.
  - rewrite List.filter_app, filter_aggregate_nodes. cbn [app].
    destruct (List.find truthy (unknownErrors completed)); cbn; lia.
  - intros node Hin Hagg. apply in_app_or in Hin as [Hin|Hin].
    + apply in_flat_map in Hin as (source & _ & Hnode).
      apply nodeOf_not_aggregate in Hnode. congruence.
    + destruct (List.find truthy (unknownErrors completed)) as [error|]; [|destruct Hin].
      destruct Hin as [<-|[]]. eauto.
Qed.

(** *** What else the returned array shows *)

(** The nodes that stand for one source each. *)
Definition is_own (node : AzExtTreeItem) : bool := negb (is_aggregate node).

Lemma nodeOf_invalid (source : TSource) (i : InvalidTreeItem) :
  In (Invalid i) (nodeOf source) ->
  createTreeItem source = Throw (_error i) /\
  parent i = treeItem /\
  contextValue i = invalidContextValue /\
  truthy_str (labelOf source) = true /\
  label i = default ""%string (labelOf source).
Proof.
  unfold nodeOf. destruct (createTreeItem source) as [[item|]|error]; cbn.
  - intros [Heq|[]]. discriminate Heq.
  - intros [].
  - destruct (truthy_str (labelOf source)); cbn; [|intros []].
    intros [Heq|[]]. injection Heq as <-. cbn. repeat split.
Qed.

Lemma nodeOf_length (source : TSource) : (length (nodeOf source) <= 1)%nat.
Proof.
  unfold nodeOf. destruct (createTreeItem source) as [[item|]|error]; cbn; try lia.
  destruct (truthy_str (labelOf source)); cbn; lia.
Qed.

Lemma flat_map_nodeOf_length (completed : list TSource) :
  (length (flat_map nodeOf completed) <= length completed)%nat.
Proof.
  induction completed as [|source completed IH]; [cbn; lia|].
  cbn [flat_map]. rewrite length_app. pose proof (nodeOf_length source). cbn. lia.
Qed.

Lemma unknownErrors_in (error : any) (completed : list TSource) :
  In error (unknownErrors completed) <->
  exists source, In source completed /\ createTreeItem source = Throw error /\
                 truthy_str (labelOf source) = false.
Proof.
  unfold unknownErrors. rewrite in_flat_map. split.
  - intros (source & Hin & Herr). exists source. split; [exact Hin|].
    unfold unknownErrorOf in Herr.
    destruct (createTreeItem source) as [item|e]; [destruct Herr|].
    destruct (truthy_str (labelOf source)); [destruct Herr|].
    destruct Herr as [<-|[]]. split; reflexivity.
  - intros (source & Hin & Herr & Hlabel). exists source. split; [exact Hin|].
    unfold unknownErrorOf. rewrite Herr, Hlabel. now left.
Qed.

Lemma find_truthy_some (errors : list any) :
  (exists error, List.find truthy errors = Some error) <->
  (exists error, In error errors /\ truthy error = true).
Proof.
  split.
  - intros (error & Hfind). apply find_some in Hfind. eauto.
  - intros (error & Hin & Htruthy).
    destruct (List.find truthy errors) as [found|] eqn:Hfind; [eauto|].
    rewrite (find_none _ _ Hfind error Hin) in Htruthy. discriminate Htruthy.
Qed.

Lemma filter_own_nodes (completed : list TSource) :
  List.filter is_own (flat_map nodeOf completed) = flat_map nodeOf completed.
Proof.
  apply forallb_filter_id, forallb_forall. intros node Hin.
  apply in_flat_map in Hin as (source & _ & Hnode).
  unfold is_own. now rewrite (nodeOf_not_aggregate source node Hnode).
Qed.

(** X1. Every placeholder of the returned array was made by this call: its
    parent is [treeItem], its context value is [invalidContextValue], and
    the error it carries was thrown by [createTreeItem] for one of the
    sources. An error of [getLabelOnError] is never what a node carries;
    with no [createTreeItem] throwing there is no placeholder. *)
Theorem placeholders_carry_thrown_errors (completed : list TSource)
    (i : InvalidTreeItem) :
  In (Invalid i) (createTreeItemsWithErrorHandling completed) ->
  parent i = treeItem /\
  contextValue i = invalidContextValue /\
  exists source, In source completed /\ createTreeItem source = Throw (_error i).
Proof.
  rewrite createTreeItems_closed_form. intros Hin.
  apply in_app_or in Hin as [Hin|Hin].
  - apply in_flat_map in Hin as (source & Hsource & Hnode).
    apply nodeOf_invalid in Hnode as (Herr & Hparent & Hctx & _).
    repeat split; try assumption. eauto.
  - destruct (List.find truthy (unknownErrors completed)) as [error|] eqn:Hfind;
      [|destruct Hin].
    destruct Hin as [Heq|[]]. injection Heq as <-. cbn. repeat split.
    apply find_some in Hfind as [Hin _].
    apply unknownErrors_in in Hin as (source & Hsource & Herr & _). eauto.
Qed.

(** X2. The order in which the callbacks complete decides nothing but the
    order of the nodes and which error the aggregate node carries: for two
    completion orders of the same sources the returned arrays have the
    same length, the same nodes standing for single sources (up to order)
    and the same number of aggregate nodes. *)
Theorem completion_order_irrelevant (completed1 completed2 : list TSource) :
  Permutation completed1 completed2 ->
  length (createTreeItemsWithErrorHandling completed1) =
    length (createTreeItemsWithErrorHandling completed2) /\
  Permutation (List.filter is_own (createTreeItemsWithErrorHandling completed1))
              (List.filter is_own (createTreeItemsWithErrorHandling completed2)) /\
  count_aggregates (createTreeItemsWithErrorHandling completed1) =
    count_aggregates (createTreeItemsWithErrorHandling completed2).
Proof.
  intros Hperm. rewrite !createTreeItems_closed_form.
  assert (Hnodes : Permutation (flat_map nodeOf completed1) (flat_map nodeOf completed2))
    by now apply Permutation_flat_map.
  assert (Herrors : Permutation (unknownErrors completed1) (unknownErrors completed2))
    by now apply Permutation_flat_map.
  assert (Hsome : (exists e, List.find truthy (unknownErrors completed1) = Some e) <->
                  (exists e, List.find truthy (unknownErrors completed2) = Some e)).
  { rewrite !find_truthy_some. split; intros (e & Hin & Ht); exists e;
      (split; [|exact Ht]).
    - exact (Permutation_in e Herrors Hin).
    - exact (Permutation_in e (Permutation_sym Herrors) Hin). }
  unfold count_aggregates.
  rewrite !List.filter_app, !filter_own_nodes, !filter_aggregate_nodes, !length_app.
  rewrite (Permutation_length Hnodes).
  destruct (List.find truthy (unknownErrors completed1)) as [e1|];
    destruct (List.find truthy (unknownErrors completed2)) as [e2|]; cbn;
    rewrite ?app_nil_r; try (repeat split; [assumption]).
  - destruct Hsome as [H _]. destruct (H (ex_intro _ e1 eq_refl)) as [e He].
    discriminate He.
  - destruct Hsome as [_ H]. destruct (H (ex_intro _ e2 eq_refl)) as [e He].
    discriminate He.
Qed.

(** X3. The returned array has at most one node for each source, and at
    most one more. *)
Theorem createTreeItems_length (completed : list TSource) :
  (length (createTreeItemsWithErrorHandling completed) <= length completed + 1)%nat.
Proof.
  rewrite createTreeItems_closed_form, length_app.
  pose proof (flat_map_nodeOf_length completed).
  destruct (List.find truthy (unknownErrors completed)); cbn; lia.
Qed.

(** X4. The returned array has an aggregate node exactly when, for some
    source, [createTreeItem] threw a truthy value and no label was
    recovered. *)
Theorem aggregate_node_iff (completed : list TSource) :
  (exists node, In node (createTreeItemsWithErrorHandling completed) /\
                is_aggregate node = true) <->
  (exists source error,
     In source completed /\ createTreeItem source = Throw error /\
     truthy_str (labelOf source) = false /\ truthy error = true).
Proof.
  rewrite createTreeItems_closed_form. split.
  - intros (node & Hin & Hagg). apply in_app_or in Hin as [Hin|Hin].
    + apply in_flat_map in Hin as (source & _ & Hnode).
      apply nodeOf_not_aggregate in Hnode. congruence.
    + destruct (List.find truthy (unknownErrors completed)) as [error|] eqn:Hfind;
        [|destruct Hin].
      apply find_some in Hfind as [Herr Htruthy].
      apply unknownErrors_in in Herr as (source & Hsource & Hthrow & Hlabel).
      exists source, error. repeat split; assumption.
  - intros (source & error & Hsource & Hthrow & Hlabel & Htruthy).
    assert (Hsome : exists e, List.find truthy (unknownErrors completed) = Some e).
    { apply find_truthy_some. exists error. split; [|exact Htruthy].
      apply unknownErrors_in. eauto. }
    destruct Hsome as [e He]. rewrite He. eexists. split.
    + apply in_or_app. right. now left.
    + reflexivity.
Qed.

End Create.

(** C9. An [InvalidTreeItem] built from any constructor arguments has no
    more children, is an ancestor of nothing, and throws the error it was
    built with when asked to load its children. *)
Theorem invalidTreeItem_behaviour (parent : TParent) (label : string) (error : any)
    (contextValue : string) (description : option string) :
  let this := new_InvalidTreeItem parent label error contextValue description in
  hasMoreChildrenImpl this = false /\
  isAncestorOfImpl this = false /\
  loadMoreChildrenImpl this = Throw error.
Proof. cbn. repeat split. Qed.

End WithTypes.

Arguments InvalidTreeItem : clear implicits.
Arguments AzExtTreeItem : clear implicits.

(** *** Concrete runs *)

(** Sources are numbers; source [n] fails with the error [failure n]. *)
Definition failure (n : nat) : any :=
  match n with
  | O => JUndefined
  | S _ => new_Error (if Nat.eqb n 1 then "first" else "second")
  end.

Definition alwaysThrows (n : nat) : result (option string) := Throw (failure n).

Definition noLabel (n : nat) : result (option string) := Ok None.

Definition evenOk (n : nat) : result (option string) :=
  if Nat.even n then Ok (Some "node"%string) else Throw (failure n).

Definition someLabel (n : nat) : result (option string) := Ok (Some "broken"%string).

(** Two sources fail without a label: one aggregate node carries the first
    error, and nothing in the result carries the second. *)
Lemma second_unlabelled_error_is_dropped :
  createTreeItemsWithErrorHandling tt "invalid" alwaysThrows noLabel [1%nat; 2%nat]
  = [Invalid (new_InvalidTreeItem tt cantShowItems (new_Error "first") "invalid"
                (Some ""%string))]
  /\ ~ every_failure_has_placeholder tt "invalid" alwaysThrows noLabel
         [1%nat; 2%nat] [1%nat; 2%nat].
Proof.
  split; [reflexivity|].
  intros H. destruct (H 2%nat) as [Hfail _]; [cbn; tauto|].
  destruct (Hfail (new_Error "second") eq_refl) as (i & Hin & Herr).
  cbn in Hin. destruct Hin as [Hi|[]]. inversion Hi; subst i. discriminate Herr.
Qed.

(** The first source fails with [undefined], the second with an [Error],
    neither has a label: the aggregate node carries the second error. *)
Lemma aggregate_skips_falsy_error :
  createTreeItemsWithErrorHandling tt "invalid" alwaysThrows noLabel [0%nat; 1%nat]
  = [Invalid (new_InvalidTreeItem tt cantShowItems (new_Error "first") "invalid"
                (Some ""%string))]
  /\ unknownErrors alwaysThrows noLabel [0%nat; 1%nat] = [JUndefined; new_Error "first"]
  /\ ~ aggregate_carries_first_unknown tt "invalid" alwaysThrows noLabel [0%nat; 1%nat].
Proof.
  split; [reflexivity|]. split; [reflexivity|].
  intros [_ H].
  destruct (H _ (or_introl eq_refl) eq_refl) as (error & Hhead & Hcarries).
  cbn in Hhead, Hcarries. injection Hhead as <-. discriminate Hcarries.
Qed.

Lemma createTreeItems_nodes_witness :
  completion_of [1%nat; 2%nat] [2%nat; 1%nat] /\
  In (1%nat) [1%nat; 2%nat] /\
  evenOk 2 = Ok (Some "node"%string) /\
  In (Node "node"%string)
     (createTreeItemsWithErrorHandling tt "invalid" evenOk someLabel [2%nat; 1%nat]) /\
  In (Invalid (new_InvalidTreeItem tt "broken" (new_Error "first") "invalid" None))
     (createTreeItemsWithErrorHandling tt "invalid" evenOk someLabel [2%nat; 1%nat]).
Proof.
  assert (Hperm : completion_of [1%nat; 2%nat] [2%nat; 1%nat]) by apply perm_swap.
  split; [exact Hperm|]. split; [cbn; tauto|]. split; [reflexivity|].
  split.
  - apply (createTreeItems_nodes tt "invalid" evenOk someLabel _ _ Hperm 2%nat);
      [cbn; tauto | reflexivity].
  - apply (createTreeItems_nodes tt "invalid" evenOk someLabel _ _ Hperm 1%nat);
      [cbn; tauto | reflexivity | reflexivity | discriminate].
Defined.

Lemma aggregate_node_unique_witness :
  (count_aggregates
     (createTreeItemsWithErrorHandling tt "invalid" alwaysThrows noLabel
        [1%nat; 2%nat]) <= 1)%nat /\
  exists error,
    List.find truthy (unknownErrors alwaysThrows noLabel [1%nat; 2%nat]) = Some error /\
    @Invalid unit string
      (new_InvalidTreeItem tt cantShowItems (new_Error "first") "invalid"
         (Some ""%string))
    = Invalid (new_InvalidTreeItem tt cantShowItems error "invalid" (Some ""%string)).
Proof.
  destruct (aggregate_node_unique tt "invalid" alwaysThrows noLabel [1%nat; 2%nat])
    as [Hcount Hnode].
  split; [exact Hcount|].
  apply Hnode; [now left | reflexivity].
Defined.

Lemma placeholders_carry_thrown_errors_witness :
  exists source,
    In source [1%nat; 2%nat] /\ alwaysThrows source = Throw (new_Error "first").
Proof.
  destruct (placeholders_carry_thrown_errors tt "invalid" alwaysThrows noLabel
              [1%nat; 2%nat]
              (new_InvalidTreeItem tt cantShowItems (new_Error "first") "invalid"
                 (Some ""%string)))
    as (_ & _ & Hsource); [now left|].
  exact Hsource.
Defined.

Lemma completion_order_irrelevant_witness :
  Permutation [1%nat; 2%nat] [2%nat; 1%nat] /\
  length (createTreeItemsWithErrorHandling tt "invalid" evenOk someLabel [1%nat; 2%nat])
  = length (createTreeItemsWithErrorHandling tt "invalid" evenOk someLabel [2%nat; 1%nat]).
Proof.
  split; [apply perm_swap|].
  apply (completion_order_irrelevant tt "invalid" evenOk someLabel), perm_swap.
Defined.

Lemma aggregate_node_iff_witness :
  exists node,
    In node (createTreeItemsWithErrorHandling tt "invalid" alwaysThrows noLabel
               [0%nat; 1%nat]) /\
    is_aggregate node = true.
Proof.
  apply (aggregate_node_iff tt "invalid" alwaysThrows noLabel [0%nat; 1%nat]).
  exists 1%nat, (new_Error "first"). repeat split. cbn. tauto.
Defined.

End TreeItems.

(** ** The plan list step: AppServicePlanListStep *)

(** Modelled from the spec: AppKind.ts is not among the sources. The two
    string enums are read off their uses: [AppKind.app], [AppKind.functionapp]
    and the [default] case of the switch in createAppService.ts (any other
    member, [otherKind]); [WebsiteOS.linux] and [WebsiteOS.windows]. *)
Module AppKind.

Inductive AppKind : Type :=
| app
| functionapp
| otherKind (value : string).

Inductive WebsiteOS : Type := linux | windows.

Definition WebsiteOS_value (os : WebsiteOS) : string :=
  match os with
  | linux => "linux"
  | windows => "windows"
  end.

Definition WebsiteOS_eqb (a b : WebsiteOS) : bool :=
  match a, b with
  | linux, linux | windows, windows => true
  | _, _ => false
  end.

End AppKind.

Module AppServicePlanListStep.

Import AppKind.

(** The fields of the SDK's [AppServicePlan] that the step reads; the SDK
    declares each of them optional. *)
Record AppServicePlan : Type := mkPlan {
  plan_id : option string;
  plan_name : option string;
  plan_resourceGroup : option string;
  plan_kind : option string;
  plan_sku_name : option (option string);
  plan_geoRegion : option string;
  plan_location : option string
}.

(** A [Promise<AppServicePlan[]>]: its identity, and what awaiting it gives. *)
Record Task : Type := mkTask {
  task_id : nat;
  task_outcome : result (list AppServicePlan)
}.

(** The fields of [IAppServiceWizardContext] that the step touches. *)
Record IAppServiceWizardContext : Type := mkContext {
  subscriptionId : string;
  newSiteOS : option WebsiteOS;
  plan : option AppServicePlan;
  newPlanName : option string;
  plansTask : option Task
}.

Definition set_plansTask (task : Task) (c : IAppServiceWizardContext)
    : IAppServiceWizardContext :=
  {| subscriptionId := subscriptionId c;
     newSiteOS := newSiteOS c;
     plan := plan c;
     newPlanName := newPlanName c;
     plansTask := Some task |}.

(** What the step does to the outside. *)
Inductive Event : Type :=
| CreateAzureClient (subscription : string)
| ListPlans (task : nat).

(** The world: [listing n] is what the [n]-th listing ever issued resolves
    to, [issued] counts the listings issued so far. *)
Record World : Type := mkWorld {
  listing : nat -> result (list AppServicePlan);
  issued : nat;
  trace : list Event
}.

Definition State : Type := (IAppServiceWizardContext * World)%type.

(** [createAzureClient(wizardContext, WebSiteManagementClient)] followed by
    [uiUtils.listAll(client.appServicePlans, client.appServicePlans.list())]:
    a client is made, a listing is issued, and the promise of its outcome
    comes back. *)
Definition listAllPlans : M State Task :=
  fun '(c, w) =>
    let task := {| task_id := issued w; task_outcome := listing w (issued w) |} in
    (Ok task,
     (c, {| listing := listing w;
            issued := S (issued w);
            trace := trace w ++ [CreateAzureClient (subscriptionId c);
                                 ListPlans (task_id task)] |})).

Definition getPlans : M State (list AppServicePlan) :=
  '(c, _) ← get;
  task ← match plansTask c with
         | None =>
             task ← listAllPlans;
             _ ← modify (fun '(c, w) => (set_plansTask task c, w));
             mret task
         | Some task => mret task
         end;
  settle (task_outcome task).

Section NonNull.

(** Modelled from the spec: utils/nonNull.ts is not among the sources. By
    its name and its uses, [nonNullProp(source, name)] returns the property
    when it is neither null nor undefined and throws otherwise; what it
    throws for a property is [nonNullError]. *)
Variable nonNullError : string -> any.

Definition nonNullProp {A : Type} (value : option A) (name : string) : result A :=
  match value with
  | Some v => Ok v
  | None => Throw (nonNullError name)
  end.

(** [String.prototype.toLowerCase], the language's: it folds every cased
    letter of Unicode, and is taken as given. *)
Variable toLowerCase : string -> string.

(** [plans.some(plan => ...)]: the callback may throw, and [&&] evaluates
    its second operand only when the first holds. *)
Fixpoint some_plan (test : AppServicePlan -> result bool) (plans : list AppServicePlan)
    : result bool :=
  match plans with
  | [] => Ok false
  | plan :: rest =>
      match test plan with
      | Ok true => Ok true
      | Ok false => some_plan test rest
      | Throw e => Throw e
      end
  end.

Definition sameName (name resourceGroupName : string) (plan : AppServicePlan)
    : result bool :=
  match nonNullProp (plan_resourceGroup plan) "resourceGroup" with
  | Throw e => Throw e
  | Ok rg =>
      if String.eqb (toLowerCase rg) (toLowerCase resourceGroupName)
      then match nonNullProp (plan_name plan) "name" with
           | Throw e => Throw e
           | Ok n => Ok (String.eqb (toLowerCase n) (toLowerCase name))
           end
      else Ok false
  end.

(** The body of [isNameAvailable] once [plans] is known. *)
Definition nameAvailableAmong (name resourceGroupName : string)
    (plans : list AppServicePlan) : result bool :=
  match some_plan (sameName name resourceGroupName) plans with
  | Ok b => Ok (negb b)
  | Throw e => Throw e
  end.

Definition isNameAvailable (name resourceGroupName : string) : M State bool :=
  plans ← getPlans;
  settle (nameAvailableAmong name resourceGroupName plans).

Record IAzureQuickPickItem : Type := mkPick {
  pick_id : option string;
  pick_label : string;
  pick_description : string;
  pick_detail : option string;
  pick_data : option AppServicePlan
}.

(** A template literal prints an undefined value as "undefined". *)
Definition template (v : option string) : string := default "undefined"%string v.

(** The body of the [for] loop of [getQuickPicks]. *)
Definition addPick (c : IAppServiceWizardContext) (picks : list IAzureQuickPickItem)
    (plan : AppServicePlan) : result (list IAzureQuickPickItem) :=
  let isNewSiteLinux :=
    match newSiteOS c with
    | Some os => WebsiteOS_eqb os linux
    | None => false
    end in
  match nonNullProp (plan_kind plan) "kind" with
  | Throw e => Throw e
  | Ok kind =>
      let isPlanLinux :=
        JsString.includes (toLowerCase kind) (WebsiteOS_value linux) in
      if Bool.eqb isNewSiteLinux isPlanLinux
      then match nonNullProp (plan_name plan) "name" with
           | Throw e => Throw e
           | Ok name =>
               match nonNullProp (plan_sku_name plan) "sku" with
               | Throw e => Throw e
               | Ok sku_name =>
                   Ok (picks ++
                       [{| pick_id := plan_id plan;
                           pick_label := name;
                           pick_description :=
                             template sku_name +:+ " (" +:+
                             template (plan_geoRegion plan) +:+ ")";
                           pick_detail := plan_resourceGroup plan;
                           pick_data := Some plan |}])
               end
           end
      else Ok picks
  end.

Fixpoint addPicks (c : IAppServiceWizardContext) (picks : list IAzureQuickPickItem)
    (plans : list AppServicePlan) : result (list IAzureQuickPickItem) :=
  match plans with
  | [] => Ok picks
  | plan :: rest =>
      match addPick c picks plan with
      | Ok picks' => addPicks c picks' rest
      | Throw e => Throw e
      end
  end.

Definition createNewPick : IAzureQuickPickItem :=
  {| pick_id := None;
     pick_label := localize "CreateNewAppServicePlan" "$(plus) Create new App Service plan";
     pick_description := "";
     pick_detail := None;
     pick_data := None |}.

Definition getQuickPicks : M State (list IAzureQuickPickItem) :=
  plans ← getPlans;
  '(c, _) ← get;
  settle (addPicks c [createNewPick] plans).


(** *** Memoization of the plan listing *)

Lemma getPlans_undefined (c : IAppServiceWizardContext) (w : World) :
  plansTask c = None ->
  let task := {| task_id := issued w; task_outcome := listing w (issued w) |} in
  getPlans (c, w) =
  (task_outcome task,
   (set_plansTask task c,
    {| listing := listing w;
       issued := S (issued w);
       trace := trace w ++ [CreateAzureClient (subscriptionId c); ListPlans (issued w)] |})).
Proof.
  intros Hnone. unfold getPlans, mbind, M_bind, get. cbn. rewrite Hnone. reflexivity.
Qed.

Lemma getPlans_defined (c : IAppServiceWizardContext) (w : World) (task : Task) :
  plansTask c = Some task ->
  getPlans (c, w) = (task_outcome task, (c, w)).
Proof.
  intros Hsome. unfold getPlans, mbind, M_bind, get. cbn. rewrite Hsome. reflexivity.
Qed.


(** *** Name checks *)

Lemma some_plan_app (test : AppServicePlan -> result bool)
    (pre post : list AppServicePlan) :
  some_plan test pre = Ok false ->
  some_plan test (pre ++ post) = some_plan test post.
Proof.
  induction pre as [|p pre IH]; [reflexivity|].
  cbn. destruct (test p) as [[|]|e]; try discriminate. exact IH.
Qed.

(** A plan of the given name in the given resource group, letter case
    apart. *)
Definition isSamePlan (name resourceGroupName : string) (p : AppServicePlan) : bool :=
  match plan_resourceGroup p, plan_name p with
  | Some rg, Some n =>
      String.eqb (toLowerCase rg) (toLowerCase resourceGroupName) &&
      String.eqb (toLowerCase n) (toLowerCase name)
  | _, _ => false
  end.

(** Two plans with the same name and the same resource group, letter case
    apart; a property that one of them lacks, the other lacks too. *)
Definition sameUpToCase (p q : AppServicePlan) : Prop :=
  option_map toLowerCase (plan_name p) = option_map toLowerCase (plan_name q) /\
  option_map toLowerCase (plan_resourceGroup p) =
    option_map toLowerCase (plan_resourceGroup q).

Lemma sameName_up_to_case (name1 name2 group1 group2 : string) (p q : AppServicePlan) :
  toLowerCase name1 = toLowerCase name2 ->
  toLowerCase group1 = toLowerCase group2 ->
  sameUpToCase p q ->
  sameName name1 group1 p = sameName name2 group2 q.
Proof.
  intros Hname Hgroup [Hn Hrg]. unfold sameName, nonNullProp.
  destruct (plan_resourceGroup p) as [rg1|], (plan_resourceGroup q) as [rg2|];
    try discriminate Hrg; [|reflexivity].
  injection Hrg as ->. rewrite Hgroup.
  destruct (String.eqb (toLowerCase rg2) (toLowerCase group2)); [|reflexivity].
  destruct (plan_name p) as [n1|], (plan_name q) as [n2|];
    try discriminate Hn; [|reflexivity].
  injection Hn as ->. now rewrite Hname.
Qed.

(** X5. The name check sees names and resource groups in lower case only,
    those it is asked about and those of the listed plans alike: two
    checks have the same outcome when the names and resource groups asked
    about are equal once in lower case and the plans listed are, one by
    one, the same up to letter case. And a listed plan that the check
    reaches, of the name and in the resource group asked about up to letter
    case, makes the name unavailable. *)
Theorem isNameAvailable_ignores_case (name1 name2 group1 group2 : string)
    (c1 c2 : IAppServiceWizardContext) (w1 w2 : World) (task1 task2 : Task)
    (plans1 plans2 : list AppServicePlan) :
  plansTask c1 = Some task1 -> task_outcome task1 = Ok plans1 ->
  plansTask c2 = Some task2 -> task_outcome task2 = Ok plans2 ->
  toLowerCase name1 = toLowerCase name2 ->
  toLowerCase group1 = toLowerCase group2 ->
  Forall2 sameUpToCase plans1 plans2 ->
  fst (isNameAvailable name1 group1 (c1, w1)) =
    fst (isNameAvailable name2 group2 (c2, w2)) /\
  (forall pre p post n rg,
     plans1 = pre ++ p :: post ->
     some_plan (sameName name1 group1) pre = Ok false ->
     plan_name p = Some n -> plan_resourceGroup p = Some rg ->
     toLowerCase n = toLowerCase name1 ->
     toLowerCase rg = toLowerCase group1 ->
     fst (isNameAvailable name1 group1 (c1, w1)) = Ok false).
Proof.
  intros Htask1 Hout1 Htask2 Hout2 Hname Hgroup Hplans.
  unfold isNameAvailable, mbind, M_bind.
  rewrite (getPlans_defined c1 w1 task1 Htask1), Hout1.
  rewrite (getPlans_defined c2 w2 task2 Htask2), Hout2.
  unfold settle, nameAvailableAmong. cbn [fst]. split.
  - assert (Hsome : some_plan (sameName name1 group1) plans1 =
                    some_plan (sameName name2 group2) plans2).
    { clear Hout1 Hout2.
      induction Hplans as [|p q plans1 plans2 Hpq _ IH]; [reflexivity|].
      cbn [some_plan].
      rewrite (sameName_up_to_case name1 name2 group1 group2 p q Hname Hgroup Hpq).
      now rewrite IH. }
    now rewrite Hsome.
  - intros pre p post n rg -> Hpre Hn Hrg Hnlow Hrglow.
    rewrite (some_plan_app _ pre _ Hpre). cbn [some_plan].
    unfold sameName at 1, nonNullProp. rewrite Hn, Hrg, Hnlow, Hrglow.
    now rewrite !String.eqb_refl.
Qed.

(** X6. When the listing has resolved to plans that all have a name and a
    resource group, a name is available exactly when no plan has that name
    in that resource group, letter case apart; the check leaves the state
    as it is. With no plan at all every name is available. *)
Theorem isNameAvailable_complete_plans (name resourceGroupName : string)
    (c : IAppServiceWizardContext) (w : World) (task : Task)
    (plans : list AppServicePlan) :
  plansTask c = Some task ->
  task_outcome task = Ok plans ->
  (forall p, In p plans -> plan_resourceGroup p <> None /\ plan_name p <> None) ->
  isNameAvailable name resourceGroupName (c, w) =
  (Ok (negb (existsb (isSamePlan name resourceGroupName) plans)), (c, w)).
Proof.
  intros Htask Houtcome Hall. unfold isNameAvailable, mbind, M_bind.
  rewrite (getPlans_defined c w task Htask), Houtcome. unfold settle. f_equal.
  unfold nameAvailableAmong.
  assert (Hsome : some_plan (sameName name resourceGroupName) plans =
                  Ok (existsb (isSamePlan name resourceGroupName) plans)).
  { clear Houtcome. induction plans as [|p plans IH]; [reflexivity|].
    destruct (Hall p (or_introl eq_refl)) as [Hrg Hn].
    cbn [some_plan existsb]. unfold sameName at 1, isSamePlan at 1, nonNullProp.
    destruct (plan_resourceGroup p) as [rg|]; [|contradiction].
    destruct (plan_name p) as [n|]; [|contradiction].
    destruct (String.eqb (toLowerCase rg) _); cbn [andb];
      [destruct (String.eqb (toLowerCase n) _); cbn [orb]|];
      try reflexivity; apply IH; intros q Hq; apply Hall; now right. }
  now rewrite Hsome.
Qed.

(** X7. Plans with a property missing. With no plan of the name before it,
    a plan without a resource group makes the check throw for
    [resourceGroup]; a plan in the resource group without a name makes it
    throw for [name]; a plan in another resource group is passed over
    whether it has a name or not. *)
Theorem isNameAvailable_missing_property (name resourceGroupName : string)
    (pre post : list AppServicePlan) (p : AppServicePlan) :
  some_plan (sameName name resourceGroupName) pre = Ok false ->
  (plan_resourceGroup p = None ->
   nameAvailableAmong name resourceGroupName (pre ++ p :: post) =
     Throw (nonNullError "resourceGroup")) /\
  (forall rg, plan_resourceGroup p = Some rg ->
     toLowerCase rg = toLowerCase resourceGroupName ->
     plan_name p = None ->
     nameAvailableAmong name resourceGroupName (pre ++ p :: post) =
       Throw (nonNullError "name")) /\
  (forall rg, plan_resourceGroup p = Some rg ->
     toLowerCase rg <> toLowerCase resourceGroupName ->
     nameAvailableAmong name resourceGroupName (pre ++ p :: post) =
       nameAvailableAmong name resourceGroupName post).
Proof.
  intros Hpre. unfold nameAvailableAmong. rewrite (some_plan_app _ pre _ Hpre).
  cbn [some_plan]. unfold sameName at 1 3 5, nonNullProp. split; [|split].
  - intros ->. reflexivity.
  - intros rg -> Heq ->. rewrite Heq, String.eqb_refl. reflexivity.
  - intros rg -> Hne.
    destruct (String.eqb_spec (toLowerCase rg)
                (toLowerCase resourceGroupName)); [contradiction|].
    reflexivity.
Qed.

(** *** The quick picks, the prompt and the sub-wizard *)

(** The test of the [for] loop: the plan is a Linux plan exactly when the
    new site is a Linux site. *)
Definition fitsNewSite (c : IAppServiceWizardContext) (p : AppServicePlan) : bool :=
  match plan_kind p with
  | Some kind =>
      Bool.eqb (match newSiteOS c with
                | Some os => WebsiteOS_eqb os linux
                | None => false
                end)
               (JsString.includes (toLowerCase kind) (WebsiteOS_value linux))
  | None => false
  end.

Lemma addPick_shape (c : IAppServiceWizardContext) (picks picks' : list IAzureQuickPickItem)
    (p : AppServicePlan) :
  addPick c picks p = Ok picks' ->
  (fitsNewSite c p = false /\ picks' = picks) \/
  (fitsNewSite c p = true /\
   exists pick, picks' = picks ++ [pick] /\ pick_data pick = Some p /\
                Some (pick_label pick) = plan_name p /\ pick_id pick = plan_id p).
Proof.
  unfold addPick, fitsNewSite, nonNullProp.
  destruct (plan_kind p) as [kind|]; [|discriminate].
  destruct (Bool.eqb _ _).
  - destruct (plan_name p) as [name|]; [|discriminate].
    destruct (plan_sku_name p) as [sku|]; [|discriminate].
    intros [= <-]. right. split; [reflexivity|]. eexists. repeat split.
  - intros [= <-]. now left.
Qed.

Lemma addPicks_shape (c : IAppServiceWizardContext) (plans : list AppServicePlan)
    (picks picks' : list IAzureQuickPickItem) :
  addPicks c picks plans = Ok picks' ->
  exists more,
    picks' = picks ++ more /\
    (length more <= length plans)%nat /\
    forall pick, In pick more ->
      exists p, In p plans /\ pick_data pick = Some p /\ fitsNewSite c p = true /\
                Some (pick_label pick) = plan_name p.
Proof.
  revert picks. induction plans as [|p plans IH]; intros picks.
  - cbn. intros [= <-]. exists []. rewrite app_nil_r.
    split; [reflexivity|]. split; [cbn; lia|]. intros pick [].
  - cbn [addPicks]. destruct (addPick c picks p) as [picks1|e] eqn:Hadd; [|discriminate].
    intros Hrest. destruct (IH _ Hrest) as (more & -> & Hlen & Hmore).
    destruct (addPick_shape _ _ _ _ Hadd)
      as [[_ ->]|(Hfits & pick0 & -> & Hdata & Hlabel & _)].
    + exists more. split; [reflexivity|]. split; [cbn; lia|].
      intros pick Hin. destruct (Hmore pick Hin) as (q & Hq & Hrest').
      exists q. split; [now right | exact Hrest'].
    + exists (pick0 :: more). rewrite <- app_assoc. split; [reflexivity|].
      split; [cbn; lia|].
      intros pick [<-|Hin].
      * exists p. repeat split; try assumption. now left.
      * destruct (Hmore pick Hin) as (q & Hq & Hrest'). exists q.
        split; [now right | exact Hrest'].
Qed.

Lemma getQuickPicks_defined (c : IAppServiceWizardContext) (w : World) (task : Task) :
  plansTask c = Some task ->
  getQuickPicks (c, w) = (task_outcome task ≫= addPicks c [createNewPick], (c, w)).
Proof.
  intros Htask. unfold getQuickPicks, mbind at 1, M_bind.
  rewrite (getPlans_defined c w task Htask). now destruct (task_outcome task).
Qed.

Lemma getPlans_context (st : State) :
  newSiteOS (fst (snd (getPlans st))) = newSiteOS (fst st) /\
  plan (fst (snd (getPlans st))) = plan (fst st) /\
  newPlanName (fst (snd (getPlans st))) = newPlanName (fst st) /\
  exists task, plansTask (fst (snd (getPlans st))) = Some task /\
               fst (getPlans st) = task_outcome task.
Proof.
  destruct st as [c w]. destruct (plansTask c) as [task|] eqn:Htask.
  - rewrite (getPlans_defined c w task Htask). cbn. repeat split. eauto.
  - rewrite (getPlans_undefined c w Htask). cbn. repeat split. eauto.
Qed.

(** X8. When [getQuickPicks] returns, the first pick is the one that
    creates a new plan; every other pick stands for one of the listed
    plans, is labelled with its name, and is a Linux plan exactly when the
    new site is a Linux site. There are never more picks than plans, plus
    one. *)
Theorem getQuickPicks_offers_fitting_plans (st : State)
    (picks : list IAzureQuickPickItem) :
  fst (getQuickPicks st) = Ok picks ->
  exists plans more,
    fst (getPlans st) = Ok plans /\
    picks = createNewPick :: more /\
    (length more <= length plans)%nat /\
    forall pick, In pick more ->
      exists p, In p plans /\ pick_data pick = Some p /\
                fitsNewSite (fst st) p = true /\
                Some (pick_label pick) = plan_name p.
Proof.
  unfold getQuickPicks, mbind at 1, M_bind.
  destruct (getPlans_context st) as (Hos & _ & _ & _).
  destruct (getPlans st) as [[plans|e] [c1 w1]] eqn:Hget; cbn [fst snd] in *;
    [|discriminate].
  unfold mbind, M_bind, get, settle. cbn [fst].
  intros Hadd. destruct (addPicks_shape _ _ _ _ Hadd) as (more & -> & Hlen & Hmore).
  exists plans, more. repeat split; try assumption.
  intros pick Hin. destruct (Hmore pick Hin) as (p & Hp & Hdata & Hfits & Hlabel).
  exists p. repeat split; try assumption.
  unfold fitsNewSite in *. now rewrite <- Hos.
Qed.

(** What the quick pick and [LocationListStep.setLocation] answer, and what
    a cancelled quick pick throws: the UI package's. [setLocation] writes
    the context's [location], which this step does not read. *)
Variable userCancelled : any.
Variable setLocation : option string -> result unit.

Definition set_plan (p : option AppServicePlan) (c : IAppServiceWizardContext)
    : IAppServiceWizardContext :=
  {| subscriptionId := subscriptionId c;
     newSiteOS := newSiteOS c;
     plan := p;
     newPlanName := newPlanName c;
     plansTask := plansTask c |}.

(** [await ext.ui.showQuickPick(picks, options)]: the user takes the pick at
    [choice], or cancels. *)
Definition showQuickPick (picks : list IAzureQuickPickItem) (choice : option nat)
    : result IAzureQuickPickItem :=
  match choice with
  | Some index =>
      match picks !! index with
      | Some pick => Ok pick
      | None => Throw userCancelled
      end
  | None => Throw userCancelled
  end.

(** [prompt]: the options, with [nonNullProp(wizardContext, 'newSiteOS')] in
    the placeholder, are built before the picks are asked for. *)
Definition prompt (choice : option nat) : M State unit :=
  '(c, _) ← get;
  _ ← settle (nonNullProp (newSiteOS c) "newSiteOS");
  picks ← getQuickPicks;
  pick ← settle (showQuickPick picks choice);
  _ ← modify (fun '(c, w) => (set_plan (pick_data pick) c, w));
  match pick_data pick with
  | Some p => settle (setLocation (plan_location p))
  | None => mret tt
  end.

(** The steps of the sub-wizard, by class. *)
Inductive AzureWizardPromptStep : Type :=
| AppServicePlanNameStep
| AppServicePlanSkuStep
| ResourceGroupListStep
| LocationListStep.

Inductive AzureWizardExecuteStep : Type :=
| AppServicePlanCreateStep.






(** X10. With [newSiteOS] unset the prompt throws for [newSiteOS] before it
    asks for the picks: no listing is issued, and the context is as it
    was. *)
Theorem prompt_needs_newSiteOS (choice : option nat) (st : State) :
  newSiteOS (fst st) = None ->
  prompt choice st = (Throw (nonNullError "newSiteOS"), st).
Proof.
  destruct st as [c w]. cbn [fst]. intros Hos.
  unfold prompt, mbind, M_bind, get, settle, nonNullProp. now rewrite Hos.
Qed.

End NonNull.

(** *** A concrete run *)

(** A [toLowerCase] for the runs below, whose strings are made of ASCII
    characters: on these [toLowerCase] folds the letters A to Z and leaves
    the rest. *)
Definition lowerAscii (c : ascii) : ascii :=
  let n := nat_of_ascii c in
  if (65 <=? n)%nat && (n <=? 90)%nat then ascii_of_nat (n + 32) else c.

Fixpoint toLowerCase_ascii (s : string) : string :=
  match s with
  | EmptyString => EmptyString
  | String c s' => String (lowerAscii c) (toLowerCase_ascii s')
  end.

Definition plan1 : AppServicePlan :=
  {| plan_id := Some "/plans/plan1"%string;
     plan_name := Some "Plan1"%string;
     plan_resourceGroup := Some "RG"%string;
     plan_kind := Some "app"%string;
     plan_sku_name := Some (Some "B1"%string);
     plan_geoRegion := Some "West US"%string;
     plan_location := Some "westus"%string |}.

Definition freshState : State :=
  ({| subscriptionId := "sub";
      newSiteOS := Some windows;
      plan := None;
      newPlanName := None;
      plansTask := None |},
   {| listing := fun _ => Ok [plan1]; issued := 0; trace := [] |}).


(** The state once the listing of [freshState] was asked for. *)
Definition listedState : State := snd (getPlans freshState).

Definition listedTask : Task := {| task_id := 0; task_outcome := Ok [plan1] |}.

(** The plan of [plan1] under another spelling. *)
Definition plan1_upper : AppServicePlan :=
  {| plan_id := Some "/plans/plan1"%string;
     plan_name := Some "PLAN1"%string;
     plan_resourceGroup := Some "rg"%string;
     plan_kind := Some "app"%string;
     plan_sku_name := Some (Some "B1"%string);
     plan_geoRegion := Some "West US"%string;
     plan_location := Some "westus"%string |}.

(** A state whose listing has resolved to [plans]. *)
Definition listedWith (plans : list AppServicePlan) : State :=
  ({| subscriptionId := "sub";
      newSiteOS := Some windows;
      plan := None;
      newPlanName := None;
      plansTask := Some {| task_id := 0; task_outcome := Ok plans |} |},
   {| listing := fun _ => Ok plans; issued := 1; trace := [] |}).

Lemma isNameAvailable_ignores_case_witness :
  fst (isNameAvailable new_Error toLowerCase_ascii "pLan1" "Rg" (listedWith [plan1])) =
    fst (isNameAvailable new_Error toLowerCase_ascii "plAn1" "rG"
           (listedWith [plan1_upper])) /\
  fst (isNameAvailable new_Error toLowerCase_ascii "pLan1" "Rg" (listedWith [plan1]))
    = Ok false.
Proof.
  destruct (isNameAvailable_ignores_case new_Error toLowerCase_ascii
              "pLan1" "plAn1" "Rg" "rG"
              (fst (listedWith [plan1])) (fst (listedWith [plan1_upper]))
              (snd (listedWith [plan1])) (snd (listedWith [plan1_upper]))
              {| task_id := 0; task_outcome := Ok [plan1] |}
              {| task_id := 0; task_outcome := Ok [plan1_upper] |}
              [plan1] [plan1_upper] eq_refl eq_refl eq_refl eq_refl eq_refl eq_refl)
    as [Hsame Htaken].
  - constructor; [split; reflexivity | constructor].
  - split; [exact Hsame|].
    exact (Htaken [] plan1 [] "Plan1"%string "RG"%string
             eq_refl eq_refl eq_refl eq_refl eq_refl eq_refl).
Defined.

Lemma isNameAvailable_complete_plans_witness :
  isNameAvailable new_Error toLowerCase_ascii "plan1" "rg" listedState
    = (Ok false, listedState) /\
  isNameAvailable new_Error toLowerCase_ascii "plan2" "rg" listedState
    = (Ok true, listedState).
Proof.
  assert (Hall : forall p, In p [plan1] ->
                   plan_resourceGroup p <> None /\ plan_name p <> None).
  { intros p [<-|[]]. split; discriminate. }
  split.
  - exact (isNameAvailable_complete_plans new_Error toLowerCase_ascii "plan1" "rg"
             (fst listedState)
             (snd listedState) listedTask [plan1] eq_refl eq_refl Hall).
  - exact (isNameAvailable_complete_plans new_Error toLowerCase_ascii "plan2" "rg"
             (fst listedState)
             (snd listedState) listedTask [plan1] eq_refl eq_refl Hall).
Defined.

(** A plan as the SDK may return it, with nothing but a kind. *)
Definition bare : AppServicePlan :=
  {| plan_id := None; plan_name := None; plan_resourceGroup := None;
     plan_kind := Some "linux"%string; plan_sku_name := None;
     plan_geoRegion := None; plan_location := None |}.

Lemma isNameAvailable_missing_property_witness :
  nameAvailableAmong new_Error toLowerCase_ascii "plan1" "rg" [bare; plan1]
  = Throw (new_Error "resourceGroup").
Proof.
  destruct (isNameAvailable_missing_property new_Error toLowerCase_ascii "plan1" "rg"
              [] [plan1] bare
              eq_refl) as (Hgroup & _ & _).
  exact (Hgroup eq_refl).
Defined.

Lemma getQuickPicks_offers_fitting_plans_witness :
  exists plans more,
    fst (getPlans freshState) = Ok plans /\
    fst (getQuickPicks new_Error toLowerCase_ascii freshState)
      = Ok (createNewPick :: more) /\
    (length more <= length plans)%nat.
Proof.
  destruct (getQuickPicks_offers_fitting_plans new_Error toLowerCase_ascii freshState
              [createNewPick;
               {| pick_id := Some "/plans/plan1"%string;
                  pick_label := "Plan1";
                  pick_description := "B1 (West US)";
                  pick_detail := Some "RG"%string;
                  pick_data := Some plan1 |}] eq_refl)
    as (plans & more & Hplans & Hpicks & Hlen & _).
  exists plans, more. split; [exact Hplans|]. split; [|exact Hlen].
  now rewrite <- Hpicks.
Defined.



Definition noOSState : State :=
  ({| subscriptionId := "sub"; newSiteOS := None; plan := None;
      newPlanName := None; plansTask := None |},
   {| listing := fun _ => Ok [plan1]; issued := 0; trace := [] |}).

Lemma prompt_needs_newSiteOS_witness :
  prompt new_Error toLowerCase_ascii (new_Error "Cancelled") (fun _ => Ok tt)
    (Some 0%nat) noOSState
  = (Throw (new_Error "newSiteOS"), noOSState).
Proof.
  apply (prompt_needs_newSiteOS new_Error toLowerCase_ascii (new_Error "Cancelled")).
  reflexivity.
Defined.

End AppServicePlanListStep.

(** ** The creation wizard: createAppService.ts *)

Module CreateAppService.

Import AppKind.

(** The storage account enums of the UI package, as far as the call names
    their members. *)
Inductive StorageAccountKind : Type := Storage | StorageV2 | BlobStorage.
Inductive StorageAccountPerformance : Type := Standard | Premium.
Inductive StorageAccountReplication : Type := LRS | GRS | RAGRS | ZRS.

Record INewStorageAccountDefaults : Type := mkDefaults {
  kind : StorageAccountKind;
  performance : StorageAccountPerformance;
  replication : StorageAccountReplication
}.

Record IStorageAccountFilters : Type := mkFilters {
  filter_kind : list StorageAccountKind;
  filter_performance : list StorageAccountPerformance;
  filter_replication : list StorageAccountReplication;
  learnMoreLink : option string
}.

(** The step objects, by class and constructor arguments. *)
Inductive AzureWizardPromptStep : Type :=
| SiteNameStep
| ResourceGroupListStep
| SiteOSStep
| SiteRuntimeStep
| StorageAccountListStep (newAccountDefaults : INewStorageAccountDefaults)
                         (filters : IStorageAccountFilters)
| LocationListStep
| AppServicePlanListStep.

Inductive AzureWizardExecuteStep : Type :=
| ResourceGroupCreateStep
| AppServicePlanCreateStep
| SiteCreateStep (functionAppSettings : option (list (string * string))).

Record IAppCreateOptions : Type := mkOptions {
  advancedCreation : option bool;
  functionAppSettings : option (list (string * string));
  resourceGroup : option string;
  os : option WebsiteOS;
  runtime : option string
}.

(** [{}], what an undefined [createOptions] is replaced with. *)
Definition noOptions : IAppCreateOptions :=
  {| advancedCreation := None;
     functionAppSettings := None;
     resourceGroup := None;
     os := None;
     runtime := None |}.

(** [ISubscriptionWizardContext]; credentials and environment are opaque. *)
Record ISubscriptionWizardContext : Type := mkSubscription {
  sub_subscriptionId : string;
  sub_subscriptionDisplayName : string;
  sub_credentials : any;
  sub_environment : any
}.

Record IAppServiceWizardContext : Type := mkContext {
  newSiteKind : AppKind;
  newSiteOS : option WebsiteOS;
  newSiteRuntime : option string;
  subscriptionId : string;
  subscriptionDisplayName : string;
  credentials : any;
  environment : any;
  newResourceGroupName : option string
}.

Definition set_newResourceGroupName (name : string) (c : IAppServiceWizardContext)
    : IAppServiceWizardContext :=
  {| newSiteKind := newSiteKind c;
     newSiteOS := newSiteOS c;
     newSiteRuntime := newSiteRuntime c;
     subscriptionId := subscriptionId c;
     subscriptionDisplayName := subscriptionDisplayName c;
     credentials := credentials c;
     environment := environment c;
     newResourceGroupName := Some name |}.

(** [new AzureWizard(promptSteps, executeSteps, wizardContext)]. *)
Record AzureWizard : Type := new_AzureWizard {
  promptSteps : list AzureWizardPromptStep;
  executeSteps : list AzureWizardExecuteStep;
  wizardContext : IAppServiceWizardContext
}.

Definition is_true (b : option bool) : bool := default false b.

Section Wizard.

(** [setWizardContextDefaults] of createWebApp.ts, which is not among the
    sources: it is awaited, so it may throw, and it is handed the context,
    so it may change it. *)
Variable setWizardContextDefaults :
  IAppServiceWizardContext -> result IAppServiceWizardContext.

(** The storage account step of a function app. *)
Definition functionAppStorageStep : AzureWizardPromptStep :=
  StorageAccountListStep
    {| kind := Storage; performance := Standard; replication := LRS |}
    {| filter_kind := [BlobStorage];
       filter_performance := [Premium];
       filter_replication := [ZRS];
       learnMoreLink := Some "https://aka.ms/Cfqnrc"%string |}.

(** [createAppService] up to and including the construction of the wizard:
    the three locals [promptSteps], [executeSteps] and [wizardContext] are
    threaded through the statements in source order, a [push] appending at
    the end. The [app] case has no [break] and falls into the empty
    [default]. *)
Definition createAppService (appKind : AppKind)
    (subscriptionContext : ISubscriptionWizardContext)
    (createOptions : option IAppCreateOptions) : result AzureWizard :=
  let createOptions := default noOptions createOptions in
  let promptSteps : list AzureWizardPromptStep := [] in
  let executeSteps : list AzureWizardExecuteStep := [] in
  let wizardContext :=
    {| newSiteKind := appKind;
       newSiteOS := os createOptions;
       newSiteRuntime := runtime createOptions;
       subscriptionId := sub_subscriptionId subscriptionContext;
       subscriptionDisplayName := sub_subscriptionDisplayName subscriptionContext;
       credentials := sub_credentials subscriptionContext;
       environment := sub_environment subscriptionContext;
       newResourceGroupName := None |} in
  let '(wizardContext, executeSteps) :=
    if truthy_str (resourceGroup createOptions)
    then (set_newResourceGroupName (default ""%string (resourceGroup createOptions))
            wizardContext,
          executeSteps ++ [ResourceGroupCreateStep])
    else (wizardContext, executeSteps) in
  let promptSteps := promptSteps ++ [SiteNameStep] in
  '(promptSteps, executeSteps, wizardContext) ←
    match appKind with
    | functionapp =>
        let promptSteps := promptSteps ++ [ResourceGroupListStep] in
        let promptSteps := promptSteps ++ [SiteOSStep] in
        let promptSteps := promptSteps ++ [SiteRuntimeStep] in
        let promptSteps := promptSteps ++ [functionAppStorageStep] in
        let promptSteps := promptSteps ++ [LocationListStep] in
        Ok (promptSteps, executeSteps, wizardContext)
    | app =>
        if is_true (advancedCreation createOptions)
        then
          let promptSteps := promptSteps ++ [ResourceGroupListStep] in
          let promptSteps := promptSteps ++ [SiteOSStep] in
          let promptSteps := promptSteps ++ [SiteRuntimeStep] in
          let promptSteps := promptSteps ++ [AppServicePlanListStep] in
          let promptSteps := promptSteps ++ [LocationListStep] in
          Ok (promptSteps, executeSteps, wizardContext)
        else
          wizardContext ← setWizardContextDefaults wizardContext;
          let promptSteps := promptSteps ++ [LocationListStep] in
          let promptSteps := promptSteps ++ [SiteOSStep] in
          let promptSteps := promptSteps ++ [SiteRuntimeStep] in
          let executeSteps := executeSteps ++ [ResourceGroupCreateStep] in
          let executeSteps := executeSteps ++ [AppServicePlanCreateStep] in
          Ok (promptSteps, executeSteps, wizardContext)
    | otherKind _ => Ok (promptSteps, executeSteps, wizardContext)
    end;
  let executeSteps :=
    executeSteps ++ [SiteCreateStep (functionAppSettings createOptions)] in
  Ok (new_AzureWizard promptSteps executeSteps wizardContext).

(** The context handed to [setWizardContextDefaults]. *)
Definition contextBeforeDefaults (subscriptionContext : ISubscriptionWizardContext)
    (createOptions : option IAppCreateOptions) : IAppServiceWizardContext :=
  let createOptions := default noOptions createOptions in
  let wizardContext :=
    {| newSiteKind := app;
       newSiteOS := os createOptions;
       newSiteRuntime := runtime createOptions;
       subscriptionId := sub_subscriptionId subscriptionContext;
       subscriptionDisplayName := sub_subscriptionDisplayName subscriptionContext;
       credentials := sub_credentials subscriptionContext;
       environment := sub_environment subscriptionContext;
       newResourceGroupName := None |} in
  if truthy_str (resourceGroup createOptions)
  then set_newResourceGroupName (default ""%string (resourceGroup createOptions))
         wizardContext
  else wizardContext.

(** C6. For a function app the wizard is always built, and its prompt
    steps are, in this order, the site name, resource group list, OS,
    runtime, storage account list and location list steps. For a web app
    the order is fixed by [advancedCreation]. Whatever the kind, the wizard
    is built unless [setWizardContextDefaults] throws (basic web app only),
    and the last execute step of a built wizard is the site creation
    step. *)
Theorem createAppService_step_order (appKind : AppKind)
    (subscriptionContext : ISubscriptionWizardContext)
    (createOptions : option IAppCreateOptions) :
  match createAppService appKind subscriptionContext createOptions with
  | Ok wizard =>
      last (executeSteps wizard) =
        Some (SiteCreateStep (functionAppSettings (default noOptions createOptions))) /\
      promptSteps wizard =
        match appKind with
        | functionapp =>
            [SiteNameStep; ResourceGroupListStep; SiteOSStep; SiteRuntimeStep;
             functionAppStorageStep; LocationListStep]
        | app =>
            if is_true (advancedCreation (default noOptions createOptions))
            then [SiteNameStep; ResourceGroupListStep; SiteOSStep; SiteRuntimeStep;
                  AppServicePlanListStep; LocationListStep]
            else [SiteNameStep; LocationListStep; SiteOSStep; SiteRuntimeStep]
        | otherKind _ => [SiteNameStep]
        end
  | Throw e =>
      appKind = app /\
      is_true (advancedCreation (default noOptions createOptions)) = false /\
      setWizardContextDefaults (contextBeforeDefaults subscriptionContext createOptions)
        = Throw e
  end.
Proof.
  unfold createAppService, contextBeforeDefaults.
  destruct (truthy_str (resourceGroup (default noOptions createOptions)));
    destruct appKind; cbn;
    try (destruct (is_true (advancedCreation (default noOptions createOptions))); cbn);
    try (split; reflexivity);
    match goal with
    | |- context [setWizardContextDefaults ?c] =>
        destruct (setWizardContextDefaults c) eqn:Hdefaults; cbn
    end;
    repeat split; reflexivity.
Qed.

(** *** The execute steps *)

(** X11. The execute steps of a built wizard: a resource group creation
    step when [createOptions.resourceGroup] is not empty, then a resource
    group creation step and a plan creation step for a web app without
    [advancedCreation], then the site creation step. A web app without
    [advancedCreation] but with a resource group thus gets the resource
    group creation step twice. *)
Theorem createAppService_execute_steps (appKind : AppKind)
    (subscriptionContext : ISubscriptionWizardContext)
    (createOptions : option IAppCreateOptions) (wizard : AzureWizard) :
  createAppService appKind subscriptionContext createOptions = Ok wizard ->
  let options := default noOptions createOptions in
  executeSteps wizard =
    (if truthy_str (resourceGroup options) then [ResourceGroupCreateStep] else []) ++
    (match appKind with
     | app => if is_true (advancedCreation options) then []
              else [ResourceGroupCreateStep; AppServicePlanCreateStep]
     | _ => []
     end) ++
    [SiteCreateStep (functionAppSettings options)].
Proof.
  unfold createAppService. cbn zeta.
  destruct (truthy_str (resourceGroup (default noOptions createOptions)));
    destruct appKind; cbn;
    try (destruct (is_true (advancedCreation (default noOptions createOptions))); cbn);
    try (intros [= <-]; reflexivity);
    match goal with
    | |- context [setWizardContextDefaults ?c] =>
        destruct (setWizardContextDefaults c); cbn
    end;
    try discriminate; intros [= <-]; reflexivity.
Qed.

(** *** Running the wizard *)

Record SkuDescription : Type := mkSku {
  sku_name : string;
  tier : string;
  size : string;
  family : string;
  capacity : Z
}.

(** The SDK's [Location], of which the name is read. *)
Record Location : Type := mkLocation {
  location_name : option string
}.

(** The wizard context once the wizard has prompted: the fields above, and
    those the rest of [createAppService] reads or writes. *)
Record PromptedContext : Type := mkPrompted {
  base : IAppServiceWizardContext;
  newSiteName : option string;
  location : option Location;
  newPlanName : option string;
  newPlanSku : option SkuDescription;
  site : option any
}.

(** What the rest of the function does to the outside. *)
Inductive WizardEvent : Type :=
| Prompt
| ShowCreatingTreeItem (label : string)
| WithProgress (title : string)
| Execute (wizardContext : PromptedContext).

(** The wizard's two methods, [nonNullProp] and the title of the progress
    notification are the UI package's and the other files': [prompt] gives
    the wizard's context back, [execute] works on that context as the
    function has left it. *)
Variable wizard_prompt : AzureWizard -> result PromptedContext.
Variable wizard_execute : AzureWizard -> PromptedContext -> result PromptedContext.
Variable nonNullError : string -> any.
Variable creatingNewApp : AppKind -> option string -> string.

(** Modelled from the spec: utils/nonNull.ts is not among the sources. By
    its name and its uses, [nonNullProp(source, name)] returns the property
    when it is neither null nor undefined and throws otherwise; what it
    throws for a property is [nonNullError]. *)
Definition nonNullProp {A : Type} (value : option A) (name : string) : result A :=
  match value with
  | Some v => Ok v
  | None => Throw (nonNullError name)
  end.

Definition basicPlanSku : SkuDescription :=
  {| sku_name := "B1"; tier := "Basic"; size := "B1"; family := "B"; capacity := 1 |}.

Definition freePlanSku : SkuDescription :=
  {| sku_name := "F1"; tier := "Free"; size := "F1"; family := "F"; capacity := 1 |}.

(** What a template literal prints for the OS and for the location name. *)
Definition printOS (os : option WebsiteOS) : string :=
  match os with
  | Some os => WebsiteOS_value os
  | None => "undefined"
  end.

Definition printName (name : option string) : string := default "undefined"%string name.

Definition isWindows (os : option WebsiteOS) : bool :=
  match os with
  | Some os => WebsiteOS_eqb os windows
  | None => false
  end.

(** The assignments made for a web app without [advancedCreation]. *)
Definition withBasicPlan (c : PromptedContext) (l : Location) : PromptedContext :=
  let os := newSiteOS (base c) in
  {| base := set_newResourceGroupName
               ("appsvc_rg_" +:+ printOS os +:+ "_" +:+ printName (location_name l))
               (base c);
     newSiteName := newSiteName c;
     location := location c;
     newPlanName :=
       Some ("appsvc_asp_" +:+ printOS os +:+ "_" +:+ printName (location_name l));
     newPlanSku := Some (if isWindows os then freePlanSku else basicPlanSku);
     site := site c |}.

Definition isApp (k : AppKind) : bool :=
  match k with
  | app => true
  | _ => false
  end.

Definition record (e : WizardEvent) : M (list WizardEvent) unit :=
  modify (fun events => events ++ [e]).

(** The whole of [createAppService]: the wizard is built as above, prompted
    and executed. [showCreatingTreeItem] says whether the callback was
    given. *)
Definition createAppServiceAndSite (appKind : AppKind)
    (subscriptionContext : ISubscriptionWizardContext)
    (createOptions : option IAppCreateOptions) (showCreatingTreeItem : bool)
    : M (list WizardEvent) any :=
  wizard ← settle (createAppService appKind subscriptionContext createOptions);
  let createOptions := default noOptions createOptions in
  _ ← record Prompt;
  wizardContext ← settle (wizard_prompt wizard);
  _ ← (if showCreatingTreeItem
       then label ← settle (nonNullProp (newSiteName wizardContext) "newSiteName");
            record (ShowCreatingTreeItem label)
       else mret tt);
  wizardContext ←
    (if isApp (newSiteKind (base wizardContext)) &&
        negb (is_true (advancedCreation createOptions))
     then l ← settle (nonNullProp (location wizardContext) "location");
          mret (withBasicPlan wizardContext l)
     else mret wizardContext);
  _ ← record (WithProgress (creatingNewApp (newSiteKind (base wizardContext))
                                           (newSiteName wizardContext)));
  _ ← record (Execute wizardContext);
  wizardContext ← settle (wizard_execute wizard wizardContext);
  settle (nonNullProp (site wizardContext) "site").

(** Unfolds one run into the cases of what the outside answers. *)
Ltac run_cases Hrun :=
  revert Hrun; unfold createAppServiceAndSite;
  unfold mbind, M_bind, settle, record, modify, mret, M_ret, nonNullProp;
  repeat match goal with
         | |- context [match ?x with _ => _ end] =>
             lazymatch x with
             | context [match _ with _ => _ end] => fail
             | _ => destruct x eqn:?
             end
         end;
  cbn [fst snd]; intros Hrun; injection Hrun as <- <-.

(** Whether the function sets the plan and the names itself. *)
Definition setsBasicPlan (createOptions : option IAppCreateOptions)
    (c : PromptedContext) : bool :=
  isApp (newSiteKind (base c)) &&
  negb (is_true (advancedCreation (default noOptions createOptions))).

(** The execute steps are run on the context that the prompt gave back,
    with the plan and the names set where the function sets them. *)
Lemma executed_inv (appKind : AppKind)
    (subscriptionContext : ISubscriptionWizardContext)
    (createOptions : option IAppCreateOptions) (showCreatingTreeItem : bool)
    (c : PromptedContext) :
  In (Execute c)
     (snd (createAppServiceAndSite appKind subscriptionContext createOptions
             showCreatingTreeItem [])) ->
  exists wizard c0,
    createAppService appKind subscriptionContext createOptions = Ok wizard /\
    wizard_prompt wizard = Ok c0 /\
    (showCreatingTreeItem = true -> exists s, newSiteName c0 = Some s) /\
    ((setsBasicPlan createOptions c0 = false /\ c = c0) \/
     (setsBasicPlan createOptions c0 = true /\
      exists l, location c0 = Some l /\ c = withBasicPlan c0 l)).
Proof.
  unfold setsBasicPlan.
  destruct (createAppServiceAndSite appKind subscriptionContext createOptions
              showCreatingTreeItem []) as [r events] eqn:Hrun.
  cbn [snd]. run_cases Hrun; cbn; intros Hin;
    repeat (destruct Hin as [Hin|Hin]; try discriminate Hin);
    try contradiction;
    injection Hin as <-;
    do 2 eexists; (split; [reflexivity|]); (split; [eassumption|]);
    (split; [first [discriminate | intros _; eexists; eassumption]|]);
    first [left; split; [assumption|reflexivity]
          | right; split; [assumption|]; eexists; split; [eassumption|reflexivity]].
Qed.

(** X12. The context on which the execute steps are run. When the callback
    [showCreatingTreeItem] was given, the context has a site name. For a
    web app without [advancedCreation] it has a location, the plan is the
    free one on Windows and the basic one otherwise, and the names of the
    plan and of the resource group are made from the OS and the location
    name, whatever resource group the options or the prompt had set. So
    the steps are never run without the site name or the location that
    the function asks for. *)
Theorem executed_context (appKind : AppKind)
    (subscriptionContext : ISubscriptionWizardContext)
    (createOptions : option IAppCreateOptions) (showCreatingTreeItem : bool)
    (c : PromptedContext) :
  In (Execute c)
     (snd (createAppServiceAndSite appKind subscriptionContext createOptions
             showCreatingTreeItem [])) ->
  (showCreatingTreeItem = true -> newSiteName c <> None) /\
  (isApp (newSiteKind (base c)) = true ->
   is_true (advancedCreation (default noOptions createOptions)) = false ->
   let os := newSiteOS (base c) in
   exists l,
     location c = Some l /\
     newPlanSku c = Some (if isWindows os then freePlanSku else basicPlanSku) /\
     newPlanName c =
       Some ("appsvc_asp_" +:+ printOS os +:+ "_" +:+ printName (location_name l)) /\
     newResourceGroupName (base c) =
       Some ("appsvc_rg_" +:+ printOS os +:+ "_" +:+ printName (location_name l))).
Proof.
  intros Hin.
  destruct (executed_inv _ _ _ _ _ Hin)
    as (wizard & c0 & _ & _ & Hname & [[Hplain ->]|(_ & l & Hlocation & ->)]).
  - split.
    + intros Hshown. destruct (Hname Hshown) as [s ->]. discriminate.
    + intros Happ Hadvanced. unfold setsBasicPlan in Hplain.
      rewrite Happ, Hadvanced in Hplain. discriminate Hplain.
  - split.
    + intros Hshown. destruct (Hname Hshown) as [s Hs]. cbn. rewrite Hs. discriminate.
    + intros _ _. exists l. cbn. repeat split; assumption.
Qed.

(** X13. A site is returned only by an executed wizard: when the function
    returns, the wizard was built, its execute steps were run, and what is
    returned is the site of the context they gave back. *)
Theorem site_comes_from_execute (appKind : AppKind)
    (subscriptionContext : ISubscriptionWizardContext)
    (createOptions : option IAppCreateOptions) (showCreatingTreeItem : bool)
    (created : any) :
  fst (createAppServiceAndSite appKind subscriptionContext createOptions
         showCreatingTreeItem []) = Ok created ->
  exists wizard c c',
    createAppService appKind subscriptionContext createOptions = Ok wizard /\
    In (Execute c)
       (snd (createAppServiceAndSite appKind subscriptionContext createOptions
               showCreatingTreeItem [])) /\
    wizard_execute wizard c = Ok c' /\
    site c' = Some created.
Proof.
  destruct (createAppServiceAndSite appKind subscriptionContext createOptions
              showCreatingTreeItem []) as [r events] eqn:Hrun.
  cbn [fst snd]. run_cases Hrun; intros Hr; try discriminate Hr;
    injection Hr as <-;
    do 3 eexists; (split; [reflexivity|]); (split; [|split; eassumption]);
    cbn; tauto.
Qed.

End Wizard.

(** *** Concrete runs *)

(** A [setWizardContextDefaults] that leaves the context as it is. *)
Definition keepContext (c : IAppServiceWizardContext)
    : result IAppServiceWizardContext := Ok c.

Definition sampleSubscription : ISubscriptionWizardContext :=
  {| sub_subscriptionId := "sub-1";
     sub_subscriptionDisplayName := "Pay as you go";
     sub_credentials := JNull;
     sub_environment := JNull |}.

Definition groupOptions : IAppCreateOptions :=
  {| advancedCreation := None;
     functionAppSettings := None;
     resourceGroup := Some "mygroup"%string;
     os := Some linux;
     runtime := None |}.

Definition westus : Location := {| location_name := Some "westus"%string |}.

(** A prompt that answers with a site name and a location, and execute
    steps that create a site. *)
Definition answeringPrompt (wizard : AzureWizard) : result PromptedContext :=
  Ok {| base := wizardContext wizard;
        newSiteName := Some "mysite"%string;
        location := Some westus;
        newPlanName := None;
        newPlanSku := None;
        site := None |}.

Definition creatingExecute (wizard : AzureWizard) (c : PromptedContext)
    : result PromptedContext :=
  Ok {| base := base c;
        newSiteName := newSiteName c;
        location := location c;
        newPlanName := newPlanName c;
        newPlanSku := newPlanSku c;
        site := Some (JString "mysite") |}.

Definition progressTitle (k : AppKind) (name : option string) : string :=
  "Creating " +:+ default "undefined"%string name.

Definition sampleRun : result any * list WizardEvent :=
  createAppServiceAndSite keepContext answeringPrompt creatingExecute JString
    progressTitle app sampleSubscription (Some groupOptions) true [].

Definition sampleWizard : AzureWizard :=
  match createAppService keepContext app sampleSubscription (Some groupOptions) with
  | Ok wizard => wizard
  | Throw _ => new_AzureWizard [] [] (base (mkPrompted
      (mkContext app None None "" "" JNull JNull None) None None None None None))
  end.

Definition sampleExecuted : PromptedContext :=
  match answeringPrompt sampleWizard with
  | Ok c => withBasicPlan c westus
  | Throw _ => mkPrompted (wizardContext sampleWizard) None None None None None
  end.

Lemma createAppService_execute_steps_witness :
  executeSteps sampleWizard =
    [ResourceGroupCreateStep; ResourceGroupCreateStep; AppServicePlanCreateStep;
     SiteCreateStep None].
Proof.
  exact (createAppService_execute_steps keepContext app sampleSubscription
           (Some groupOptions) sampleWizard eq_refl).
Defined.

Lemma executed_context_witness :
  newSiteName sampleExecuted <> None /\
  newPlanSku sampleExecuted = Some basicPlanSku /\
  newPlanName sampleExecuted = Some "appsvc_asp_linux_westus"%string /\
  newResourceGroupName (base sampleExecuted) = Some "appsvc_rg_linux_westus"%string.
Proof.
  assert (Hin : In (Execute sampleExecuted) (snd sampleRun)).
  { vm_compute. do 3 right. left. reflexivity. }
  destruct (executed_context keepContext answeringPrompt creatingExecute JString
              progressTitle app sampleSubscription (Some groupOptions) true
              sampleExecuted Hin) as [Hname Hplan].
  split; [exact (Hname eq_refl)|].
  destruct (Hplan eq_refl eq_refl) as (l & Hl & Hsku & Hplanname & Hgroup).
  injection Hl as <-.
  repeat split; assumption.
Defined.

Lemma site_comes_from_execute_witness :
  fst sampleRun = Ok (JString "mysite") /\
  exists wizard c c',
    createAppService keepContext app sampleSubscription (Some groupOptions) = Ok wizard /\
    In (Execute c) (snd sampleRun) /\
    creatingExecute wizard c = Ok c' /\
    site c' = Some (JString "mysite").
Proof.
  split; [reflexivity|].
  exact (site_comes_from_execute keepContext answeringPrompt creatingExecute JString
           progressTitle app sampleSubscription (Some groupOptions) true
           (JString "mysite") eq_refl).
Defined.

End CreateAppService.

(** ** Connecting a site to a GitHub repository: connectToGitHub.ts *)

Module ConnectToGitHub.

(** The double quote, as a one-character string. *)
Definition dq : string := String "034"%char EmptyString.

(** [source[name]] for a source of an object type: an own property, or
    [undefined]. *)
Fixpoint lookup_prop (name : string) (props : list (string * any)) : any :=
  match props with
  | [] => JUndefined
  | (k, v) :: rest => if String.eqb k name then v else lookup_prop name rest
  end.

Definition prop (source : any) (name : string) : any :=
  match source with
  | JObject props => lookup_prop name props
  | _ => JUndefined
  end.

(** [array.concat(value)]: the items of an array are appended one by one,
    any other value is appended as one item. *)
Definition concat (array : list any) (value : any) : list any :=
  match value with
  | JArray items => array ++ items
  | _ => array ++ [value]
  end.

(** [for (const json of value)]: the items of an array, the characters of
    a string; any other value is not iterable. *)
Definition for_of (value : any) : result (list any) :=
  match value with
  | JArray items => Ok items
  | JString s => Ok (map (fun c => JString (String c EmptyString)) (list_ascii_of_string s))
  | _ => Throw (new_Error "object is not iterable")
  end.

(** *** The objects the function works on *)

Definition gitHubLink : Type := gmap string string.

(** [gitHubWebResource]: the one request object that every call shares. *)
Record gitHubWebResource : Type := mkWebResource {
  resolveWithFullResponse : option bool;
  headers : list (string * string);
  url : any;
  nextLink : option string
}.

Definition set_url (u : any) (r : gitHubWebResource) : gitHubWebResource :=
  {| resolveWithFullResponse := resolveWithFullResponse r;
     headers := headers r;
     url := u;
     nextLink := nextLink r |}.

Definition set_nextLink (n : option string) (r : gitHubWebResource) : gitHubWebResource :=
  {| resolveWithFullResponse := resolveWithFullResponse r;
     headers := headers r;
     url := url r;
     nextLink := n |}.

Record IActionContext : Type := mkActionContext {
  suppressErrorDisplay : option bool;
  properties : gmap string string
}.

Definition set_suppressErrorDisplay (b : bool) (c : IActionContext) : IActionContext :=
  {| suppressErrorDisplay := Some b; properties := properties c |}.

Definition set_property (key value : string) (c : IActionContext) : IActionContext :=
  {| suppressErrorDisplay := suppressErrorDisplay c;
     properties := <[key := value]> (properties c) |}.

Record IParsedError : Type := mkParsedError {
  errorType : string;
  message : string
}.

Record IAzureQuickPickItem : Type := mkPick {
  label : any;
  description : string;
  data : any;
  suppressPersistence : option bool
}.

Record SiteSourceControl : Type := mkSiteSourceControl {
  repoUrl : any;
  branch : any;
  isManualIntegration : bool;
  deploymentRollbackEnabled : bool;
  isMercurial : bool
}.

(** An entry of [client.listSourceControls()]. *)
Record SourceControl : Type := mkSourceControl {
  token : option string
}.

(** The full response of [request]: the [link] header and the body. *)
Record Response : Type := mkResponse {
  headers_link : option string;
  body : string
}.

(** The buttons of the error message; [None] is a dismissed dialog. *)
Inductive MessageItem : Type := goToPortal | learnMore.

(** What the user does with a quick pick: takes the item at an index, or
    makes the call throw (a cancellation). *)
Inductive Choice : Type :=
| Take (index : nat)
| Cancel.

(** *** The outside *)

(** What the function does to the outside, in order. *)
Inductive Event : Type :=
| ListSourceControls
| SignRequest (token : string)
| Request (url : any)
| ShowErrorMessage (message : string)
| OpenUrl (url : string)
| OpenInPortal (id : string)
| ShowQuickPick (picks : list IAzureQuickPickItem) (placeHolder : string)
| WithProgress (title : string)
| AppendLine (line : string)
| VerifyNoRunFromPackageSetting
| UpdateSourceControl (siteSourceControl : SiteSourceControl)
| ShowInformationMessage (message : string)
| SyncRepository.

(** [SiteClient]: its two names, and what its calls answer. *)
Record SiteClient : Type := mkSiteClient {
  id : string;
  fullName : string;
  listSourceControls : result (list SourceControl);
  verifyNoRunFromPackageSetting : result unit;
  updateSourceControl : SiteSourceControl -> result unit;
  syncRepository : result unit
}.

(** The answers still to come: of the server to the next requests, of the
    user to the next dialogs and quick picks, and of the clock ([now n] is
    what the [n]-th reading of [Date.now()] gives). A request made when
    [responses] is empty fails with [noResponse]. *)
Record World : Type := mkWorld {
  responses : list (result Response);
  answers : list (option MessageItem);
  choices : list Choice;
  now : nat -> Z;
  clockReads : nat
}.

Record State : Type := mkState {
  requestOptions : gitHubWebResource;
  context : IActionContext;
  picksCache : list IAzureQuickPickItem;
  world : World;
  trace : list Event
}.

Definition on_requestOptions (f : gitHubWebResource -> gitHubWebResource) (s : State)
    : State :=
  {| requestOptions := f (requestOptions s);
     context := context s;
     picksCache := picksCache s;
     world := world s;
     trace := trace s |}.

Definition on_context (f : IActionContext -> IActionContext) (s : State) : State :=
  {| requestOptions := requestOptions s;
     context := f (context s);
     picksCache := picksCache s;
     world := world s;
     trace := trace s |}.

Definition set_picksCache (picks : list IAzureQuickPickItem) (s : State) : State :=
  {| requestOptions := requestOptions s;
     context := context s;
     picksCache := picks;
     world := world s;
     trace := trace s |}.

Definition on_world (f : World -> World) (s : State) : State :=
  {| requestOptions := requestOptions s;
     context := context s;
     picksCache := picksCache s;
     world := f (world s);
     trace := trace s |}.

(** Appends an event to the trace. *)
Definition emit (e : Event) (s : State) : State :=
  {| requestOptions := requestOptions s;
     context := context s;
     picksCache := picksCache s;
     world := world s;
     trace := trace s ++ [e] |}.

Definition pop_response (w : World) : World :=
  {| responses := tail (responses w);
     answers := answers w;
     choices := choices w;
     now := now w;
     clockReads := clockReads w |}.

Definition set_answers (a : list (option MessageItem)) (w : World) : World :=
  {| responses := responses w;
     answers := a;
     choices := choices w;
     now := now w;
     clockReads := clockReads w |}.

Definition pop_choice (w : World) : World :=
  {| responses := responses w;
     answers := answers w;
     choices := tail (choices w);
     now := now w;
     clockReads := clockReads w |}.

Definition tick (w : World) : World :=
  {| responses := responses w;
     answers := answers w;
     choices := choices w;
     now := now w;
     clockReads := S (clockReads w) |}.

Section Flow.

(** What the file imports and the language provides, taken as given:
    [parseError] and [appendExtensionUserAgent] of the UI package,
    [signRequest], [JSON.parse], the string conversion of template
    literals, [Array.prototype.sort] with the [localeCompare] comparator,
    and the values thrown by [nonNullProp], by a request that gets no
    response and by a cancelled quick pick. *)
Variable client : SiteClient.
Variable parseError : any -> IParsedError.
Variable JSON_parse : string -> result any.
Variable ToString : any -> string.
Variable sortByLabel : list IAzureQuickPickItem -> list IAzureQuickPickItem.
Variable appendExtensionUserAgent : string.
Variable signRequest : gitHubWebResource -> string -> result gitHubWebResource.
Variable nonNullError : string -> any.
Variable noResponse : any.
Variable userCancelled : any.

(** Modelled from the spec: utils/nonNull.ts is not among the sources. By
    its name and its uses, [nonNullProp(source, name)] returns the property
    when it is neither null nor undefined and throws otherwise; what it
    throws for a property is [nonNullError]. *)
Definition nonNullProp (source : any) (name : string) : result any :=
  match prop source name with
  | JUndefined | JNull => Throw (nonNullError name)
  | value => Ok value
  end.

(** *** Calls to the outside *)

(** [await request(requestOptions).promise()]. *)
Definition request : M State Response :=
  fun s =>
    let s1 := on_world pop_response (emit (Request (url (requestOptions s))) s) in
    match responses (world s) with
    | [] => (Throw noResponse, s1)
    | outcome :: _ => (outcome, s1)
    end.

(** [Date.now()]. *)
Definition Date_now : M State Z :=
  fun s => (Ok (now (world s) (clockReads (world s))), on_world tick s).

(** [await ext.ui.showQuickPick(picks, { placeHolder })]. *)
Definition showQuickPick (picks : list IAzureQuickPickItem) (placeHolder : string)
    : M State IAzureQuickPickItem :=
  fun s =>
    let s1 := on_world pop_choice (emit (ShowQuickPick picks placeHolder) s) in
    match choices (world s) with
    | Take index :: _ =>
        match picks !! index with
        | Some pick => (Ok pick, s1)
        | None => (Throw userCancelled, s1)
        end
    | Cancel :: _ | [] => (Throw userCancelled, s1)
    end.

(** A call of the client: recorded, then answered. *)
Definition call {A : Type} (e : Event) (outcome : result A) : M State A :=
  fun s => (outcome, emit e s).

(** A call to the editor's window or output channel, or the opening of a
    page ([openUrl], [node.openInPortal]): recorded, and taken to return. *)
Definition show (e : Event) : M State unit := modify (emit e).

(** *** showGitHubAuthPrompt *)

Definition invalidToken : string :=
  localize "tokenExpired"
    ("Azure's GitHub token is invalid.  Authorize in the " +:+ dq +:+
     "Deployment Center" +:+ dq).

(** The [while] loop: the error message is shown again for as long as the
    user answers Learn More. The recursion is on the user's answers still
    to come, of which each showing takes one; with none left the dialog
    is dismissed. *)
Fixpoint askWhileLearnMore (answers : list (option MessageItem)) (s : State)
    : option MessageItem * State :=
  match answers with
  | [] => (None, emit (ShowErrorMessage invalidToken) (on_world (set_answers []) s))
  | input :: rest =>
      let s := emit (ShowErrorMessage invalidToken) (on_world (set_answers rest) s) in
      match input with
      | Some learnMore =>
          let s := on_context (set_property "githubLearnMore" "true") s in
          let s := emit (OpenUrl "https://aka.ms/B7g6sw") s in
          askWhileLearnMore rest s
      | _ => (input, s)
      end
  end.

Definition showGitHubAuthPrompt : M State unit :=
  fun s =>
    let '(input, s) := askWhileLearnMore (answers (world s)) s in
    match input with
    | Some goToPortal =>
        let s := on_context (set_property "githubGoToPortal" "true") s in
        (Ok tt, emit (OpenInPortal (id client +:+ "/vstscd")) s)
    | _ => (Ok tt, s)
    end.

(** *** parseLinkHeaderToGitHubLinkObject *)

Definition relative : string := "rel=".

Definition linkName (url : string) : string :=
  JsString.substring url
    (JsString.indexOf url relative + Z.of_nat (String.length relative) + 1)
    (Z.of_nat (String.length url) - 1).

Definition linkTarget (url : string) : string :=
  JsString.substring url (JsString.indexOf url "<" + 1) (JsString.indexOf url ">").

Definition parseLinkHeaderToGitHubLinkObject (linkHeader : string) : gitHubLink :=
  let linkUrls := JsString.split linkHeader ", " in
  foldl (fun (linkMap : gitHubLink) url => <[linkName url := linkTarget url]> linkMap)
        ∅ linkUrls.

(** *** getJsonRequest *)

Definition getJsonRequest : M State any :=
  try_catch
    (gitHubResponse ← request;
     _ ← (if truthy_str (headers_link gitHubResponse)
          then
            let headerLink := default ""%string (headers_link gitHubResponse) in
            let linkObject := parseLinkHeaderToGitHubLinkObject headerLink in
            modify (on_requestOptions (set_nextLink (linkObject !! "next"%string)))
          else mret tt);
     settle (JSON_parse (body gitHubResponse)))
    (fun error =>
       let parsedError := parseError error in
       _ ← (if JsString.indexOf (message parsedError) "Bad credentials" >? -1
            then
              _ ← showGitHubAuthPrompt;
              modify (on_context (set_suppressErrorDisplay true))
            else mret tt);
       throw error).

(** *** createQuickPickFromJsons *)

(** One turn of the [for] loop, on the parameter [description] and the
    array [quickPicks]. *)
Definition addQuickPick (label : string)
    (st : option string * list IAzureQuickPickItem) (json : any)
    : option string * list IAzureQuickPickItem :=
  let '(description, quickPicks) := st in
  if negb (truthy (prop json label))
  then st
  else
    let description :=
      if truthy_str description &&
         negb (truthy (prop json (default ""%string description)))
      then None
      else description in
    (description,
     quickPicks ++
     [{| label := prop json label;
         description := if truthy_str description
                        then ToString (prop json (default ""%string description))
                        else ""%string;
         data := json;
         suppressPersistence := None |}]).

Definition createQuickPickFromJsons (jsons : list any) (label : string)
    (description : option string) : list IAzureQuickPickItem :=
  snd (fold_left (addQuickPick label) jsons (description, [])).

(** *** getGitHubReposQuickPicks *)

(** The [do ... while] loop. Every turn makes one request and so takes one
    of the responses still to come; [fuel] is their number when the loop is
    entered, and is never used up (see [reposLoop_fuel]). *)
Fixpoint reposLoop (fuel : nat) (startTime timeoutMs : Z) (gitHubRepos : list any)
    : M State (list any) :=
  page ← getJsonRequest;
  let gitHubRepos := concat gitHubRepos page in
  s ← get;
  _ ← (if truthy_str (nextLink (requestOptions s))
       then modify (on_requestOptions
                      (set_url (JString (default ""%string (nextLink (requestOptions s))))))
       else mret tt);
  if truthy_str (nextLink (requestOptions s))
  then
    t ← Date_now;
    if startTime + timeoutMs >? t
    then match fuel with
         | S fuel' => reposLoop fuel' startTime timeoutMs gitHubRepos
         | O => mret gitHubRepos
         end
    else mret gitHubRepos
  else mret gitHubRepos.

Definition loadMore : IAzureQuickPickItem :=
  {| label := JString "$(sync) Load More";
     description := "";
     data := JUndefined;
     suppressPersistence := Some true |}.

Definition getGitHubReposQuickPicks (timeoutSeconds : Z)
    : M State (list IAzureQuickPickItem) :=
  let timeoutMs := timeoutSeconds * 1000 in
  startTime ← Date_now;
  s ← get;
  gitHubRepos ← reposLoop (length (responses (world s))) startTime timeoutMs [];
  s ← get;
  _ ← modify (set_picksCache
                (sortByLabel (picksCache s ++ createQuickPickFromJsons gitHubRepos "name" None)));
  s ← get;
  if truthy_str (nextLink (requestOptions s))
  then mret ([loadMore] ++ picksCache s)
  else mret (picksCache s).

(** *** connectToGitHub *)

Definition noToken : string := localize "noToken" "No oAuth2 Token.".

(** [(await client.listSourceControls())[0].token]; reading a property of
    the undefined first item of an empty array is a TypeError. *)
Definition firstToken (sourceControls : list SourceControl) : result (option string) :=
  match sourceControls with
  | [] => Throw (new_Error "Cannot read property 'token' of undefined")
  | sourceControl :: _ => Ok (token sourceControl)
  end.

(** The [do ... while (!repoQuickPick)] loop; every turn makes at least one
    request, and [fuel] is the number of responses still to come when the
    loop is entered. *)
Fixpoint chooseRepository (fuel : nat) : M State any :=
  picks ← getGitHubReposQuickPicks 10;
  pick ← showQuickPick picks "Choose repository.";
  let repoQuickPick := data pick in
  if negb (truthy repoQuickPick)
  then match fuel with
       | S fuel' => chooseRepository fuel'
       | O => mret repoQuickPick
       end
  else mret repoQuickPick.

Definition connectingToGithub (repoName : string) : string :=
  dq +:+ fullName client +:+ dq +:+ " is being connected to repo " +:+
  dq +:+ repoName +:+ dq +:+ ". This may take several minutes...".

Definition connectedToGithub (repoName : string) : string :=
  "Repo " +:+ dq +:+ repoName +:+ dq +:+ " is connected and deployed to " +:+
  dq +:+ fullName client +:+ dq +:+ ".".

Definition statusCode200 : string := dq +:+ "statusCode" +:+ dq +:+ ":200".

(** The [try] statement that ends [connectToGitHub]. *)
Definition updateAndSync (siteSourceControl : SiteSourceControl) (repoName : string)
    : M State unit :=
  try_catch
    (_ ← show (WithProgress (connectingToGithub repoName));
     _ ← show (AppendLine (connectingToGithub repoName));
     _ ← call VerifyNoRunFromPackageSetting (verifyNoRunFromPackageSetting client);
     _ ← call (UpdateSourceControl siteSourceControl)
              (updateSourceControl client siteSourceControl);
     _ ← show (ShowInformationMessage (connectedToGithub repoName));
     show (AppendLine (connectedToGithub repoName)))
    (fun err =>
       try_catch
         (call SyncRepository (syncRepository client))
         (fun error =>
            let parsedError := parseError error in
            if JsString.indexOf (message parsedError) statusCode200 =? -1
            then throw error
            else mret tt)).

Definition connectToGitHub : M State unit :=
  _ ← modify (on_requestOptions (fun _ =>
         {| resolveWithFullResponse := Some true;
            headers := [("User-Agent"%string, appendExtensionUserAgent)];
            url := JUndefined;
            nextLink := None |}));
  sourceControls ← call ListSourceControls (listSourceControls client);
  oAuth2Token ← settle (firstToken sourceControls);
  if negb (truthy_str oAuth2Token)
  then
    _ ← showGitHubAuthPrompt;
    _ ← modify (on_context (set_suppressErrorDisplay true));
    throw (new_Error noToken)
  else
    let oAuth2Token := default ""%string oAuth2Token in
    s ← get;
    signed ← call (SignRequest oAuth2Token) (signRequest (requestOptions s) oAuth2Token);
    _ ← modify (on_requestOptions (fun _ => signed));
    _ ← modify (on_requestOptions (set_url (JString "https://api.github.com/user")));
    gitHubUser ← getJsonRequest;
    _ ← modify (on_requestOptions (set_url (JString "https://api.github.com/user/orgs")));
    gitHubOrgs ← getJsonRequest;
    orgs ← settle (for_of gitHubOrgs);
    let orgQuickPicks :=
      createQuickPickFromJsons [gitHubUser] "login" None ++
      createQuickPickFromJsons orgs "login" None in
    orgPick ← showQuickPick orgQuickPicks "Choose your organization.";
    let orgQuickPick := data orgPick in
    repos_url ← settle (nonNullProp orgQuickPick "repos_url");
    _ ← modify (on_requestOptions (set_url repos_url));
    _ ← modify (set_picksCache []);
    s ← get;
    repoQuickPick ← chooseRepository (length (responses (world s)));
    _ ← modify (on_requestOptions
                  (set_url (JString (ToString (prop repoQuickPick "url") +:+ "/branches"))));
    gitHubBranches ← getJsonRequest;
    branches ← settle (for_of gitHubBranches);
    let branchQuickPicks := createQuickPickFromJsons branches "name" None in
    branchPick ← showQuickPick branchQuickPicks "Choose branch.";
    let branchQuickPick := data branchPick in
    let siteSourceControl :=
      {| repoUrl := prop repoQuickPick "html_url";
         branch := prop branchQuickPick "name";
         isManualIntegration := false;
         deploymentRollbackEnabled := true;
         isMercurial := false |} in
    let repoName :=
      ToString (prop orgQuickPick "login") +:+ "/" +:+
      ToString (prop repoQuickPick "name") in
    updateAndSync siteSourceControl repoName.

(** *** Facts about createQuickPickFromJsons *)

(** The picks made from [jsons] when the loop is entered with the
    parameter [description]. *)
Definition picksFrom (label : string) (description : option string) (jsons : list any)
    : list IAzureQuickPickItem :=
  snd (fold_left (addQuickPick label) jsons (description, [])).

(** The parameter [description] after the loop has run over [jsons]. *)
Definition descriptionAfter (label : string) (description : option string)
    (jsons : list any) : option string :=
  fst (fold_left (addQuickPick label) jsons (description, [])).

Lemma fold_addQuickPick_acc (label : string) (jsons : list any)
    (description : option string) (quickPicks : list IAzureQuickPickItem) :
  fold_left (addQuickPick label) jsons (description, quickPicks) =
  (descriptionAfter label description jsons,
   quickPicks ++ picksFrom label description jsons).
Proof.
  unfold descriptionAfter, picksFrom.
  revert description quickPicks.
  induction jsons as [|json jsons IH]; intros description quickPicks.
  - cbn. now rewrite app_nil_r.
  - cbn [fold_left]. unfold addQuickPick at 2 4 6.
    destruct (negb (truthy (prop json label))).
    + apply IH.
    + rewrite IH. symmetry. rewrite IH. cbn [fst snd app].
      now rewrite <- app_assoc.
Qed.

Lemma picksFrom_app (label : string) (description : option string)
    (pre post : list any) :
  picksFrom label description (pre ++ post) =
  picksFrom label description pre ++
  picksFrom label (descriptionAfter label description pre) post.
Proof.
  unfold picksFrom at 1. rewrite fold_left_app, (fold_addQuickPick_acc label pre).
  now rewrite fold_addQuickPick_acc.
Qed.

Lemma picksFrom_cons (label : string) (description : option string)
    (json : any) (jsons : list any) :
  picksFrom label description (json :: jsons) =
  snd (addQuickPick label (description, []) json) ++
  picksFrom label (fst (addQuickPick label (description, []) json)) jsons.
Proof.
  unfold picksFrom at 1. cbn [fold_left].
  destruct (addQuickPick label (description, []) json) as [d picks] eqn:Hadd.
  now rewrite fold_addQuickPick_acc.
Qed.

(** Once the parameter is cleared it stays cleared. *)
Lemma descriptionAfter_None (label : string) (jsons : list any) :
  descriptionAfter label None jsons = None.
Proof.
  unfold descriptionAfter. generalize (@nil IAzureQuickPickItem).
  induction jsons as [|json jsons IH]; intros quickPicks; [reflexivity|].
  cbn [fold_left]. unfold addQuickPick at 2.
  destruct (negb (truthy (prop json label))); apply IH.
Qed.

Lemma picksFrom_None_blank (label : string) (jsons : list any)
    (pick : IAzureQuickPickItem) :
  In pick (picksFrom label None jsons) -> description pick = ""%string.
Proof.
  induction jsons as [|json jsons IH]; [intros []|].
  rewrite picksFrom_cons. unfold addQuickPick.
  destruct (negb (truthy (prop json label))); cbn [fst snd app].
  - exact IH.
  - cbn. intros [<-|Hin]; [reflexivity|]. now apply IH.
Qed.

(** An empty [description] is as good as none. *)
Lemma picksFrom_empty_description (label : string) (jsons : list any) :
  picksFrom label (Some ""%string) jsons = picksFrom label None jsons.
Proof.
  induction jsons as [|json jsons IH]; [reflexivity|].
  rewrite !picksFrom_cons. unfold addQuickPick.
  change (truthy_str (Some ""%string)) with false.
  change (truthy_str None) with false.
  destruct (negb (truthy (prop json label))); cbn [fst snd app andb];
    now rewrite IH.
Qed.

Lemma picksFrom_data (label : string) (jsons : list any) (description : option string) :
  map data (picksFrom label description jsons) =
  List.filter (fun json => truthy (prop json label)) jsons.
Proof.
  revert description. induction jsons as [|json jsons IH]; intros description;
    [reflexivity|].
  rewrite picksFrom_cons. unfold addQuickPick. cbn [List.filter].
  destruct (truthy (prop json label)); cbn [negb fst snd app map].
  - cbn. f_equal. apply IH.
  - apply IH.
Qed.

Lemma picksFrom_label (label : string) (jsons : list any) (description : option string)
    (pick : IAzureQuickPickItem) :
  In pick (picksFrom label description jsons) ->
  ConnectToGitHub.label pick = prop (data pick) label /\
  truthy (ConnectToGitHub.label pick) = true /\
  In (data pick) jsons.
Proof.
  revert description. induction jsons as [|json jsons IH]; intros description;
    [intros []|].
  rewrite picksFrom_cons. unfold addQuickPick.
  destruct (truthy (prop json label)) eqn:Hlabel; cbn [negb fst snd app].
  - intros [<-|Hin]; cbn.
    + auto.
    + destruct (IH _ Hin) as (? & ? & ?). auto.
  - intros Hin. destruct (IH _ Hin) as (? & ? & ?). cbn. auto.
Qed.

(** The claim on descriptions as the specification words it: when some
    object of [jsons] lacks the property [description], every pick made
    from the objects after it has a blank description. The picks made
    from the objects after [pre ++ [json]] are those that follow the
    picks of [pre ++ [json]]. *)
Definition blank_after_missing (jsons : list any) (label description : string) : Prop :=
  forall pre json post,
    jsons = pre ++ json :: post ->
    prop json description = JUndefined ->
    forall pick,
      In pick (drop (length (createQuickPickFromJsons (pre ++ [json]) label
                               (Some description)))
                    (createQuickPickFromJsons jsons label (Some description))) ->
      ConnectToGitHub.description pick = ""%string.

(** C8, as amended. The picks are made, in order, from exactly the objects
    with a truthy value at [label], one pick each, labelled with that
    value; so there are at most as many picks as objects. When an object
    that is not skipped has no truthy value at [description], the parameter
    is cleared: the pick of that object and all the picks after it are
    those of a call without [description], and have a blank description. *)
Theorem createQuickPickFromJsons_picks (jsons : list any) (label : string)
    (description : option string) :
  map data (createQuickPickFromJsons jsons label description) =
    List.filter (fun json => truthy (prop json label)) jsons /\
  (length (createQuickPickFromJsons jsons label description) <= length jsons)%nat /\
  (forall pick, In pick (createQuickPickFromJsons jsons label description) ->
     ConnectToGitHub.label pick = prop (data pick) label) /\
  (forall pre json post d,
     jsons = pre ++ json :: post ->
     description = Some d ->
     truthy (prop json label) = true ->
     truthy (prop json d) = false ->
     createQuickPickFromJsons jsons label description =
       createQuickPickFromJsons pre label description ++
       createQuickPickFromJsons (json :: post) label None /\
     forall pick, In pick (createQuickPickFromJsons (json :: post) label None) ->
       ConnectToGitHub.description pick = ""%string).
Proof.
  change (createQuickPickFromJsons jsons label description)
    with (picksFrom label description jsons).
  split; [apply picksFrom_data|]. split.
  - rewrite <- (length_map data), picksFrom_data. apply List.filter_length_le.
  - split.
    + intros pick Hin. now apply picksFrom_label in Hin.
    + intros pre json post d -> -> Hlabel Hmissing.
      change (createQuickPickFromJsons pre label (Some d))
        with (picksFrom label (Some d) pre).
      change (createQuickPickFromJsons (json :: post) label None)
        with (picksFrom label None (json :: post)).
      split; [|apply picksFrom_None_blank].
      rewrite picksFrom_app. f_equal.
      destruct (descriptionAfter label (Some d) pre) as [d'|] eqn:Hafter;
        [|reflexivity].
      assert (d' = d) as ->.
      { clear -Hafter. unfold descriptionAfter in Hafter.
        revert Hafter. generalize (@nil IAzureQuickPickItem).
        assert (Hgen : forall (o : option string) l,
                  fst (fold_left (addQuickPick label) pre (o, l)) = Some d' ->
                  o = Some d').
        { induction pre as [|x pre IH]; intros o l; [cbn; auto|].
          cbn [fold_left]. unfold addQuickPick at 2.
          destruct (negb (truthy (prop x label))); [apply IH|].
          intros H. apply IH in H.
          destruct (truthy_str o && negb (truthy (prop x (default ""%string o))));
            [discriminate|assumption]. }
        intros l H. apply Hgen in H. congruence. }
      rewrite !picksFrom_cons. unfold addQuickPick. rewrite Hlabel. cbn [negb].
      change (default ""%string (Some d)) with d. rewrite Hmissing. cbn [negb].
      destruct (truthy_str (Some d)) eqn:Hd; cbn [andb fst snd truthy_str];
        [reflexivity|].
      cbn in Hd. apply negb_false_iff, String.eqb_eq in Hd. subst d.
      now rewrite picksFrom_empty_description.
Qed.

(** *** Facts about the re-authorization prompt *)

(** The events of the prompt: the error message, and the pages it opens. *)
Definition isPromptEvent (e : Event) : bool :=
  match e with
  | ShowErrorMessage _ | OpenUrl _ | OpenInPortal _ => true
  | _ => false
  end.

(** [s'] is [s] after the prompt was shown: the error message was put up at
    least once, nothing but prompt events was added to the trace, and the
    request object, the cache, the responses to come, the quick pick
    choices to come, the clock and [suppressErrorDisplay] are as before. *)
Definition prompted (s s' : State) : Prop :=
  requestOptions s' = requestOptions s /\
  picksCache s' = picksCache s /\
  suppressErrorDisplay (context s') = suppressErrorDisplay (context s) /\
  responses (world s') = responses (world s) /\
  choices (world s') = choices (world s) /\
  clockReads (world s') = clockReads (world s) /\
  now (world s') = now (world s) /\
  exists events,
    trace s' = trace s ++ ShowErrorMessage invalidToken :: events /\
    forallb isPromptEvent events = true.

Lemma askWhileLearnMore_prompted (answers : list (option MessageItem)) (s : State) :
  prompted s (snd (askWhileLearnMore answers s)).
Proof.
  revert s. induction answers as [|input rest IH]; intros s.
  - cbn. repeat split. exists []. split; reflexivity.
  - cbn [askWhileLearnMore].
    destruct input as [[|]|].
    + cbn. repeat split. exists []. split; reflexivity.
    + match goal with |- prompted _ (snd (askWhileLearnMore rest ?s1)) =>
        destruct (IH s1) as (Hr & Hp & Hs & Hres & Hch & Hck & Hnow & events & Ht & Hev)
      end.
      repeat split; try assumption.
      exists (OpenUrl "https://aka.ms/B7g6sw" :: ShowErrorMessage invalidToken :: events).
      split; [|cbn; exact Hev].
      rewrite Ht. cbn. rewrite <- !app_assoc. reflexivity.
    + cbn. repeat split. exists []. split; reflexivity.
Qed.

(** The prompt always returns. *)
Lemma showGitHubAuthPrompt_prompted (s : State) :
  fst (showGitHubAuthPrompt s) = Ok tt /\
  prompted s (snd (showGitHubAuthPrompt s)).
Proof.
  unfold showGitHubAuthPrompt.
  pose proof (askWhileLearnMore_prompted (answers (world s)) s) as Hask.
  destruct (askWhileLearnMore (answers (world s)) s) as [input s1]. cbn [snd] in Hask.
  destruct input as [[|]|]; cbn [fst snd]; split; try reflexivity; try exact Hask.
  destruct Hask as (Hr & Hp & Hs & Hres & Hch & Hck & Hnow & events & Ht & Hev).
  repeat split; try assumption.
  exists (events ++ [OpenInPortal (id client +:+ "/vstscd")]). split.
  - cbn. rewrite Ht, <- app_assoc. reflexivity.
  - rewrite forallb_app, Hev. reflexivity.
Qed.

(** *** Facts about getJsonRequest *)

(** What the next request will be answered. *)
Definition nextOutcome (s : State) : result Response :=
  match responses (world s) with
  | [] => Throw noResponse
  | outcome :: _ => outcome
  end.

(** The test of the [catch] block. *)
Definition badCredentials (error : any) : bool :=
  JsString.indexOf (message (parseError error)) "Bad credentials" >? -1.

(** The state once the request was made and answered. *)
Definition requested (s : State) : State :=
  on_world pop_response (emit (Request (url (requestOptions s))) s).

(** The [if (gitHubResponse.headers.link)] statement. *)
Definition storeNextLink (gitHubResponse : Response) (s : State) : State :=
  if truthy_str (headers_link gitHubResponse)
  then on_requestOptions
         (set_nextLink
            (parseLinkHeaderToGitHubLinkObject
               (default ""%string (headers_link gitHubResponse)) !! "next"%string)) s
  else s.

(** The state at the end of the [try] block, or at the [throw] inside it. *)
Definition answered (s : State) : State :=
  match nextOutcome s with
  | Ok gitHubResponse => storeNextLink gitHubResponse (requested s)
  | Throw _ => requested s
  end.

(** The [catch] block, up to its [throw]. *)
Definition caught (error : any) (s : State) : State :=
  if badCredentials error
  then on_context (set_suppressErrorDisplay true) (snd (showGitHubAuthPrompt s))
  else s.

Lemma getJsonRequest_spec (s : State) :
  getJsonRequest s =
  match nextOutcome s ≫= (fun gitHubResponse => JSON_parse (body gitHubResponse)) with
  | Ok value => (Ok value, answered s)
  | Throw error => (Throw error, caught error (answered s))
  end.
Proof.
  assert (Hcatch : forall error s1,
    (_ ← (if JsString.indexOf (message (parseError error)) "Bad credentials" >? -1
          then _ ← showGitHubAuthPrompt;
               modify (on_context (set_suppressErrorDisplay true))
          else mret tt);
     throw error : M State any) s1 = (Throw error, caught error s1)).
  { intros error s1. unfold caught, badCredentials, mbind, M_bind.
    destruct (JsString.indexOf (message (parseError error)) "Bad credentials" >? -1).
    - destruct (showGitHubAuthPrompt_prompted s1) as [Hok _].
      destruct (showGitHubAuthPrompt s1) as [r s2]. cbn in Hok. subst r. reflexivity.
    - reflexivity. }
  unfold getJsonRequest, try_catch, answered, nextOutcome.
  unfold mbind at 1 2, M_bind, request. fold (requested s).
  destruct (responses (world s)) as [|[gitHubResponse|error] rest].
  - apply Hcatch.
  - unfold storeNextLink, settle, mbind, result_bind.
    destruct (truthy_str (headers_link gitHubResponse)); cbn;
      destruct (JSON_parse (body gitHubResponse)); try reflexivity; apply Hcatch.
  - apply Hcatch.
Qed.

Lemma caught_prompted (error : any) (s : State) :
  badCredentials error = true ->
  suppressErrorDisplay (context (caught error s)) = Some true /\
  requestOptions (caught error s) = requestOptions s /\
  responses (world (caught error s)) = responses (world s) /\
  exists events,
    trace (caught error s) = trace s ++ ShowErrorMessage invalidToken :: events /\
    forallb isPromptEvent events = true.
Proof.
  intros Hbad. unfold caught. rewrite Hbad.
  destruct (showGitHubAuthPrompt_prompted s)
    as (_ & Hr & _ & _ & Hres & _ & _ & _ & events & Ht & Hev).
  cbn. repeat split; try assumption. eauto.
Qed.

(** The trace and the responses to come after the [catch] block. *)
Lemma caught_quiet (error : any) (s : State) :
  responses (world (caught error s)) = responses (world s) /\
  requestOptions (caught error s) = requestOptions s /\
  exists events,
    trace (caught error s) = trace s ++ events /\
    forallb isPromptEvent events = true.
Proof.
  destruct (badCredentials error) eqn:Hbad.
  - destruct (caught_prompted error s Hbad) as (_ & Hr & Hres & events & Ht & Hev).
    repeat split; try assumption.
    exists (ShowErrorMessage invalidToken :: events). split; assumption.
  - unfold caught. rewrite Hbad. repeat split. exists []. split; [|reflexivity].
    now rewrite app_nil_r.
Qed.

Lemma answered_trace (s : State) :
  trace (answered s) = trace s ++ [Request (url (requestOptions s))] /\
  responses (world (answered s)) = tail (responses (world s)).
Proof.
  unfold answered, storeNextLink.
  destruct (nextOutcome s) as [gitHubResponse|error]; [|split; reflexivity].
  destruct (truthy_str (headers_link gitHubResponse)); split; reflexivity.
Qed.

(** *** Facts about the Link header *)

(** One entry of a Link header, and a header of several. *)
Definition linkEntry (name target : string) : string :=
  "<" +:+ target +:+ ">; rel=" +:+ dq +:+ name +:+ dq.

Definition linkHeaderOf (links : list (string * string)) : string :=
  JsString.join ", " (map (fun link => linkEntry (fst link) (snd link)) links).

(** The entries that the parser reads back: the target has no [>], no
    [rel=] and no comma followed by a space, the name has no comma followed
    by a space. *)
Definition readable (link : string * string) : bool :=
  negb (JsString.includes (snd link) ">") &&
  negb (JsString.includes (snd link) "rel=") &&
  negb (JsString.includes (snd link) ", ") &&
  negb (JsString.includes (fst link) ", ").

Lemma includes_false (s search : string) :
  JsString.includes s search = false -> JsString.find search s = None.
Proof. unfold JsString.includes. now destruct (JsString.find search s). Qed.

Lemma readable_inv (name target : string) :
  readable (name, target) = true ->
  JsString.find ">" target = None /\
  JsString.find "rel=" target = None /\
  JsString.find ", " target = None /\
  JsString.find ", " name = None.
Proof.
  unfold readable. cbn [fst snd].
  intros [[[H1 H2]%andb_true_iff H3]%andb_true_iff H4]%andb_true_iff.
  repeat split; apply includes_false, negb_true_iff; assumption.
Qed.

(** An entry, character by character around its two parts. *)
Lemma linkEntry_chars (name target : string) :
  linkEntry name target =
  String "<" (target +:+
    String ">" (String ";" (String " " (String "r" (String "e" (String "l"
      (String "=" (String "034" (name +:+ String "034" EmptyString))))))))).
Proof. reflexivity. Qed.

Lemma linkEntry_parts (name target : string) :
  linkEntry name target =
  ("<" +:+ target +:+ ">; rel=" +:+ dq) +:+ name +:+ dq.
Proof.
  unfold linkEntry. now rewrite !JsString.append_assoc.
Qed.

Lemma indexOf_open (name target : string) :
  JsString.indexOf (linkEntry name target) "<" = 0.
Proof.
  rewrite linkEntry_chars. unfold JsString.indexOf. cbn [JsString.find String.prefix].
  destruct (ascii_dec "<" "<") as [_|Hne]; [|now destruct Hne].
  now rewrite JsString.prefix_empty.
Qed.

Lemma indexOf_close (name target : string) :
  JsString.find ">" target = None ->
  JsString.indexOf (linkEntry name target) ">" = Z.of_nat (1 + String.length target).
Proof.
  intros Hfind. rewrite linkEntry_chars. unfold JsString.indexOf.
  cbn [JsString.find String.prefix].
  destruct (ascii_dec ">" "<") as [Heq|_]; [discriminate Heq|].
  rewrite JsString.find_skip by now apply JsString.noStart_single.
  cbn [JsString.find String.prefix].
  destruct (ascii_dec ">" ">") as [_|Hne]; [|now destruct Hne].
  cbn. f_equal. lia.
Qed.

Lemma indexOf_relative (name target : string) :
  JsString.find "rel=" target = None ->
  JsString.indexOf (linkEntry name target) relative =
  Z.of_nat (String.length target + 4).
Proof.
  intros Hfind. rewrite linkEntry_chars. unfold JsString.indexOf, relative.
  cbn [JsString.find String.prefix].
  destruct (ascii_dec "r" "<") as [Heq|_]; [discriminate Heq|].
  rewrite JsString.find_skip by now apply JsString.noStart_barrier.
  assert (Hrest : forall rest,
    JsString.find "rel="
      (String ">" (String ";" (String " " (String "r" (String "e" (String "l"
         (String "=" rest))))))) = Some 3%nat).
  { intros rest. cbn [JsString.find String.prefix].
    destruct (ascii_dec "r" ">") as [Heq|_]; [discriminate Heq|].
    destruct (ascii_dec "r" ";") as [Heq|_]; [discriminate Heq|].
    destruct (ascii_dec "r" " ") as [Heq|_]; [discriminate Heq|].
    destruct (ascii_dec "r" "r") as [_|Hne]; [|now destruct Hne].
    destruct (ascii_dec "e" "e") as [_|Hne]; [|now destruct Hne].
    destruct (ascii_dec "l" "l") as [_|Hne]; [|now destruct Hne].
    destruct (ascii_dec "=" "=") as [_|Hne]; [|now destruct Hne].
    now rewrite JsString.prefix_empty. }
  rewrite Hrest. cbn [option_map]. f_equal. lia.
Qed.

Lemma linkTarget_entry (name target : string) :
  JsString.find ">" target = None ->
  linkTarget (linkEntry name target) = target.
Proof.
  intros Hfind. unfold linkTarget. rewrite indexOf_open, (indexOf_close _ _ Hfind).
  unfold linkEntry.
  change (0 + 1) with (Z.of_nat (String.length "<")).
  change (1 + String.length target)%nat
    with (String.length "<" + String.length target)%nat.
  apply JsString.substring_middle.
Qed.

Lemma linkName_entry (name target : string) :
  JsString.find "rel=" target = None ->
  linkName (linkEntry name target) = name.
Proof.
  intros Hfind. unfold linkName. rewrite (indexOf_relative _ _ Hfind).
  rewrite linkEntry_parts.
  set (before := "<" +:+ target +:+ ">; rel=" +:+ dq).
  assert (Hbefore : String.length before = (String.length target + 9)%nat).
  { subst before. rewrite !JsString.length_append. cbn. lia. }
  replace (Z.of_nat (String.length target + 4) + Z.of_nat (String.length relative) + 1)
    with (Z.of_nat (String.length before)) by (rewrite Hbefore; cbn; lia).
  replace (Z.of_nat (String.length (before +:+ name +:+ dq)) - 1)
    with (Z.of_nat (String.length before + String.length name))
    by (rewrite !JsString.length_append; cbn; lia).
  apply JsString.substring_middle.
Qed.

(** No comma followed by a space starts inside a readable entry, whatever
    comes after the entry. *)
Lemma linkEntry_noStart (name target rest : string) :
  JsString.find ", " target = None ->
  JsString.find ", " name = None ->
  JsString.noStart ", " (linkEntry name target) rest = true.
Proof.
  intros Htarget Hname. rewrite linkEntry_chars.
  cbn [JsString.noStart]. rewrite JsString.append_cons. cbn [String.prefix].
  destruct (ascii_dec "," "<") as [Heq|_]; [discriminate Heq|]. cbn [negb andb].
  rewrite JsString.noStart_app, JsString.append_cons.
  rewrite JsString.noStart_barrier by (assumption || reflexivity). cbn [andb].
  cbn [JsString.noStart]. rewrite !JsString.append_cons. cbn [String.prefix].
  destruct (ascii_dec "," ">") as [Heq|_]; [discriminate Heq|].
  destruct (ascii_dec "," ";") as [Heq|_]; [discriminate Heq|].
  destruct (ascii_dec "," " ") as [Heq|_]; [discriminate Heq|].
  destruct (ascii_dec "," "r") as [Heq|_]; [discriminate Heq|].
  destruct (ascii_dec "," "e") as [Heq|_]; [discriminate Heq|].
  destruct (ascii_dec "," "l") as [Heq|_]; [discriminate Heq|].
  destruct (ascii_dec "," "=") as [Heq|_]; [discriminate Heq|].
  destruct (ascii_dec "," "034") as [Heq|_]; [discriminate Heq|]. cbn [negb andb].
  rewrite JsString.noStart_app, JsString.append_cons.
  rewrite JsString.noStart_barrier by (assumption || reflexivity). cbn [andb].
  cbn [JsString.noStart]. rewrite JsString.append_cons. cbn [String.prefix].
  destruct (ascii_dec "," "034") as [Heq|_]; [discriminate Heq|]. reflexivity.
Qed.

Lemma split_go_separator (cur rest : string) :
  JsString.split_go ", " 0 cur (", " +:+ rest) =
  cur :: JsString.split_go ", " 0 EmptyString rest.
Proof.
  rewrite !JsString.append_cons, JsString.append_nil_l.
  cbn [JsString.split_go String.prefix].
  destruct (ascii_dec "," ",") as [_|Hne]; [|now destruct Hne].
  destruct (ascii_dec " " " ") as [_|Hne]; [|now destruct Hne].
  rewrite ?JsString.prefix_empty. reflexivity.
Qed.

Lemma split_go_linkHeader (links : list (string * string)) :
  links <> [] ->
  forallb readable links = true ->
  JsString.split_go ", " 0 EmptyString (linkHeaderOf links) =
  map (fun link => linkEntry (fst link) (snd link)) links.
Proof.
  unfold linkHeaderOf.
  induction links as [|[name target] links IH]; intros Hne Hall; [contradiction|].
  cbn [forallb] in Hall. apply andb_true_iff in Hall as [Hlink Hall].
  apply readable_inv in Hlink as (_ & _ & Htarget & Hname).
  destruct links as [|link links].
  - cbn [map JsString.join fst snd].
    rewrite <- (JsString.append_nil_r (linkEntry name target)) at 1.
    rewrite JsString.split_go_skip by now apply linkEntry_noStart.
    reflexivity.
  - cbn [map JsString.join fst snd] in *.
    rewrite JsString.split_go_skip by now apply linkEntry_noStart.
    rewrite split_go_separator, JsString.append_nil_l.
    f_equal. apply IH; [discriminate | assumption].
Qed.

(** The object built from entries that are read back. *)
Lemma fold_entries (links : list (string * string)) (linkMap : gitHubLink) :
  forallb readable links = true ->
  foldl (fun (linkMap : gitHubLink) url => <[linkName url := linkTarget url]> linkMap)
        linkMap (map (fun link => linkEntry (fst link) (snd link)) links) =
  foldl (fun (linkMap : gitHubLink) link => <[fst link := snd link]> linkMap)
        linkMap links.
Proof.
  revert linkMap. induction links as [|[name target] links IH]; intros linkMap Hall;
    [reflexivity|].
  cbn [forallb] in Hall. apply andb_true_iff in Hall as [Hlink Hall].
  apply readable_inv in Hlink as (Hclose & Hrel & _ & _).
  cbn [map foldl fst snd].
  rewrite (linkName_entry _ _ Hrel), (linkTarget_entry _ _ Hclose). now apply IH.
Qed.

Lemma fold_insert_other (links : list (string * string)) (linkMap : gitHubLink)
    (name : string) :
  name ∉ map fst links ->
  foldl (fun (linkMap : gitHubLink) link => <[fst link := snd link]> linkMap)
        linkMap links !! name = linkMap !! name.
Proof.
  revert linkMap. induction links as [|[n t] links IH]; intros linkMap Hnot;
    [reflexivity|].
  cbn [map fst foldl snd] in *. apply not_elem_of_cons in Hnot as [Hne Hnot].
  rewrite IH by assumption. now apply lookup_insert_ne.
Qed.

Lemma fold_insert_lookup (links : list (string * string)) (linkMap : gitHubLink)
    (name target : string) :
  NoDup (map fst links) ->
  (name, target) ∈ links ->
  foldl (fun (linkMap : gitHubLink) link => <[fst link := snd link]> linkMap)
        linkMap links !! name = Some target.
Proof.
  revert linkMap. induction links as [|[n t] links IH]; intros linkMap Hnodup Hin.
  - now apply elem_of_nil in Hin.
  - cbn [map fst] in Hnodup. apply NoDup_cons in Hnodup as [Hnot Hnodup].
    cbn [foldl fst snd]. apply elem_of_cons in Hin as [[= -> ->]|Hin].
    + rewrite fold_insert_other by assumption. apply lookup_insert_eq.
    + now apply IH.
Qed.

(** The parser on a header of readable entries with distinct names: every
    name is mapped to its target. *)
Lemma parseLinkHeader_readable (links : list (string * string)) (name target : string) :
  forallb readable links = true ->
  NoDup (map fst links) ->
  (name, target) ∈ links ->
  parseLinkHeaderToGitHubLinkObject (linkHeaderOf links) !! name = Some target.
Proof.
  intros Hall Hnodup Hin. unfold parseLinkHeaderToGitHubLinkObject, JsString.split.
  rewrite split_go_linkHeader; [|intros ->; now apply elem_of_nil in Hin|assumption].
  rewrite fold_entries by assumption. now apply fold_insert_lookup.
Qed.

(** *** Facts about the paging loop *)

(** The response parsed: what [getJsonRequest] returns for it. *)
Definition parsed (outcome : result Response) : result any :=
  outcome ≫= fun gitHubResponse => JSON_parse (body gitHubResponse).

(** [nextLink] after a response, given its value before: a response
    without a Link header leaves it as it was. *)
Definition linkAfter (link : option string) (gitHubResponse : Response) : option string :=
  if truthy_str (headers_link gitHubResponse)
  then parseLinkHeaderToGitHubLinkObject
         (default ""%string (headers_link gitHubResponse)) !! "next"%string
  else link.

Lemma answered_ok (s : State) (gitHubResponse : Response) :
  nextOutcome s = Ok gitHubResponse ->
  nextLink (requestOptions (answered s)) =
    linkAfter (nextLink (requestOptions s)) gitHubResponse /\
  url (requestOptions (answered s)) = url (requestOptions s) /\
  context (answered s) = context s /\
  picksCache (answered s) = picksCache s /\
  now (world (answered s)) = now (world s) /\
  clockReads (world (answered s)) = clockReads (world s) /\
  choices (world (answered s)) = choices (world s).
Proof.
  intros Hout. unfold answered, storeNextLink, linkAfter. rewrite Hout.
  destruct (truthy_str (headers_link gitHubResponse)); repeat split.
Qed.

(** One turn of the loop. *)
Lemma reposLoop_step (fuel : nat) (startTime timeoutMs : Z) (gitHubRepos : list any)
    (s : State) :
  reposLoop fuel startTime timeoutMs gitHubRepos s =
  match parsed (nextOutcome s) with
  | Throw error => (Throw error, caught error (answered s))
  | Ok page =>
      let s1 := answered s in
      if truthy_str (nextLink (requestOptions s1))
      then
        let s2 := on_world tick
                    (on_requestOptions
                       (set_url (JString (default ""%string
                                            (nextLink (requestOptions s1))))) s1) in
        if startTime + timeoutMs >? now (world s1) (clockReads (world s1))
        then match fuel with
             | S fuel' => reposLoop fuel' startTime timeoutMs (concat gitHubRepos page) s2
             | O => (Ok (concat gitHubRepos page), s2)
             end
        else (Ok (concat gitHubRepos page), s2)
      else (Ok (concat gitHubRepos page), s1)
  end.
Proof.
  unfold parsed.
  destruct fuel; cbn [reposLoop]; unfold mbind at 1, M_bind;
    rewrite getJsonRequest_spec;
    (destruct (nextOutcome s ≫= _) as [page|error]; [|reflexivity]);
    unfold mbind, M_bind, get, modify, Date_now, mret, M_ret; cbn [fst snd];
    (destruct (truthy_str (nextLink (requestOptions (answered s)))); [|reflexivity]);
    cbn [on_world on_requestOptions world requestOptions];
    destruct (startTime + timeoutMs >? _); reflexivity.
Qed.

(** Reading pages. [Paging startTime timeoutMs now reads link pages last]:
    with [nextLink] at [link] and the clock read [reads] times so far, the
    responses of [pages] (each with the value its body parses to) take the
    loop through [pages] and no further, leaving [nextLink] at [last]. The
    loop goes on to the next page when [nextLink] is set and the clock
    reads less than [startTime + timeoutMs]; it stops at a page that leaves
    [nextLink] unset, or at which time is up. *)
Inductive Paging (startTime timeoutMs : Z) (now : nat -> Z)
    : nat -> option string -> list (Response * any) -> option string -> Prop :=
| paging_end reads link gitHubResponse page :
    JSON_parse (body gitHubResponse) = Ok page ->
    truthy_str (linkAfter link gitHubResponse) = false ->
    Paging startTime timeoutMs now reads link [(gitHubResponse, page)]
           (linkAfter link gitHubResponse)
| paging_timeout reads link gitHubResponse page :
    JSON_parse (body gitHubResponse) = Ok page ->
    truthy_str (linkAfter link gitHubResponse) = true ->
    startTime + timeoutMs <= now reads ->
    Paging startTime timeoutMs now reads link [(gitHubResponse, page)]
           (linkAfter link gitHubResponse)
| paging_next reads link gitHubResponse page pages last :
    JSON_parse (body gitHubResponse) = Ok page ->
    truthy_str (linkAfter link gitHubResponse) = true ->
    now reads < startTime + timeoutMs ->
    Paging startTime timeoutMs now (S reads) (linkAfter link gitHubResponse) pages last ->
    Paging startTime timeoutMs now reads link ((gitHubResponse, page) :: pages) last.

(** The requests made for [pages]: the first to the address at hand, each
    further one to the link the page before it gave. *)
Fixpoint requestsFor (address : any) (link : option string)
    (pages : list (Response * any)) : list Event :=
  match pages with
  | [] => []
  | (gitHubResponse, _) :: pages' =>
      Request address ::
      requestsFor (JString (default ""%string (linkAfter link gitHubResponse)))
                  (linkAfter link gitHubResponse) pages'
  end.

(** All the items of [pages], after [gitHubRepos]. *)
Definition accumulate (gitHubRepos : list any) (pages : list (Response * any)) : list any :=
  fold_left concat (map snd pages) gitHubRepos.

Lemma reposLoop_paging (startTime timeoutMs : Z) (now0 : nat -> Z) (reads : nat)
    (link : option string) (pages : list (Response * any)) (last : option string) :
  Paging startTime timeoutMs now0 reads link pages last ->
  forall (fuel : nat) (gitHubRepos : list any) (s : State) (rest : list (result Response)),
    now (world s) = now0 ->
    clockReads (world s) = reads ->
    nextLink (requestOptions s) = link ->
    responses (world s) = map (fun page => Ok (fst page)) pages ++ rest ->
    (length pages <= S fuel)%nat ->
    exists s',
      reposLoop fuel startTime timeoutMs gitHubRepos s =
        (Ok (accumulate gitHubRepos pages), s') /\
      trace s' = trace s ++ requestsFor (url (requestOptions s)) link pages /\
      nextLink (requestOptions s') = last /\
      responses (world s') = rest /\
      picksCache s' = picksCache s /\
      context s' = context s /\
      choices (world s') = choices (world s).
Proof.
  induction 1 as [reads link r page Hparse Hlink
                 |reads link r page Hparse Hlink Htime
                 |reads link r page pages last Hparse Hlink Htime Hpaging IH];
    intros fuel gitHubRepos s rest Hnow Hreads Hnext Hresponses Hfuel;
    cbn [map fst] in Hresponses;
    assert (Hout : nextOutcome s = Ok r)
      by (unfold nextOutcome; rewrite Hresponses; reflexivity);
    destruct (answered_ok s r Hout) as (Ha & Hu & Hc & Hp & Hn & Hk & Hch);
    destruct (answered_trace s) as [Ht Hres];
    rewrite Hnext in Ha;
    rewrite reposLoop_step; unfold parsed; rewrite Hout;
    cbn [mbind result_bind]; rewrite Hparse; cbn zeta; rewrite Ha, Hlink.
  - eexists. split; [reflexivity|]. rewrite Ht, Hres, Hresponses.
    repeat split; assumption.
  - rewrite Hn, Hk, Hnow, Hreads.
    replace (startTime + timeoutMs >? now0 reads) with false
      by (symmetry; rewrite Z.gtb_ltb; apply Z.ltb_ge; lia).
    eexists. split; [reflexivity|]. cbn. rewrite Ht, Hres, Hresponses.
    repeat split; assumption.
  - rewrite Hn, Hk, Hnow, Hreads.
    replace (startTime + timeoutMs >? now0 reads) with true
      by (symmetry; rewrite Z.gtb_ltb; apply Z.ltb_lt; lia).
    assert (Hpages : pages <> []) by (inversion Hpaging; discriminate).
    destruct fuel as [|fuel];
      [destruct pages; [contradiction | cbn in Hfuel; lia]|].
    match goal with |- context [reposLoop fuel _ _ _ ?s2] =>
      destruct (IH fuel (concat gitHubRepos page) s2 rest)
        as (s' & Hrun & Htrace & Hlast & Hrest & Hcache & Hctx & Hchoices)
    end.
    + cbn. congruence.
    + cbn. congruence.
    + cbn. exact Ha.
    + cbn. rewrite Hres, Hresponses. reflexivity.
    + cbn in Hfuel. lia.
    + exists s'. split; [exact Hrun|]. cbn in Htrace, Hcache, Hctx, Hchoices.
      rewrite Htrace, Ht, Hcache, Hctx, Hchoices, <- app_assoc.
      repeat split; assumption.
Qed.

(** The fuel of the loop is enough: with at least as much fuel as there
    are responses to come, more fuel changes nothing. *)
Lemma reposLoop_fuel (fuel1 fuel2 : nat) (startTime timeoutMs : Z)
    (gitHubRepos : list any) (s : State) :
  (length (responses (world s)) <= fuel1)%nat ->
  (length (responses (world s)) <= fuel2)%nat ->
  reposLoop fuel1 startTime timeoutMs gitHubRepos s =
  reposLoop fuel2 startTime timeoutMs gitHubRepos s.
Proof.
  revert fuel2 gitHubRepos s.
  induction fuel1 as [|fuel1 IH]; intros fuel2 gitHubRepos s H1 H2;
    rewrite (reposLoop_step _ _ _ _ s); symmetry;
    rewrite (reposLoop_step _ _ _ _ s); symmetry;
    destruct (parsed (nextOutcome s)) as [page|error] eqn:Hparsed; try reflexivity;
    cbn zeta;
    (destruct (truthy_str (nextLink (requestOptions (answered s)))); [|reflexivity]);
    (destruct (startTime + timeoutMs >? _); [|reflexivity]);
    unfold parsed, nextOutcome in Hparsed;
    destruct (responses (world s)) as [|outcome rest] eqn:Hresponses;
    try discriminate Hparsed; cbn [length] in H1, H2; try lia.
  destruct fuel2 as [|fuel2]; [lia|].
  apply IH; cbn; destruct (answered_trace s) as [_ Hres];
    rewrite Hres, Hresponses; cbn; lia.
Qed.

Lemma getGitHubReposQuickPicks_spec (timeoutSeconds : Z) (s : State) :
  getGitHubReposQuickPicks timeoutSeconds s =
  let s0 := on_world tick s in
  match reposLoop (length (responses (world s0)))
          (now (world s) (clockReads (world s))) (timeoutSeconds * 1000) [] s0 with
  | (Throw error, s') => (Throw error, s')
  | (Ok gitHubRepos, s') =>
      let picks :=
        sortByLabel (picksCache s' ++ createQuickPickFromJsons gitHubRepos "name" None) in
      (Ok (if truthy_str (nextLink (requestOptions s'))
           then [loadMore] ++ picks
           else picks),
       set_picksCache picks s')
  end.
Proof.
  unfold getGitHubReposQuickPicks, mbind, M_bind, Date_now, get, modify, mret, M_ret.
  cbn zeta.
  destruct (reposLoop _ _ _ _ _) as [[gitHubRepos|error] s']; [|reflexivity].
  cbn [requestOptions set_picksCache picksCache].
  now destruct (truthy_str (nextLink (requestOptions s'))).
Qed.

(** A loop that returns has taken at least one response. *)
Lemma reposLoop_consumes (fuel : nat) (startTime timeoutMs : Z)
    (gitHubRepos gitHubRepos' : list any) (s s' : State) :
  reposLoop fuel startTime timeoutMs gitHubRepos s = (Ok gitHubRepos', s') ->
  (length (responses (world s')) < length (responses (world s)))%nat.
Proof.
  revert gitHubRepos s.
  induction fuel as [|fuel IH]; intros gitHubRepos s;
    rewrite reposLoop_step;
    destruct (parsed (nextOutcome s)) as [page|error] eqn:Hparsed;
    try discriminate;
    unfold parsed, nextOutcome in Hparsed;
    (destruct (responses (world s)) as [|outcome rest] eqn:Hresponses;
       [discriminate Hparsed|]);
    destruct (answered_trace s) as [_ Hres]; rewrite Hresponses in Hres;
    cbn [tail length] in *; cbn zeta;
    (destruct (truthy_str (nextLink (requestOptions (answered s))));
       [|intros [= _ <-]; rewrite Hres; lia]);
    (destruct (startTime + timeoutMs >? _);
       [|intros [= _ <-]; cbn; rewrite Hres; lia]).
  - intros [= _ <-]. cbn. rewrite Hres. lia.
  - intros Hrun. apply IH in Hrun. cbn in Hrun. rewrite Hres in Hrun. lia.
Qed.

Lemma getGitHubReposQuickPicks_consumes (timeoutSeconds : Z) (s : State) :
  (exists picks, fst (getGitHubReposQuickPicks timeoutSeconds s) = Ok picks) ->
  (length (responses (world (snd (getGitHubReposQuickPicks timeoutSeconds s))))
   < length (responses (world s)))%nat.
Proof.
  rewrite getGitHubReposQuickPicks_spec. cbn zeta.
  destruct (reposLoop _ _ _ _ _) as [[gitHubRepos|error] s'] eqn:Hrun.
  - intros _. apply reposLoop_consumes in Hrun. exact Hrun.
  - intros [picks Hpicks]. discriminate Hpicks.
Qed.

(** The fuel of the outer loop is enough as well. *)
Lemma chooseRepository_fuel (fuel1 fuel2 : nat) (s : State) :
  (length (responses (world s)) <= fuel1)%nat ->
  (length (responses (world s)) <= fuel2)%nat ->
  chooseRepository fuel1 s = chooseRepository fuel2 s.
Proof.
  revert fuel2 s. induction fuel1 as [|fuel1 IH]; intros fuel2 s H1 H2.
  - destruct fuel2; cbn [chooseRepository]; unfold mbind at 1 3, M_bind;
      pose proof (getGitHubReposQuickPicks_consumes 10 s) as Hless;
      destruct (getGitHubReposQuickPicks 10 s) as [[picks|error] s1];
      try reflexivity; cbn [fst snd] in Hless;
      (assert (length (responses (world s1)) < length (responses (world s)))%nat
         by (apply Hless; eauto)); lia.
  - destruct fuel2 as [|fuel2]; cbn [chooseRepository]; unfold mbind at 1 3, M_bind;
      pose proof (getGitHubReposQuickPicks_consumes 10 s) as Hless;
      destruct (getGitHubReposQuickPicks 10 s) as [[picks|error] s1];
      try reflexivity; cbn [fst snd] in Hless;
      (assert (Hlt : (length (responses (world s1)) < length (responses (world s)))%nat)
         by (apply Hless; eauto)); [lia|].
    unfold mbind, M_bind.
    destruct (showQuickPick picks "Choose repository." s1) as [[pick|error] s2] eqn:Hpick;
      [|reflexivity].
    destruct (negb (truthy (data pick))); [|reflexivity].
    assert (Hsame : responses (world s2) = responses (world s1)).
    { unfold showQuickPick in Hpick.
      destruct (choices (world s1)) as [|[index|] rest];
        [| destruct (picks !! index) |]; injection Hpick as _ <-; reflexivity. }
    apply IH; rewrite Hsame; lia.
Qed.

(** The claim on the parser as the specification words it: every entry of
    the header is mapped, name to target. *)
Definition header_maps_every_entry (links : list (string * string)) : Prop :=
  forall name target,
    (name, target) ∈ links ->
    parseLinkHeaderToGitHubLinkObject (linkHeaderOf links) !! name = Some target.

(** The claim on the loop as the specification words it: requests go on
    while a next link exists, so none is left when the function returns. *)
Definition follows_every_next_link (timeoutSeconds : Z) (s : State) : Prop :=
  forall picks,
    fst (getGitHubReposQuickPicks timeoutSeconds s) = Ok picks ->
    truthy_str (nextLink (requestOptions
                  (snd (getGitHubReposQuickPicks timeoutSeconds s)))) = false.

(** C4, as amended. A header of entries [<URL>; rel="NAME"] separated by a
    comma and a space is parsed to the object that maps every NAME to its
    URL, provided the names are distinct, no URL contains [>], [rel=] or a
    comma followed by a space, and no NAME contains a comma followed by a
    space. [getJsonRequest] stores what the parsed header of its response
    has under [next] as [nextLink]. [getGitHubReposQuickPicks] requests the
    address at hand and then, page after page, the [nextLink] each response
    left, for as long as one is left and the clock reads less than
    [timeoutSeconds] after the start; it stops at the first page after
    which either fails. All the items of the pages read go, as quick picks,
    into the cache, which is returned, after a Load More pick when a next
    link is left. *)
Theorem link_header_pagination :
  (forall links, forallb readable links = true -> NoDup (map fst links) ->
     header_maps_every_entry links) /\
  (forall (s : State) gitHubResponse,
     nextOutcome s = Ok gitHubResponse ->
     truthy_str (headers_link gitHubResponse) = true ->
     nextLink (requestOptions (snd (getJsonRequest s))) =
       parseLinkHeaderToGitHubLinkObject
         (default ""%string (headers_link gitHubResponse)) !! "next"%string) /\
  (forall (s : State) timeoutSeconds pages last rest,
     Paging (now (world s) (clockReads (world s))) (timeoutSeconds * 1000)
            (now (world s)) (S (clockReads (world s)))
            (nextLink (requestOptions s)) pages last ->
     responses (world s) = map (fun page => Ok (fst page)) pages ++ rest ->
     let picks :=
       sortByLabel (picksCache s ++
                    createQuickPickFromJsons (accumulate [] pages) "name" None) in
     let s' := snd (getGitHubReposQuickPicks timeoutSeconds s) in
     fst (getGitHubReposQuickPicks timeoutSeconds s) =
       Ok (if truthy_str last then [loadMore] ++ picks else picks) /\
     picksCache s' = picks /\
     trace s' = trace s ++ requestsFor (url (requestOptions s))
                                       (nextLink (requestOptions s)) pages /\
     nextLink (requestOptions s') = last /\
     responses (world s') = rest).
Proof.
  split; [|split].
  - intros links Hall Hnodup name target Hin. now apply parseLinkHeader_readable.
  - intros s r Hout Hheader.
    destruct (answered_ok s r Hout) as (Ha & _).
    unfold linkAfter in Ha. rewrite Hheader in Ha.
    rewrite getJsonRequest_spec.
    destruct (nextOutcome s ≫= _) as [value|error]; cbn [snd]; [exact Ha|].
    destruct (caught_quiet error (answered s)) as (_ & Hr & _). now rewrite Hr.
  - intros s timeoutSeconds pages last rest Hpaging Hresponses picks s'.
    subst s'. rewrite getGitHubReposQuickPicks_spec. cbn zeta.
    destruct (reposLoop_paging _ _ _ _ _ _ _ Hpaging
                (length (responses (world (on_world tick s)))) [] (on_world tick s) rest)
      as (s1 & Hrun & Htrace & Hlast & Hrest & Hcache & _); try reflexivity.
    + exact Hresponses.
    + cbn. rewrite Hresponses, length_app, length_map. lia.
    + rewrite Hrun. cbn [fst snd]. rewrite Hlast, Hcache.
      cbn [picksCache on_world set_picksCache requestOptions world trace] in *.
      fold picks. repeat split; assumption.
Qed.

(** The number of requests among some events. *)
Definition countRequests (events : list Event) : nat :=
  length (List.filter (fun e => match e with Request _ => true | _ => false end) events).

Definition countSyncs (events : list Event) : nat :=
  length (List.filter (fun e => match e with SyncRepository => true | _ => false end) events).

Lemma prompt_events_no_request (events : list Event) :
  forallb isPromptEvent events = true -> countRequests events = 0%nat.
Proof.
  unfold countRequests. induction events as [|e events IH]; [reflexivity|].
  cbn. intros [He Hev]%andb_true_iff. destruct e; try discriminate He; now apply IH.
Qed.

(** C7. One call of [getJsonRequest] makes exactly one request, whatever
    its outcome, and takes one response: a failed request is not made
    again. What the caller gets is the parsed body of that one response,
    or the error of that one request (or of parsing its body), thrown
    again as it is. *)
Theorem getJsonRequest_one_request (s : State) :
  (exists events,
     trace (snd (getJsonRequest s)) =
       trace s ++ Request (url (requestOptions s)) :: events /\
     countRequests (Request (url (requestOptions s)) :: events) = 1%nat) /\
  responses (world (snd (getJsonRequest s))) = tail (responses (world s)) /\
  fst (getJsonRequest s) =
    (nextOutcome s ≫= fun gitHubResponse => JSON_parse (body gitHubResponse)) /\
  (forall error, nextOutcome s = Throw error ->
     fst (getJsonRequest s) = Throw error).
Proof.
  rewrite getJsonRequest_spec.
  destruct (answered_trace s) as [Htrace Hresponses].
  assert (Hresult : forall r : result any,
    fst (match r with
         | Ok value => (Ok value, answered s)
         | Throw error => (Throw error, caught error (answered s))
         end) = r) by (intros []; reflexivity).
  destruct (nextOutcome s ≫= (fun gitHubResponse => JSON_parse (body gitHubResponse)))
    as [value|error] eqn:Hout; cbn [fst snd].
  - split; [|split; [assumption|split; [reflexivity|]]].
    + exists []. rewrite Htrace. split; reflexivity.
    + intros error Hfail. rewrite Hfail in Hout. discriminate Hout.
  - destruct (caught_quiet error (answered s)) as (Hres & _ & events & Ht & Hev).
    split; [|split; [congruence|split; [reflexivity|]]].
    + exists events. rewrite Ht, Htrace, <- app_assoc. split; [reflexivity|].
      unfold countRequests. cbn. f_equal. now apply prompt_events_no_request.
    + intros error' Hfail. rewrite Hfail in Hout. exact (eq_sym Hout).
Qed.

(** *** Facts about the start and the end of connectToGitHub *)

Lemma includes_indexOf (s search : string) :
  (JsString.indexOf s search =? -1) = negb (JsString.includes s search).
Proof.
  unfold JsString.indexOf, JsString.includes.
  destruct (JsString.find search s) as [i|]; [|reflexivity].
  cbn. apply Z.eqb_neq. lia.
Qed.

(** The [try] statement when the update fails: one resync, whose error is
    thrown on unless its parsed message contains ["statusCode":200]. *)
Lemma updateAndSync_update_fails (siteSourceControl : SiteSourceControl)
    (repoName : string) (err : any) (s : State) :
  verifyNoRunFromPackageSetting client = Ok tt ->
  updateSourceControl client siteSourceControl = Throw err ->
  trace (snd (updateAndSync siteSourceControl repoName s)) =
    trace s ++ [WithProgress (connectingToGithub repoName);
                AppendLine (connectingToGithub repoName);
                VerifyNoRunFromPackageSetting;
                UpdateSourceControl siteSourceControl;
                SyncRepository] /\
  countSyncs [WithProgress (connectingToGithub repoName);
              AppendLine (connectingToGithub repoName);
              VerifyNoRunFromPackageSetting;
              UpdateSourceControl siteSourceControl;
              SyncRepository] = 1%nat /\
  fst (updateAndSync siteSourceControl repoName s) =
    match syncRepository client with
    | Ok _ => Ok tt
    | Throw error =>
        if JsString.includes (message (parseError error)) statusCode200
        then Ok tt
        else Throw error
    end.
Proof.
  intros Hverify Hupdate.
  unfold updateAndSync, try_catch, mbind, M_bind, show, call, modify.
  rewrite Hverify, Hupdate. cbn [fst snd].
  destruct (syncRepository client) as [[]|error]; cbn [fst snd].
  - cbn. rewrite <- !app_assoc. repeat split.
  - rewrite includes_indexOf.
    destruct (JsString.includes (message (parseError error)) statusCode200);
      cbn; rewrite <- !app_assoc; repeat split.
Qed.

(** *** Where the source control calls sit *)

(** The events of everything before the [try] statement. *)
Definition isSetupEvent (e : Event) : bool :=
  match e with
  | ListSourceControls | SignRequest _ | Request _ | ShowErrorMessage _
  | OpenUrl _ | OpenInPortal _ | ShowQuickPick _ _ => true
  | _ => false
  end.

(** A computation that adds setup events only. *)
Definition quiet {A : Type} (m : M State A) : Prop :=
  forall s, exists events,
    trace (snd (m s)) = trace s ++ events /\ forallb isSetupEvent events = true.

Lemma quiet_silent {A : Type} (m : M State A) :
  (forall s, trace (snd (m s)) = trace s) -> quiet m.
Proof.
  intros Hsame s. exists []. rewrite app_nil_r. split; [apply Hsame | reflexivity].
Qed.

Lemma quiet_bind {A B : Type} (m : M State A) (f : A -> M State B) :
  quiet m -> (forall a, quiet (f a)) -> quiet (m ≫= f).
Proof.
  intros Hm Hf s. unfold mbind, M_bind.
  destruct (Hm s) as (events & Ht & Hev).
  destruct (m s) as [[a|error] s1]; cbn [snd] in *.
  - destruct (Hf a s1) as (events' & Ht' & Hev').
    exists (events ++ events'). rewrite Ht', Ht, <- app_assoc, forallb_app, Hev, Hev'.
    split; reflexivity.
  - exists events. split; assumption.
Qed.

Lemma quiet_call {A : Type} (e : Event) (outcome : result A) :
  isSetupEvent e = true -> quiet (call e outcome).
Proof.
  intros He s. exists [e]. cbn. rewrite He. split; reflexivity.
Qed.

Lemma prompt_event_setup (events : list Event) :
  forallb isPromptEvent events = true -> forallb isSetupEvent events = true.
Proof.
  induction events as [|e events IH]; [reflexivity|].
  cbn. intros [He Hev]%andb_true_iff. rewrite (IH Hev), andb_true_r.
  now destruct e.
Qed.

Lemma quiet_showGitHubAuthPrompt : quiet showGitHubAuthPrompt.
Proof.
  intros s.
  destruct (showGitHubAuthPrompt_prompted s)
    as (_ & _ & _ & _ & _ & _ & _ & _ & events & Ht & Hev).
  exists (ShowErrorMessage invalidToken :: events). split; [exact Ht|].
  cbn. now apply prompt_event_setup.
Qed.

Lemma quiet_getJsonRequest : quiet getJsonRequest.
Proof.
  intros s. rewrite getJsonRequest_spec. destruct (answered_trace s) as [Ht _].
  destruct (nextOutcome s ≫= _) as [value|error]; cbn [snd].
  - exists [Request (url (requestOptions s))]. split; [exact Ht | reflexivity].
  - destruct (caught_quiet error (answered s)) as (_ & _ & events & Ht' & Hev).
    exists (Request (url (requestOptions s)) :: events).
    rewrite Ht', Ht, <- app_assoc. split; [reflexivity|].
    cbn. now apply prompt_event_setup.
Qed.

Lemma quiet_showQuickPick (picks : list IAzureQuickPickItem) (placeHolder : string) :
  quiet (showQuickPick picks placeHolder).
Proof.
  intros s. exists [ShowQuickPick picks placeHolder]. unfold showQuickPick.
  destruct (choices (world s)) as [|[index|] rest]; [|destruct (picks !! index)|];
    split; reflexivity.
Qed.

Create HintDb quiet.

#[local] Hint Resolve quiet_getJsonRequest quiet_showGitHubAuthPrompt
  quiet_showQuickPick : quiet.

(** Solves [quiet] goals of computations put together with binds and tests:
    the functions already known to be quiet first. *)
Ltac quiet_steps :=
  repeat first
    [ solve [auto 1 with quiet nocore]
    | apply quiet_call; reflexivity
    | apply quiet_silent; intros ?; reflexivity
    | apply quiet_bind; [|intros ?]
    | match goal with
      | |- quiet (if ?c then _ else _) => destruct c
      | |- quiet (match ?x with S _ => _ | O => _ end) => destruct x
      end ].

Lemma quiet_reposLoop (fuel : nat) (startTime timeoutMs : Z) (gitHubRepos : list any) :
  quiet (reposLoop fuel startTime timeoutMs gitHubRepos).
Proof.
  revert gitHubRepos. induction fuel as [|fuel IH]; intros gitHubRepos;
    cbn [reposLoop]; quiet_steps; try apply IH.
Qed.

#[local] Hint Resolve quiet_reposLoop : quiet.

Lemma quiet_getGitHubReposQuickPicks (timeoutSeconds : Z) :
  quiet (getGitHubReposQuickPicks timeoutSeconds).
Proof.
  unfold getGitHubReposQuickPicks. cbn zeta. quiet_steps.
Qed.

#[local] Hint Resolve quiet_getGitHubReposQuickPicks : quiet.

Lemma quiet_chooseRepository (fuel : nat) : quiet (chooseRepository fuel).
Proof.
  induction fuel as [|fuel IH]; cbn [chooseRepository]; cbn zeta;
    quiet_steps; try apply IH.
Qed.

#[local] Hint Resolve quiet_chooseRepository : quiet.

(** The trace of the [try] statement. *)
Lemma updateAndSync_trace (siteSourceControl : SiteSourceControl) (repoName : string)
    (s : State) :
  trace (snd (updateAndSync siteSourceControl repoName s)) =
  trace s ++
  [WithProgress (connectingToGithub repoName); AppendLine (connectingToGithub repoName);
   VerifyNoRunFromPackageSetting] ++
  match verifyNoRunFromPackageSetting client with
  | Throw _ => [SyncRepository]
  | Ok _ =>
      UpdateSourceControl siteSourceControl ::
      match updateSourceControl client siteSourceControl with
      | Throw _ => [SyncRepository]
      | Ok _ => [ShowInformationMessage (connectedToGithub repoName);
                 AppendLine (connectedToGithub repoName)]
      end
  end.
Proof.
  unfold updateAndSync, try_catch, mbind, M_bind, show, call, modify.
  destruct (verifyNoRunFromPackageSetting client) as [[]|e1];
    [destruct (updateSourceControl client siteSourceControl) as [[]|e2]|];
    cbn [fst snd];
    try (destruct (syncRepository client) as [[]|error]; cbn [fst snd];
         try destruct (JsString.indexOf (message (parseError error)) statusCode200 =? -1));
    cbn; rewrite <- ?app_assoc; reflexivity.
Qed.

(** A computation that adds setup events only, or adds setup events and
    then runs the [try] statement. *)
Definition reachesSync (m : M State unit) : Prop :=
  forall s,
    (exists events,
       trace (snd (m s)) = trace s ++ events /\ forallb isSetupEvent events = true) \/
    (exists s1 siteSourceControl repoName events,
       trace s1 = trace s ++ events /\ forallb isSetupEvent events = true /\
       m s = updateAndSync siteSourceControl repoName s1).

Lemma reachesSync_quiet (m : M State unit) : quiet m -> reachesSync m.
Proof. intros Hm s. left. apply Hm. Qed.

Lemma reachesSync_bind {A : Type} (m : M State A) (f : A -> M State unit) :
  quiet m -> (forall a, reachesSync (f a)) -> reachesSync (m ≫= f).
Proof.
  intros Hm Hf s. unfold mbind, M_bind.
  destruct (Hm s) as (events & Ht & Hev).
  destruct (m s) as [[a|error] s1]; cbn [snd] in *.
  - destruct (Hf a s1) as [(events' & Ht' & Hev')
                          |(s2 & ssc & repoName & events' & Ht' & Hev' & Hrun)].
    + left. exists (events ++ events').
      rewrite Ht', Ht, <- app_assoc, forallb_app, Hev, Hev'. split; reflexivity.
    + right. exists s2, ssc, repoName, (events ++ events').
      rewrite Ht', Ht, <- app_assoc, forallb_app, Hev, Hev'. repeat split. exact Hrun.
  - left. exists events. split; assumption.
Qed.

Lemma reachesSync_updateAndSync (siteSourceControl : SiteSourceControl)
    (repoName : string) :
  reachesSync (updateAndSync siteSourceControl repoName).
Proof.
  intros s. right. exists s, siteSourceControl, repoName, [].
  rewrite app_nil_r. repeat split.
Qed.

Lemma reachesSync_connectToGitHub : reachesSync connectToGitHub.
Proof.
  unfold connectToGitHub.
  repeat (apply reachesSync_bind; [quiet_steps|intros ?]).
  match goal with |- reachesSync (if ?c then _ else _) => destruct c end.
  - apply reachesSync_quiet. quiet_steps.
  - cbn zeta.
    repeat (apply reachesSync_bind; [quiet_steps|intros ?]).
    apply reachesSync_updateAndSync.
Qed.

(** The events a run adds to the trace. *)
Definition added (s s' : State) : list Event := drop (length (trace s)) (trace s').

Lemma added_app (s s' : State) (events : list Event) :
  trace s' = trace s ++ events -> added s s' = events.
Proof. intros Ht. unfold added. rewrite Ht. apply drop_app_length. Qed.

Lemma setup_events_no_sync (events : list Event) :
  forallb isSetupEvent events = true ->
  countSyncs events = 0%nat /\
  forall siteSourceControl, ~ In (UpdateSourceControl siteSourceControl) events.
Proof.
  unfold countSyncs. induction events as [|e events IH]; [split; [reflexivity|intros ? []]|].
  cbn. intros [He Hev]%andb_true_iff. destruct (IH Hev) as [Hcount Hnot].
  split.
  - destruct e; try discriminate He; exact Hcount.
  - intros ssc [Heq|Hin]; [subst e; discriminate He|]. now apply (Hnot ssc).
Qed.

(** C2. Whenever a run of [connectToGitHub] calls [updateSourceControl] and
    the call throws, the run calls [syncRepository] exactly once, right
    after the failed update and as its last call. The run then returns
    normally when the sync returns, and when the sync throws an error whose
    parsed message contains ["statusCode":200]; it throws the error of the
    sync otherwise. *)
Theorem connectToGitHub_resync (s : State) (siteSourceControl : SiteSourceControl)
    (err : any) :
  In (UpdateSourceControl siteSourceControl) (added s (snd (connectToGitHub s))) ->
  updateSourceControl client siteSourceControl = Throw err ->
  countSyncs (added s (snd (connectToGitHub s))) = 1%nat /\
  (exists before,
     added s (snd (connectToGitHub s)) =
       before ++ [UpdateSourceControl siteSourceControl; SyncRepository]) /\
  fst (connectToGitHub s) =
    match syncRepository client with
    | Ok _ => Ok tt
    | Throw error =>
        if JsString.includes (message (parseError error)) statusCode200
        then Ok tt
        else Throw error
    end.
Proof.
  intros Hin Hupdate.
  destruct (reachesSync_connectToGitHub s)
    as [(events & Ht & Hev)|(s1 & ssc & repoName & events & Ht & Hev & Hrun)].
  - rewrite (added_app _ _ _ Ht) in Hin.
    destruct (setup_events_no_sync events Hev) as [_ Hnot]. now apply Hnot in Hin.
  - destruct (setup_events_no_sync events Hev) as [Hcount Hnot].
    rewrite Hrun in *.
    pose proof (updateAndSync_trace ssc repoName s1) as Htrace.
    rewrite Ht, <- app_assoc in Htrace. apply added_app in Htrace.
    rewrite Htrace in *. clear Htrace.
    apply in_app_or in Hin as [Hin|Hin]; [now apply Hnot in Hin|].
    destruct (verifyNoRunFromPackageSetting client) as [[]|e1] eqn:Hverify.
    + assert (ssc = siteSourceControl) as ->.
      { cbn in Hin. destruct Hin as [Hin|[Hin|[Hin|[Hin|Hin]]]]; try discriminate Hin.
        - now injection Hin.
        - destruct (updateSourceControl client ssc) as [[]|e2]; cbn in Hin;
            repeat (destruct Hin as [Hin|Hin]; try discriminate Hin); destruct Hin. }
      rewrite Hupdate.
      destruct (updateAndSync_update_fails siteSourceControl repoName err s1
                  Hverify Hupdate) as (_ & _ & Hresult).
      split; [|split; [|exact Hresult]].
      * unfold countSyncs in *. rewrite List.filter_app, length_app, Hcount.
        reflexivity.
      * exists (events ++ [WithProgress (connectingToGithub repoName);
                          AppendLine (connectingToGithub repoName);
                          VerifyNoRunFromPackageSetting]).
        rewrite <- app_assoc. reflexivity.
    + cbn in Hin.
      repeat (destruct Hin as [Hin|Hin]; try discriminate Hin). destruct Hin.
Qed.

(** *** A failed request ends the run *)

(** What the request number [i] of a run from [s] is answered: the
    responses to come, in turn, and [noResponse] once they are used up. *)
Definition outcomeOf (s : State) (i : nat) : result Response :=
  nth i (responses (world s)) (Throw noResponse).

Lemma outcomeOf_first (s : State) : outcomeOf s 0 = nextOutcome s.
Proof. unfold outcomeOf, nextOutcome. now destruct (responses (world s)). Qed.

Lemma nth_drop_add {A : Type} (n i : nat) (l : list A) (d : A) :
  nth i (drop n l) d = nth (n + i) l d.
Proof.
  revert l. induction n as [|n IH]; intros [|x l]; cbn; try reflexivity.
  - now destruct i.
  - apply IH.
Qed.

Lemma countRequests_app (events events' : list Event) :
  countRequests (events ++ events') =
  (countRequests events + countRequests events')%nat.
Proof. unfold countRequests. now rewrite List.filter_app, length_app. Qed.

(** [events] are the events of a run from [s] that ended with [r] in [s'],
    and every failed request among them ended it: a request that is made
    and whose response fails, or does not parse, is the last request of the
    run, and its error is what the run throws. When the parsed message of
    that error contains "Bad credentials", the error display is suppressed
    at the end of the run, and the request is followed by the prompt and
    by nothing else. *)
Definition stopsAt {A : Type} (s : State) (events : list Event) (r : result A)
    (s' : State) : Prop :=
  forall i error,
    (i < countRequests events)%nat ->
    parsed (outcomeOf s i) = Throw error ->
    S i = countRequests events /\
    r = Throw error /\
    (badCredentials error = true ->
     suppressErrorDisplay (context s') = Some true /\
     exists before url after,
       events = before ++ Request url :: ShowErrorMessage invalidToken :: after /\
       forallb isPromptEvent after = true).

(** A computation whose requests take the responses to come in turn, and
    which a failed request ends. *)
Definition guarded {A : Type} (m : M State A) : Prop :=
  forall s, exists events,
    trace (snd (m s)) = trace s ++ events /\
    responses (world (snd (m s))) =
      drop (countRequests events) (responses (world s)) /\
    stopsAt s events (fst (m s)) (snd (m s)).

(** A computation that makes no request. *)
Lemma guarded_free {A : Type} (m : M State A) :
  (forall s, exists events,
     trace (snd (m s)) = trace s ++ events /\
     countRequests events = 0%nat /\
     responses (world (snd (m s))) = responses (world s)) ->
  guarded m.
Proof.
  intros Hfree s. destruct (Hfree s) as (events & Ht & Hcount & Hres).
  exists events. rewrite Hcount. split; [exact Ht|]. split; [exact Hres|].
  intros i error Hi. lia.
Qed.

Lemma guarded_silent {A : Type} (m : M State A) :
  (forall s, trace (snd (m s)) = trace s /\
             responses (world (snd (m s))) = responses (world s)) ->
  guarded m.
Proof.
  intros Hsame. apply guarded_free. intros s. exists [].
  destruct (Hsame s) as [Ht Hres]. rewrite app_nil_r. now repeat split.
Qed.

Lemma guarded_call {A : Type} (e : Event) (outcome : result A) :
  countRequests [e] = 0%nat -> guarded (call e outcome).
Proof.
  intros He. apply guarded_free. intros s. exists [e]. now repeat split.
Qed.

Lemma guarded_bind {A B : Type} (m : M State A) (f : A -> M State B) :
  guarded m -> (forall a, guarded (f a)) -> guarded (m ≫= f).
Proof.
  intros Hm Hf s. unfold mbind, M_bind.
  destruct (Hm s) as (events & Ht & Hres & Hstop).
  destruct (m s) as [[a|e] s1]; cbn [fst snd] in *.
  - destruct (Hf a s1) as (events' & Ht' & Hres' & Hstop').
    exists (events ++ events'). split; [now rewrite Ht', Ht, app_assoc|].
    split; [now rewrite Hres', Hres, countRequests_app, drop_drop|].
    intros i error Hi Hfail. rewrite countRequests_app in *.
    destruct (lt_dec i (countRequests events)) as [Hlt|Hge].
    + destruct (Hstop i error Hlt Hfail) as (_ & Hthrow & _). discriminate Hthrow.
    + destruct (Hstop' (i - countRequests events)%nat error) as (Hlast & Hthrow & Hbad).
      * lia.
      * unfold outcomeOf in *. rewrite Hres, nth_drop_add.
        now replace (countRequests events + (i - countRequests events))%nat with i
          by lia.
      * split; [lia|]. split; [exact Hthrow|].
        intros Hcredentials.
        destruct (Hbad Hcredentials) as (Hsuppress & before & u & after & -> & Hafter).
        split; [exact Hsuppress|].
        exists (events ++ before), u, after. now rewrite <- app_assoc.
  - exists events. split; [exact Ht|]. split; [exact Hres|].
    intros i error Hi Hfail.
    destruct (Hstop i error Hi Hfail) as (Hlast & [= ->] & Hbad).
    repeat split; try assumption; now apply Hbad.
Qed.

Lemma guarded_getJsonRequest : guarded getJsonRequest.
Proof.
  intros s. rewrite getJsonRequest_spec.
  destruct (answered_trace s) as [Ht Hres].
  fold (parsed (nextOutcome s)).
  destruct (parsed (nextOutcome s)) as [value|error] eqn:Hparsed; cbn [fst snd].
  - exists [Request (url (requestOptions s))].
    split; [exact Ht|]. split; [rewrite Hres; now destruct (responses (world s))|].
    intros i error Hi Hfail. change (countRequests [Request (url (requestOptions s))])
      with 1%nat in Hi.
    assert (i = 0%nat) as -> by lia.
    rewrite outcomeOf_first, Hparsed in Hfail. discriminate Hfail.
  - destruct (caught_quiet error (answered s)) as (Hres' & _ & events & Ht' & Hev).
    exists (Request (url (requestOptions s)) :: events).
    assert (Hcount : countRequests (Request (url (requestOptions s)) :: events) = 1%nat).
    { unfold countRequests. cbn. f_equal. now apply prompt_events_no_request. }
    rewrite Hcount.
    split; [now rewrite Ht', Ht, <- app_assoc|].
    split; [rewrite Hres', Hres; now destruct (responses (world s))|].
    intros i error' Hi Hfail. rewrite Hcount in Hi. assert (i = 0%nat) as -> by lia.
    rewrite outcomeOf_first, Hparsed in Hfail. injection Hfail as <-.
    split; [now rewrite Hcount|]. split; [reflexivity|].
    intros Hbad.
    destruct (caught_prompted error (answered s) Hbad)
      as (Hsuppress & _ & _ & after & Hafter & Hprompt).
    split; [exact Hsuppress|].
    exists [], (url (requestOptions s)), after. split; [|exact Hprompt].
    rewrite Ht' in Hafter. apply app_inv_head in Hafter. now rewrite Hafter.
Qed.

Lemma guarded_showGitHubAuthPrompt : guarded showGitHubAuthPrompt.
Proof.
  apply guarded_free. intros s.
  destruct (showGitHubAuthPrompt_prompted s)
    as (_ & _ & _ & _ & Hres & _ & _ & _ & events & Ht & Hev).
  exists (ShowErrorMessage invalidToken :: events).
  split; [exact Ht|]. split; [|exact Hres].
  unfold countRequests. cbn. now apply prompt_events_no_request.
Qed.

Lemma guarded_showQuickPick (picks : list IAzureQuickPickItem) (placeHolder : string) :
  guarded (showQuickPick picks placeHolder).
Proof.
  apply guarded_free. intros s. exists [ShowQuickPick picks placeHolder].
  unfold showQuickPick.
  destruct (choices (world s)) as [|[index|] rest]; [|destruct (picks !! index)|];
    repeat split.
Qed.

Lemma guarded_updateAndSync (siteSourceControl : SiteSourceControl) (repoName : string) :
  guarded (updateAndSync siteSourceControl repoName).
Proof.
  apply guarded_free. intros s.
  pose proof (updateAndSync_trace siteSourceControl repoName s) as Ht.
  eexists. split; [exact Ht|]. split.
  - destruct (verifyNoRunFromPackageSetting client) as [[]|e1];
      [destruct (updateSourceControl client siteSourceControl) as [[]|e2]|];
      reflexivity.
  - unfold updateAndSync, try_catch, mbind, M_bind, show, call, modify.
    destruct (verifyNoRunFromPackageSetting client) as [[]|e1];
      [destruct (updateSourceControl client siteSourceControl) as [[]|e2]|];
      cbn [fst snd];
      try (destruct (syncRepository client) as [[]|error]; cbn [fst snd];
           try destruct (JsString.indexOf (message (parseError error)) statusCode200
                         =? -1));
      reflexivity.
Qed.

Create HintDb guarded.

#[local] Hint Resolve guarded_getJsonRequest guarded_showGitHubAuthPrompt
  guarded_showQuickPick guarded_updateAndSync : guarded.

(** Solves [guarded] goals of computations put together with binds and
    tests: the functions already known to be guarded first. *)
Ltac guarded_steps :=
  repeat first
    [ solve [auto 1 with guarded nocore]
    | apply guarded_call; reflexivity
    | apply guarded_silent; intros ?; split; reflexivity
    | apply guarded_bind; [|intros ?]
    | match goal with
      | |- guarded (if ?c then _ else _) => destruct c
      | |- guarded (match ?x with S _ => _ | O => _ end) => destruct x
      end ].

Lemma guarded_reposLoop (fuel : nat) (startTime timeoutMs : Z) (gitHubRepos : list any) :
  guarded (reposLoop fuel startTime timeoutMs gitHubRepos).
Proof.
  revert gitHubRepos. induction fuel as [|fuel IH]; intros gitHubRepos;
    cbn [reposLoop]; guarded_steps; try apply IH.
Qed.

#[local] Hint Resolve guarded_reposLoop : guarded.

Lemma guarded_getGitHubReposQuickPicks (timeoutSeconds : Z) :
  guarded (getGitHubReposQuickPicks timeoutSeconds).
Proof.
  unfold getGitHubReposQuickPicks. cbn zeta. guarded_steps.
Qed.

#[local] Hint Resolve guarded_getGitHubReposQuickPicks : guarded.

Lemma guarded_chooseRepository (fuel : nat) : guarded (chooseRepository fuel).
Proof.
  induction fuel as [|fuel IH]; cbn [chooseRepository]; cbn zeta;
    guarded_steps; try apply IH.
Qed.

#[local] Hint Resolve guarded_chooseRepository : guarded.





(** *** The rounds of the prompt *)

(** The events of [n] answers of Learn More. *)
Fixpoint learnMoreRounds (n : nat) : list Event :=
  match n with
  | O => []
  | S n' =>
      ShowErrorMessage invalidToken :: OpenUrl "https://aka.ms/B7g6sw" ::
      learnMoreRounds n'
  end.

(** The telemetry properties once Learn More was answered [n] times. *)
Definition learnedMore (n : nat) (properties : gmap string string) : gmap string string :=
  match n with
  | O => properties
  | S _ => <["githubLearnMore"%string := "true"%string]> properties
  end.

Lemma askWhileLearnMore_rounds (n : nat) (final : option MessageItem)
    (rest : list (option MessageItem)) (s : State) :
  final <> Some learnMore ->
  fst (askWhileLearnMore (replicate n (Some learnMore) ++ final :: rest) s) = final /\
  trace (snd (askWhileLearnMore (replicate n (Some learnMore) ++ final :: rest) s)) =
    trace s ++ learnMoreRounds n ++ [ShowErrorMessage invalidToken] /\
  answers (world (snd (askWhileLearnMore
                         (replicate n (Some learnMore) ++ final :: rest) s))) = rest /\
  properties (context (snd (askWhileLearnMore
                              (replicate n (Some learnMore) ++ final :: rest) s))) =
    learnedMore n (properties (context s)) /\
  suppressErrorDisplay (context (snd (askWhileLearnMore
                              (replicate n (Some learnMore) ++ final :: rest) s))) =
    suppressErrorDisplay (context s).
Proof.
  intros Hfinal. revert s. induction n as [|n IH]; intros s.
  - cbn [replicate app askWhileLearnMore].
    destruct final as [[|]|]; try contradiction; cbn; repeat split.
  - cbn [replicate app askWhileLearnMore].
    match goal with |- context [askWhileLearnMore _ ?s1] =>
      destruct (IH s1) as (Hinput & Htrace & Hanswers & Hproperties & Hsuppress)
    end.
    rewrite Hinput, Htrace, Hanswers, Hproperties, Hsuppress.
    repeat split.
    + cbn. rewrite <- !app_assoc. reflexivity.
    + cbn. destruct n; cbn; [reflexivity|]. apply insert_insert_eq.
Qed.

(** X14. The re-authorization prompt, answer by answer. When the user
    answers Learn More [n] times and then something else, the error message
    is shown [n + 1] times, the Learn More page is opened after each of the
    first [n], and the portal is opened once at the end exactly when the
    last answer is Go to Portal. The telemetry property [githubLearnMore]
    is set when [n] is not zero, [githubGoToPortal] when the portal is
    opened, and [suppressErrorDisplay] is left to the caller. *)
Theorem showGitHubAuthPrompt_rounds (n : nat) (final : option MessageItem)
    (rest : list (option MessageItem)) (s : State) :
  answers (world s) = replicate n (Some learnMore) ++ final :: rest ->
  final <> Some learnMore ->
  let s' := snd (showGitHubAuthPrompt s) in
  trace s' =
    trace s ++ learnMoreRounds n ++ ShowErrorMessage invalidToken ::
    match final with
    | Some goToPortal => [OpenInPortal (id client +:+ "/vstscd")]
    | _ => []
    end /\
  answers (world s') = rest /\
  properties (context s') =
    match final with
    | Some goToPortal =>
        <["githubGoToPortal"%string := "true"%string]>
          (learnedMore n (properties (context s)))
    | _ => learnedMore n (properties (context s))
    end /\
  suppressErrorDisplay (context s') = suppressErrorDisplay (context s).
Proof.
  intros Hanswers Hfinal. cbn zeta. unfold showGitHubAuthPrompt. rewrite Hanswers.
  destruct (askWhileLearnMore_rounds n final rest s Hfinal)
    as (Hinput & Htrace & Hrest & Hproperties & Hsuppress).
  destruct (askWhileLearnMore _ s) as [input s1]. cbn [fst snd] in *. subst input.
  destruct final as [[|]|]; try contradiction; cbn [snd];
    cbn [emit on_context trace world context properties suppressErrorDisplay
         set_property];
    rewrite Htrace, Hproperties, <- ?app_assoc; repeat split; assumption.
Qed.

(** *** What getJsonRequest leaves alone *)

(** What the [try] block leaves alone. *)
Lemma answered_frame (s : State) :
  context (answered s) = context s /\
  url (requestOptions (answered s)) = url (requestOptions s) /\
  headers (requestOptions (answered s)) = headers (requestOptions s) /\
  resolveWithFullResponse (requestOptions (answered s)) =
    resolveWithFullResponse (requestOptions s) /\
  picksCache (answered s) = picksCache s /\
  choices (world (answered s)) = choices (world s) /\
  clockReads (world (answered s)) = clockReads (world s) /\
  now (world (answered s)) = now (world s).
Proof.
  unfold answered, storeNextLink.
  destruct (nextOutcome s) as [gitHubResponse|error]; [|repeat split].
  destruct (truthy_str (headers_link gitHubResponse)); repeat split.
Qed.

(** X15. [getJsonRequest] changes the action context only in a call that
    throws an error whose parsed message contains "Bad credentials", and
    then [suppressErrorDisplay] is set: a call that returns, and a call
    that fails in any other way, leave the context as it was. *)
Theorem getJsonRequest_context (s : State) :
  context (snd (getJsonRequest s)) <> context s ->
  exists error,
    fst (getJsonRequest s) = Throw error /\
    badCredentials error = true /\
    suppressErrorDisplay (context (snd (getJsonRequest s))) = Some true.
Proof.
  rewrite getJsonRequest_spec.
  destruct (answered_frame s) as (Hcontext & _).
  destruct (nextOutcome s ≫= _) as [value|error]; cbn [fst snd].
  - intros Hchanged. now contradiction Hchanged.
  - unfold caught. destruct (badCredentials error) eqn:Hbad.
    + intros _. exists error. repeat split. exact Hbad.
    + intros Hchanged. now contradiction Hchanged.
Qed.

(** X16. Whatever its outcome, [getJsonRequest] leaves the address, the
    headers and the [resolveWithFullResponse] flag of the request object as
    they were, and does not touch the cache of picks, the clock or the
    quick pick choices: of the request object it writes [nextLink] only. *)
Theorem getJsonRequest_frame (s : State) :
  let s' := snd (getJsonRequest s) in
  url (requestOptions s') = url (requestOptions s) /\
  headers (requestOptions s') = headers (requestOptions s) /\
  resolveWithFullResponse (requestOptions s') =
    resolveWithFullResponse (requestOptions s) /\
  picksCache s' = picksCache s /\
  choices (world s') = choices (world s) /\
  clockReads (world s') = clockReads (world s).
Proof.
  cbn zeta. rewrite getJsonRequest_spec.
  destruct (answered_frame s) as (_ & Hurl & Hheaders & Hflag & Hcache & Hch & Hck & _).
  destruct (nextOutcome s ≫= _) as [value|error]; cbn [fst snd];
    [repeat split; assumption|].
  unfold caught. destruct (badCredentials error); [|repeat split; assumption].
  destruct (showGitHubAuthPrompt_prompted (answered s))
    as (_ & Hr & Hp & _ & _ & Hch' & Hck' & _).
  cbn [on_context requestOptions picksCache world]. rewrite Hr, Hp, Hch', Hck'.
  repeat split; assumption.
Qed.

(** *** The next link from one page to the next *)

Lemma linkHeaderOf_truthy (links : list (string * string)) :
  links <> [] -> truthy_str (Some (linkHeaderOf links)) = true.
Proof.
  destruct links as [|[name target] links]; [contradiction|]. intros _.
  unfold linkHeaderOf. cbn [map JsString.join fst snd].
  destruct (map _ links); rewrite linkEntry_chars; reflexivity.
Qed.

(** A name that the header does not have is not in the object. *)
Lemma parseLinkHeader_other (links : list (string * string)) (name : string) :
  links <> [] ->
  forallb readable links = true ->
  name ∉ map fst links ->
  parseLinkHeaderToGitHubLinkObject (linkHeaderOf links) !! name = None.
Proof.
  intros Hne Hall Hnot. unfold parseLinkHeaderToGitHubLinkObject, JsString.split.
  rewrite split_go_linkHeader by assumption.
  rewrite fold_entries by assumption.
  rewrite fold_insert_other by assumption. apply lookup_empty.
Qed.

(** The [catch] block leaves the cache alone. *)
Lemma caught_cache (error : any) (s : State) :
  picksCache (caught error s) = picksCache s.
Proof.
  unfold caught. destruct (badCredentials error); [|reflexivity].
  destruct (showGitHubAuthPrompt_prompted s) as (_ & _ & Hp & _). exact Hp.
Qed.

(** X17. A response whose Link header has readable entries but none named
    [next] clears [nextLink]: after the last page no next link is left,
    whatever link was stored before. *)
Theorem last_page_clears_nextLink (s : State) (gitHubResponse : Response)
    (links : list (string * string)) :
  nextOutcome s = Ok gitHubResponse ->
  headers_link gitHubResponse = Some (linkHeaderOf links) ->
  links <> [] ->
  forallb readable links = true ->
  "next"%string ∉ map fst links ->
  nextLink (requestOptions (snd (getJsonRequest s))) = None.
Proof.
  intros Hout Hheader Hne Hall Hnot.
  destruct (answered_ok s gitHubResponse Hout) as (Hlink & _).
  unfold linkAfter in Hlink.
  rewrite Hheader, (linkHeaderOf_truthy links Hne) in Hlink.
  change (default ""%string (Some (linkHeaderOf links))) with (linkHeaderOf links) in Hlink.
  rewrite (parseLinkHeader_other links "next" Hne Hall Hnot) in Hlink.
  rewrite getJsonRequest_spec.
  destruct (nextOutcome s ≫= _) as [value|error]; cbn [snd]; [exact Hlink|].
  destruct (caught_quiet error (answered s)) as (_ & Hr & _). now rewrite Hr.
Qed.

(** The first request of the loop goes to the address at hand. *)
Lemma reposLoop_first_request (fuel : nat) (startTime timeoutMs : Z)
    (gitHubRepos : list any) (s : State) :
  exists events,
    trace (snd (reposLoop fuel startTime timeoutMs gitHubRepos s)) =
      trace s ++ Request (url (requestOptions s)) :: events.
Proof.
  rewrite reposLoop_step. destruct (answered_trace s) as [Htrace _].
  destruct (parsed (nextOutcome s)) as [page|error]; cbn [snd].
  - cbn zeta.
    destruct (truthy_str (nextLink (requestOptions (answered s))));
      [|exists []; exact Htrace].
    destruct (startTime + timeoutMs >? _); [|exists []; exact Htrace].
    destruct fuel as [|fuel]; [exists []; exact Htrace|].
    match goal with |- context [reposLoop fuel _ _ ?g ?s2] =>
      destruct (quiet_reposLoop fuel startTime timeoutMs g s2) as (events & Ht & _)
    end.
    exists events. rewrite Ht. cbn. rewrite Htrace, <- app_assoc. reflexivity.
  - destruct (caught_quiet error (answered s)) as (_ & _ & events & Ht & _).
    exists events. rewrite Ht, Htrace, <- app_assoc. reflexivity.
Qed.

(** X18. A response without a Link header leaves [nextLink] as it was, so
    a link stored by an earlier request is followed: when the loop of
    [getGitHubReposQuickPicks] is entered with a link stored, and the first
    page comes without a Link header while time is not up, the second
    request goes to the stored link. *)
Theorem stale_link_is_requested (timeoutSeconds : Z) (s : State) (link : string)
    (gitHubResponse : Response) (page : any) (rest : list (result Response)) :
  nextLink (requestOptions s) = Some link ->
  link <> ""%string ->
  responses (world s) = Ok gitHubResponse :: rest ->
  truthy_str (headers_link gitHubResponse) = false ->
  JSON_parse (body gitHubResponse) = Ok page ->
  rest <> [] ->
  now (world s) (S (clockReads (world s))) <
    now (world s) (clockReads (world s)) + timeoutSeconds * 1000 ->
  exists events,
    trace (snd (getGitHubReposQuickPicks timeoutSeconds s)) =
      trace s ++ Request (url (requestOptions s)) :: Request (JString link) :: events.
Proof.
  intros Hlink Hne Hresponses Hheader Hparse Hrest Htime.
  assert (Htrace : exists events,
    trace (snd (reposLoop (length (responses (world (on_world tick s))))
                  (now (world s) (clockReads (world s))) (timeoutSeconds * 1000) []
                  (on_world tick s))) =
    trace s ++ Request (url (requestOptions s)) :: Request (JString link) :: events).
  { set (s0 := on_world tick s).
    assert (Hout : nextOutcome s0 = Ok gitHubResponse)
      by (unfold nextOutcome; subst s0; cbn; now rewrite Hresponses).
    destruct (answered_ok s0 gitHubResponse Hout) as (Ha & _ & _ & _ & Hn & Hk & _).
    destruct (answered_trace s0) as [Ht _].
    unfold linkAfter in Ha. rewrite Hheader in Ha.
    change (nextLink (requestOptions s0)) with (nextLink (requestOptions s)) in Ha.
    rewrite Hlink in Ha.
    rewrite reposLoop_step. unfold parsed. rewrite Hout.
    cbn [mbind result_bind]. rewrite Hparse. cbn zeta. rewrite Ha, Hn, Hk.
    assert (Htruthy : truthy_str (Some link) = true).
    { cbn. destruct (String.eqb_spec link ""); [contradiction|reflexivity]. }
    rewrite Htruthy.
    replace (_ >? _) with true
      by (symmetry; rewrite Z.gtb_ltb; apply Z.ltb_lt; subst s0; cbn; lia).
    change (responses (world s0)) with (responses (world s)). rewrite Hresponses.
    cbn [length].
    destruct rest as [|outcome rest]; [contradiction|]. cbn [length].
    match goal with |- context [reposLoop ?f ?a ?b ?g ?s2] =>
      destruct (reposLoop_first_request f a b g s2) as (events & Hrun)
    end.
    exists events. rewrite Hrun. cbn. rewrite Ht, <- app_assoc. reflexivity. }
  rewrite getGitHubReposQuickPicks_spec. cbn zeta.
  destruct (reposLoop _ _ _ _ _) as [[gitHubRepos|error] s']; exact Htrace.
Qed.

(** *** The cache and the address across calls *)

(** The loop does not touch the cache. *)
Lemma reposLoop_cache (fuel : nat) (startTime timeoutMs : Z) (gitHubRepos : list any)
    (s : State) :
  picksCache (snd (reposLoop fuel startTime timeoutMs gitHubRepos s)) = picksCache s.
Proof.
  revert gitHubRepos s. induction fuel as [|fuel IH]; intros gitHubRepos s;
    rewrite reposLoop_step;
    destruct (answered_frame s) as (_ & _ & _ & _ & Hcache & _);
    (destruct (parsed (nextOutcome s)) as [page|error]; cbn [snd];
       [|now rewrite caught_cache]);
    cbn zeta;
    (destruct (truthy_str (nextLink (requestOptions (answered s)))); [|exact Hcache]);
    (destruct (startTime + timeoutMs >? _); [|exact Hcache]);
    [exact Hcache|].
  rewrite IH. exact Hcache.
Qed.

(** A loop that returns with a next link left has put it in [url]. *)
Lemma reposLoop_url (fuel : nat) (startTime timeoutMs : Z)
    (gitHubRepos gitHubRepos' : list any) (s s' : State) :
  reposLoop fuel startTime timeoutMs gitHubRepos s = (Ok gitHubRepos', s') ->
  truthy_str (nextLink (requestOptions s')) = true ->
  url (requestOptions s') =
    JString (default ""%string (nextLink (requestOptions s'))).
Proof.
  revert gitHubRepos s. induction fuel as [|fuel IH]; intros gitHubRepos s;
    rewrite reposLoop_step;
    (destruct (parsed (nextOutcome s)) as [page|error]; [|discriminate]);
    cbn zeta;
    (destruct (truthy_str (nextLink (requestOptions (answered s)))) eqn:Hlink;
       [|intros [= _ <-] Hleft; congruence]);
    (destruct (startTime + timeoutMs >? _);
       [|intros [= _ <-] _; reflexivity]).
  - intros [= _ <-] _. reflexivity.
  - apply IH.
Qed.

(** X19. A call of [getGitHubReposQuickPicks] that throws leaves the cache
    of picks as it was: the repositories of the pages read before the
    failure are not added. *)
Theorem getGitHubReposQuickPicks_failure_keeps_cache (timeoutSeconds : Z) (s : State)
    (error : any) :
  fst (getGitHubReposQuickPicks timeoutSeconds s) = Throw error ->
  picksCache (snd (getGitHubReposQuickPicks timeoutSeconds s)) = picksCache s.
Proof.
  rewrite getGitHubReposQuickPicks_spec. cbn zeta.
  pose proof (reposLoop_cache (length (responses (world (on_world tick s))))
                (now (world s) (clockReads (world s))) (timeoutSeconds * 1000) []
                (on_world tick s)) as Hcache.
  destruct (reposLoop _ _ _ _ _) as [[gitHubRepos|error'] s']; cbn [fst snd] in *.
  - discriminate.
  - intros _. exact Hcache.
Qed.

(** A loop that returns has read pages that all parsed: the responses it
    took, in turn, each with the value its body parses to. *)
Lemma reposLoop_pages (fuel : nat) (startTime timeoutMs : Z)
    (gitHubRepos gitHubRepos' : list any) (s s' : State) :
  reposLoop fuel startTime timeoutMs gitHubRepos s = (Ok gitHubRepos', s') ->
  exists pages,
    pages <> [] /\
    responses (world s) = map (fun page => Ok (fst page)) pages ++ responses (world s') /\
    Forall (fun page => JSON_parse (body (fst page)) = Ok (snd page)) pages /\
    gitHubRepos' = accumulate gitHubRepos pages.
Proof.
  revert gitHubRepos s.
  induction fuel as [|fuel IH]; intros gitHubRepos s;
    rewrite reposLoop_step;
    (destruct (parsed (nextOutcome s)) as [page|error] eqn:Hparsed; [|discriminate]);
    unfold parsed, nextOutcome in Hparsed;
    (destruct (responses (world s)) as [|[gitHubResponse|error] rest] eqn:Hresponses;
       try discriminate Hparsed);
    cbn [mbind result_bind] in Hparsed;
    destruct (answered_trace s) as [_ Hres]; rewrite Hresponses in Hres;
    cbn [tail] in Hres; cbn zeta;
    assert (Hone : forall s1 : State,
              responses (world s1) = rest ->
              exists pages,
                pages <> [] /\
                Ok gitHubResponse :: rest =
                  map (fun page => Ok (fst page)) pages ++ responses (world s1) /\
                Forall (fun page => JSON_parse (body (fst page)) = Ok (snd page)) pages /\
                concat gitHubRepos page = accumulate gitHubRepos pages)
      by (intros s1 ->; exists [(gitHubResponse, page)];
          split; [discriminate|]; split; [reflexivity|];
          split; [now constructor | reflexivity]);
    (destruct (truthy_str (nextLink (requestOptions (answered s))));
       [|intros [= <- <-]; now apply Hone]);
    (destruct (startTime + timeoutMs >? _);
       [|intros [= <- <-]; now apply Hone]).
  - intros [= <- <-]. now apply Hone.
  - intros Hrun. destruct (IH _ _ Hrun) as (pages & _ & Hpages & Hall & ->).
    change (responses (world (answered s)) =
            map (fun page => Ok (fst page)) pages ++ responses (world s')) in Hpages.
    exists ((gitHubResponse, page) :: pages).
    split; [discriminate|]. split; [cbn [map fst app]; now rewrite <- Hpages, Hres|].
    split; [now constructor | reflexivity].
Qed.

(** X20. A call of [getGitHubReposQuickPicks] that returns has read one
    page or more, taking as many responses, and its cache is the sorted
    list of the old cache and the picks made from the items of those
    pages. When a next link is left, the request is pointed at that link,
    so that the next call reads on from there, and what is returned is the
    Load More pick followed by the cache; otherwise it is the cache
    alone. *)
Theorem getGitHubReposQuickPicks_resumes (timeoutSeconds : Z) (s : State)
    (picks : list IAzureQuickPickItem) :
  fst (getGitHubReposQuickPicks timeoutSeconds s) = Ok picks ->
  let s' := snd (getGitHubReposQuickPicks timeoutSeconds s) in
  (exists pages,
     pages <> [] /\
     responses (world s) =
       map (fun page => Ok (fst page)) pages ++ responses (world s') /\
     Forall (fun page => JSON_parse (body (fst page)) = Ok (snd page)) pages /\
     picksCache s' =
       sortByLabel (picksCache s ++
                    createQuickPickFromJsons (accumulate [] pages) "name" None)) /\
  match nextLink (requestOptions s') with
  | Some link =>
      if String.eqb link ""
      then picks = picksCache s'
      else url (requestOptions s') = JString link /\ picks = loadMore :: picksCache s'
  | None => picks = picksCache s'
  end.
Proof.
  rewrite getGitHubReposQuickPicks_spec. cbn zeta.
  pose proof (reposLoop_cache (length (responses (world (on_world tick s))))
                (now (world s) (clockReads (world s))) (timeoutSeconds * 1000) []
                (on_world tick s)) as Hcache.
  destruct (reposLoop _ _ _ _ _) as [[gitHubRepos|error] s'] eqn:Hrun;
    cbn [fst snd] in *; [|discriminate].
  intros [= <-]. cbn [set_picksCache picksCache requestOptions world].
  split.
  - destruct (reposLoop_pages _ _ _ _ _ _ _ Hrun) as (pages & Hne & Hpages & Hall & ->).
    exists pages. rewrite Hcache. repeat split; assumption.
  - pose proof (reposLoop_url _ _ _ _ _ _ _ Hrun) as Hurl.
    destruct (nextLink (requestOptions s')) as [link|]; [|reflexivity].
    cbn [truthy_str] in *. destruct (String.eqb link ""); cbn [negb] in *;
      [reflexivity|].
    split; [exact (Hurl eq_refl) | reflexivity].
Qed.

(** *** The repository that is chosen *)

(** X21. The loop around the repository quick pick ends only with a pick
    that has data: what [chooseRepository] returns is truthy and is the
    data of a pick of the cache, never that of the Load More pick. *)
Theorem chooseRepository_cached_pick (fuel : nat) (s : State) (repoQuickPick : any) :
  (length (responses (world s)) <= fuel)%nat ->
  fst (chooseRepository fuel s) = Ok repoQuickPick ->
  truthy repoQuickPick = true /\
  exists pick,
    In pick (picksCache (snd (chooseRepository fuel s))) /\
    data pick = repoQuickPick.
Proof.
  revert s. induction fuel as [|fuel IH]; intros s Hfuel;
    cbn [chooseRepository]; unfold mbind at 1 3 4, M_bind;
    pose proof (getGitHubReposQuickPicks_consumes 10 s) as Hless;
    pose proof (getGitHubReposQuickPicks_spec 10 s) as Hspec; cbn zeta in Hspec;
    destruct (getGitHubReposQuickPicks 10 s) as [[picks|error] s1];
    try discriminate; cbn [fst snd] in Hless;
    (assert (Hlt : (length (responses (world s1)) < length (responses (world s)))%nat)
       by (apply Hless; eauto)); [lia|].
  assert (Hpicks : picks = picksCache s1 \/ picks = loadMore :: picksCache s1).
  { destruct (reposLoop _ _ _ _ _) as [[gitHubRepos|error] s'];
      [|discriminate Hspec].
    injection Hspec as -> ->. cbn [set_picksCache picksCache requestOptions].
    destruct (truthy_str (nextLink (requestOptions s'))); [right|left]; reflexivity. }
  clear Hspec Hless.
  unfold mbind, M_bind.
  destruct (showQuickPick picks "Choose repository." s1) as [[pick|error] s2] eqn:Hpick;
    [|discriminate].
  assert (Hshown : In pick picks /\ picksCache s2 = picksCache s1 /\
                   responses (world s2) = responses (world s1)).
  { unfold showQuickPick in Hpick.
    destruct (choices (world s1)) as [|[index|] rest]; try discriminate Hpick.
    destruct (picks !! index) as [pick'|] eqn:Hindex; [|discriminate Hpick].
    injection Hpick as -> <-. repeat split.
    apply list_elem_of_In. eapply list_elem_of_lookup_2. exact Hindex. }
  destruct Hshown as (Hin & Hcache & Hres).
  destruct (truthy (data pick)) eqn:Hdata; cbn [negb].
  - unfold mret, M_ret. cbn [fst snd]. intros [= <-]. split; [exact Hdata|].
    exists pick. split; [|reflexivity]. rewrite Hcache.
    destruct Hpicks as [->| ->]; [exact Hin|].
    destruct Hin as [<-|Hin]; [discriminate Hdata|exact Hin].
  - apply IH. rewrite Hres. lia.
Qed.

(** *** The source control calls *)

(** What the [catch] block of the [try] statement comes to. *)
Definition resyncOutcome : result unit :=
  match syncRepository client with
  | Ok _ => Ok tt
  | Throw error =>
      if JsString.includes (message (parseError error)) statusCode200
      then Ok tt
      else Throw error
  end.

Lemma updateAndSync_result (siteSourceControl : SiteSourceControl) (repoName : string)
    (s : State) :
  fst (updateAndSync siteSourceControl repoName s) =
  match verifyNoRunFromPackageSetting client with
  | Throw _ => resyncOutcome
  | Ok _ =>
      match updateSourceControl client siteSourceControl with
      | Throw _ => resyncOutcome
      | Ok _ => Ok tt
      end
  end.
Proof.
  unfold updateAndSync, resyncOutcome, try_catch, mbind, M_bind, show, call, modify.
  destruct (verifyNoRunFromPackageSetting client) as [[]|e1];
    [destruct (updateSourceControl client siteSourceControl) as [[]|e2]|];
    cbn [fst snd]; try reflexivity;
    (destruct (syncRepository client) as [[]|error]; cbn [fst snd]; [reflexivity|]);
    rewrite includes_indexOf;
    destruct (JsString.includes (message (parseError error)) statusCode200);
    reflexivity.
Qed.

Lemma setup_events_in (events : list Event) (e : Event) :
  forallb isSetupEvent events = true -> In e events -> isSetupEvent e = true.
Proof. intros Hall Hin. rewrite forallb_forall in Hall. now apply Hall. Qed.

(** X22. [syncRepository] is called only to make up for a failure: a run
    of [connectToGitHub] that calls it is one in which
    [verifyNoRunFromPackageSetting] threw, or in which [updateSourceControl]
    was called and threw. *)
Theorem sync_only_after_failure (s : State) :
  In SyncRepository (added s (snd (connectToGitHub s))) ->
  (exists err, verifyNoRunFromPackageSetting client = Throw err) \/
  (exists siteSourceControl err,
     In (UpdateSourceControl siteSourceControl) (added s (snd (connectToGitHub s))) /\
     updateSourceControl client siteSourceControl = Throw err).
Proof.
  destruct (reachesSync_connectToGitHub s)
    as [(events & Ht & Hev)|(s1 & ssc & repoName & events & Ht & Hev & Hrun)].
  - rewrite (added_app _ _ _ Ht). intros Hin.
    apply (setup_events_in _ _ Hev) in Hin. discriminate Hin.
  - rewrite Hrun.
    pose proof (updateAndSync_trace ssc repoName s1) as Htrace.
    rewrite Ht, <- app_assoc in Htrace. apply added_app in Htrace.
    rewrite Htrace. clear Htrace. intros Hin.
    apply in_app_or in Hin as [Hin|Hin];
      [apply (setup_events_in _ _ Hev) in Hin; discriminate Hin|].
    destruct (verifyNoRunFromPackageSetting client) as [[]|e1]; [|left; eauto].
    right. exists ssc.
    destruct (updateSourceControl client ssc) as [[]|e2].
    + cbn in Hin. repeat (destruct Hin as [Hin|Hin]; try discriminate Hin).
      destruct Hin.
    + exists e2. split; [|reflexivity].
      apply in_or_app. right. cbn. tauto.
Qed.

(** X23. When [verifyNoRunFromPackageSetting] throws, [updateSourceControl]
    is not called at all: the run goes straight to [syncRepository], calls
    it once, and ends as that call does, so that it returns normally, with
    no source control set, when the sync returns. *)
Theorem failed_verification_skips_update (s : State) (err : any) :
  verifyNoRunFromPackageSetting client = Throw err ->
  In VerifyNoRunFromPackageSetting (added s (snd (connectToGitHub s))) ->
  (forall siteSourceControl,
     ~ In (UpdateSourceControl siteSourceControl) (added s (snd (connectToGitHub s)))) /\
  (exists before,
     added s (snd (connectToGitHub s)) =
       before ++ [VerifyNoRunFromPackageSetting; SyncRepository]) /\
  countSyncs (added s (snd (connectToGitHub s))) = 1%nat /\
  fst (connectToGitHub s) = resyncOutcome.
Proof.
  intros Hverify.
  destruct (reachesSync_connectToGitHub s)
    as [(events & Ht & Hev)|(s1 & ssc & repoName & events & Ht & Hev & Hrun)].
  - rewrite (added_app _ _ _ Ht). intros Hin.
    apply (setup_events_in _ _ Hev) in Hin. discriminate Hin.
  - rewrite Hrun.
    pose proof (updateAndSync_trace ssc repoName s1) as Htrace.
    pose proof (updateAndSync_result ssc repoName s1) as Hresult.
    rewrite Hverify in Htrace, Hresult.
    rewrite Ht, <- app_assoc in Htrace. apply added_app in Htrace.
    rewrite Htrace, Hresult. clear Htrace Hresult. intros _.
    destruct (setup_events_no_sync events Hev) as [Hcount Hnot].
    split; [|split; [|split; [|reflexivity]]].
    + intros siteSourceControl Hin.
      apply in_app_or in Hin as [Hin|Hin]; [now apply Hnot in Hin|].
      cbn in Hin. repeat (destruct Hin as [Hin|Hin]; try discriminate Hin).
      destruct Hin.
    + exists (events ++ [WithProgress (connectingToGithub repoName);
                        AppendLine (connectingToGithub repoName)]).
      rewrite <- app_assoc. reflexivity.
    + unfold countSyncs in *. rewrite List.filter_app, length_app, Hcount.
      reflexivity.
Qed.

(** *** Failures before the first request *)

(** X24. When [listSourceControls] throws or lists nothing,
    [connectToGitHub] throws right after that call: no prompt is shown, no
    request is signed or made, and the action context is left as it was, so
    that [suppressErrorDisplay] is not set. *)
Theorem no_source_control_no_prompt (s : State) :
  (forall sourceControl sourceControls,
     listSourceControls client <> Ok (sourceControl :: sourceControls)) ->
  (exists error, fst (connectToGitHub s) = Throw error) /\
  trace (snd (connectToGitHub s)) = trace s ++ [ListSourceControls] /\
  context (snd (connectToGitHub s)) = context s.
Proof.
  intros Hnone.
  destruct (connectToGitHub s) as [r s'] eqn:Hrun. revert Hrun.
  unfold connectToGitHub. unfold mbind at 1 2 3, M_bind, call, modify, settle.
  destruct (listSourceControls client) as [[|sourceControl sourceControls]|error];
    cbn [fst snd firstToken].
  - intros [= <- <-]. repeat split. eauto.
  - now contradiction (Hnone sourceControl sourceControls).
  - intros [= <- <-]. repeat split. eauto.
Qed.

(** X25. When signing the request throws, [connectToGitHub] throws that
    error without making any request and without showing the prompt. *)
Theorem failed_signing_makes_no_request (s : State) (sourceControl : SourceControl)
    (sourceControls : list SourceControl) (oAuth2Token : string) (error : any) :
  listSourceControls client = Ok (sourceControl :: sourceControls) ->
  token sourceControl = Some oAuth2Token ->
  oAuth2Token <> ""%string ->
  (forall r, signRequest r oAuth2Token = Throw error) ->
  fst (connectToGitHub s) = Throw error /\
  trace (snd (connectToGitHub s)) =
    trace s ++ [ListSourceControls; SignRequest oAuth2Token] /\
  context (snd (connectToGitHub s)) = context s.
Proof.
  intros Hlist Htoken Hne Hsign.
  destruct (connectToGitHub s) as [r s'] eqn:Hrun. revert Hrun.
  unfold connectToGitHub. unfold mbind at 1 2 3, M_bind, call, modify, settle.
  rewrite Hlist. cbn [firstToken]. rewrite Htoken.
  assert (Htruthy : truthy_str (Some oAuth2Token) = true).
  { cbn. destruct (String.eqb_spec oAuth2Token ""); [contradiction|reflexivity]. }
  rewrite Htruthy. cbn [negb].
  change (default ""%string (Some oAuth2Token)) with oAuth2Token.
  unfold mbind at 1 2, M_bind, get, call. cbn [fst snd].
  rewrite Hsign. intros [= <- <-]. cbn. rewrite <- app_assoc. repeat split.
Qed.

(** *** Descriptions that are there *)

(** X26. When every object that has the label also has a truthy value at
    [description], every pick carries the description of its own object:
    the picks are, in order, those of the objects with a label, each with
    the label, the printed description and the object itself. *)
Theorem createQuickPickFromJsons_descriptions (jsons : list any) (label d : string) :
  d <> ""%string ->
  (forall json, In json jsons ->
     truthy (prop json label) = true -> truthy (prop json d) = true) ->
  createQuickPickFromJsons jsons label (Some d) =
    map (fun json =>
           {| ConnectToGitHub.label := prop json label;
              description := ToString (prop json d);
              data := json;
              suppressPersistence := None |})
        (List.filter (fun json => truthy (prop json label)) jsons).
Proof.
  intros Hne Hall.
  assert (Htruthy : truthy_str (Some d) = true).
  { cbn. destruct (String.eqb_spec d ""); [contradiction|reflexivity]. }
  change (createQuickPickFromJsons jsons label (Some d))
    with (picksFrom label (Some d) jsons).
  induction jsons as [|json jsons IH]; [reflexivity|].
  rewrite picksFrom_cons. unfold addQuickPick. cbn [List.filter].
  change (default ""%string (Some d)) with d.
  destruct (truthy (prop json label)) eqn:Hlabel; cbn [negb fst snd app map].
  - rewrite (Hall json (or_introl eq_refl) Hlabel), Htruthy. cbn [negb andb].
    rewrite Htruthy. cbn [app]. f_equal.
    apply IH. intros json' Hin. apply Hall. now right.
  - apply IH. intros json' Hin. apply Hall. now right.
Qed.

End Flow.

(** *** Concrete runs *)

(** A [parseError] for the runs below: the message of an [Error] object,
    a thrown string as it is. *)
Definition parseError_message (error : any) : IParsedError :=
  match error with
  | JString s => {| errorType := "string"; message := s |}
  | JObject _ =>
      {| errorType := "Error";
         message := match prop error "message" with
                    | JString m => m
                    | _ => ""
                    end |}
  | _ => {| errorType := "unknown"; message := "" |}
  end.

(** A [JSON.parse] that knows the bodies of a table and rejects the rest. *)
Fixpoint JSON_parse_table (table : list (string * any)) (text : string) : result any :=
  match table with
  | [] => Throw (new_Error "Unexpected token")
  | (known, value) :: rest =>
      if String.eqb known text then Ok value else JSON_parse_table rest text
  end.

(** The string conversion, on strings. *)
Definition ToString_string (value : any) : string :=
  match value with
  | JString s => s
  | _ => ""
  end.

(** A sort by label: insertion, in the order of the character codes. *)
Definition labelLe (a b : IAzureQuickPickItem) : bool :=
  String.leb (ToString_string (label a)) (ToString_string (label b)).

Fixpoint insertByLabel (pick : IAzureQuickPickItem) (sorted : list IAzureQuickPickItem)
    : list IAzureQuickPickItem :=
  match sorted with
  | [] => [pick]
  | first :: rest =>
      if labelLe pick first then pick :: sorted else first :: insertByLabel pick rest
  end.

Definition sortByLabel_codes (picks : list IAzureQuickPickItem)
    : list IAzureQuickPickItem :=
  fold_right insertByLabel [] picks.

(** A site whose source control update fails, and whose resync then fails
    with [syncError]. *)
Definition failingClient (firstToken : option string) (syncError : any) : SiteClient :=
  {| id := "/subscriptions/0/sites/site";
     fullName := "site";
     listSourceControls := Ok [{| token := firstToken |}];
     verifyNoRunFromPackageSetting := Ok tt;
     updateSourceControl := fun _ => Throw (new_Error "Conflict");
     syncRepository := Throw syncError |}.

Definition noResponse_error : any := new_Error "ETIMEDOUT".

Definition sampleSourceControl : SiteSourceControl :=
  {| repoUrl := JString "https://github.com/org/repo";
     branch := JString "main";
     isManualIntegration := false;
     deploymentRollbackEnabled := true;
     isMercurial := false |}.

(** A state with the given responses and clock, and nothing else to come. *)
Definition stateWith (responses : list (result Response)) (now : nat -> Z) : State :=
  {| requestOptions :=
       {| resolveWithFullResponse := Some true;
          headers := [];
          url := JString "https://api.github.com/orgs/org/repos";
          nextLink := None |};
     context := {| suppressErrorDisplay := None; properties := ∅ |};
     picksCache := [];
     world := {| responses := responses;
                 answers := [];
                 choices := [];
                 now := now;
                 clockReads := 0 |};
     trace := [] |}.

Definition page2 : string := "https://api.github.com/orgs/org/repos?page=2".

Definition repo (name : string) : any := JObject [("name"%string, JString name)].

Definition bodies : list (string * any) :=
  [("[a]"%string, JArray [repo "a"]); ("[b]"%string, JArray [repo "b"])].

Definition firstPage : Response :=
  {| headers_link := Some (linkHeaderOf [("next"%string, page2); ("last"%string, page2)]);
     body := "[a]" |}.

Definition lastPage : Response :=
  {| headers_link :=
       Some (linkHeaderOf [("prev"%string, "https://api.github.com/orgs/org/repos?page=1"%string)]);
     body := "[b]" |}.

(** A clock that reads [first] the first time and [later] from then on. *)
Definition clock (first later : Z) (n : nat) : Z :=
  match n with
  | O => first
  | S _ => later
  end.

Definition pickOf (name : string) : IAzureQuickPickItem :=
  {| label := JString name;
     description := "";
     data := repo name;
     suppressPersistence := None |}.

(** A whole run: the signed-in user, no organizations, one page with one
    repository, one branch. *)
Definition userBodies : list (string * any) :=
  [("user"%string,
    JObject [("login"%string, JString "me");
             ("repos_url"%string, JString "https://api.github.com/users/me/repos")]);
   ("orgs"%string, JArray []);
   ("repos"%string,
    JArray [JObject [("name"%string, JString "repo");
                     ("url"%string, JString "https://api.github.com/repos/me/repo");
                     ("html_url"%string, JString "https://github.com/me/repo")]]);
   ("branches"%string, JArray [JObject [("name"%string, JString "main")]])].

Definition plainResponse (text : string) : result Response :=
  Ok {| headers_link := None; body := text |}.

Definition wholeRun : State :=
  {| requestOptions :=
       {| resolveWithFullResponse := None; headers := []; url := JUndefined;
          nextLink := None |};
     context := {| suppressErrorDisplay := None; properties := ∅ |};
     picksCache := [];
     world := {| responses := [plainResponse "user"; plainResponse "orgs";
                               plainResponse "repos"; plainResponse "branches"];
                 answers := [];
                 choices := [Take 0; Take 0; Take 0];
                 now := clock 0 1;
                 clockReads := 0 |};
     trace := [] |}.

Definition chosenSourceControl : SiteSourceControl :=
  {| repoUrl := JString "https://github.com/me/repo";
     branch := JString "main";
     isManualIntegration := false;
     deploymentRollbackEnabled := true;
     isMercurial := false |}.

(** The update fails and the resync fails with the benign status: the run
    returns. *)
Lemma connectToGitHub_resync_witness :
  let client := failingClient (Some "token"%string)
                  (new_Error ("{" +:+ statusCode200 +:+ "}")) in
  let run := connectToGitHub client parseError_message (JSON_parse_table userBodies)
               ToString_string sortByLabel_codes "agent" (fun r _ => Ok r) new_Error
               noResponse_error (new_Error "Cancelled") wholeRun in
  In (UpdateSourceControl chosenSourceControl) (added wholeRun (snd run)) /\
  updateSourceControl client chosenSourceControl = Throw (new_Error "Conflict") /\
  countSyncs (added wholeRun (snd run)) = 1%nat /\
  fst run = Ok tt.
Proof.
  intros client run.
  assert (Hin : In (UpdateSourceControl chosenSourceControl) (added wholeRun (snd run))).
  { vm_compute. repeat first [left; reflexivity | right]. }
  split; [exact Hin|]. split; [reflexivity|].
  destruct (connectToGitHub_resync client parseError_message
              (JSON_parse_table userBodies) ToString_string sortByLabel_codes "agent"
              (fun r _ => Ok r) new_Error noResponse_error (new_Error "Cancelled")
              wholeRun chosenSourceControl (new_Error "Conflict") Hin eq_refl)
    as (Hcount & _ & Hresult).
  split; [exact Hcount|]. unfold run. rewrite Hresult. reflexivity.
Defined.

(** Another sync error is thrown on. *)
Example updateAndSync_throws_other :
  fst (updateAndSync (failingClient None (new_Error "Bad Gateway")) parseError_message
         sampleSourceControl "org/repo" (stateWith [] (clock 0 0)))
  = Throw (new_Error "Bad Gateway").
Proof. reflexivity. Qed.

(** A request refused for bad credentials: one request, the prompt, the
    error thrown on as it is. *)
Definition badCredentials_error : any := new_Error "Bad credentials".

Lemma getJsonRequest_one_request_witness :
  let client := failingClient (Some "token"%string) JUndefined in
  let s := stateWith [Throw badCredentials_error; Ok lastPage] (clock 0 0) in
  nextOutcome noResponse_error s = Throw badCredentials_error /\
  fst (getJsonRequest client parseError_message (JSON_parse_table bodies)
         noResponse_error s) = Throw badCredentials_error /\
  responses (world (snd (getJsonRequest client parseError_message
                           (JSON_parse_table bodies) noResponse_error s)))
    = [Ok lastPage].
Proof.
  intros client s.
  destruct (getJsonRequest_one_request client parseError_message
              (JSON_parse_table bodies) noResponse_error s)
    as (_ & Hresponses & _ & Hfirst).
  split; [reflexivity|]. split.
  - apply Hfirst. reflexivity.
  - rewrite Hresponses. reflexivity.
Defined.



Lemma firstPage_names :
  NoDup (map fst [("next"%string, page2); ("last"%string, page2)]).
Proof. compute_done. Qed.

(** Two pages, read within the time allowed: both are requested, the second
    at the link the first gave, and their repositories are both offered. *)
Lemma link_header_pagination_witness :
  let s := stateWith [Ok firstPage; Ok lastPage] (clock 0 1) in
  let client := failingClient (Some "token"%string) JUndefined in
  let run := getGitHubReposQuickPicks client parseError_message (JSON_parse_table bodies)
               ToString_string sortByLabel_codes noResponse_error 10 s in
  parseLinkHeaderToGitHubLinkObject
    (linkHeaderOf [("next"%string, page2); ("last"%string, page2)]) !! "next"%string
    = Some page2 /\
  nextLink (requestOptions (snd (getJsonRequest client parseError_message
                                   (JSON_parse_table bodies) noResponse_error s)))
    = Some page2 /\
  fst run = Ok [pickOf "a"; pickOf "b"] /\
  trace (snd run) = [Request (JString "https://api.github.com/orgs/org/repos");
                     Request (JString page2)] /\
  nextLink (requestOptions (snd run)) = None.
Proof.
  intros s client run.
  destruct (link_header_pagination client parseError_message (JSON_parse_table bodies)
              ToString_string sortByLabel_codes noResponse_error)
    as (Hheader & Hstore & Hpages).
  split; [|split].
  - apply Hheader.
    + reflexivity.
    + exact firstPage_names.
    + apply elem_of_cons. now left.
  - rewrite (Hstore s firstPage eq_refl eq_refl).
    apply Hheader.
    + reflexivity.
    + exact firstPage_names.
    + apply elem_of_cons. now left.
  - assert (Hnext : linkAfter None firstPage = Some page2).
    { unfold linkAfter. cbn [firstPage headers_link truthy_str].
      replace (negb _) with true by reflexivity.
      apply Hheader.
      + reflexivity.
      + exact firstPage_names.
      + apply elem_of_cons. now left. }
    assert (Hlast : linkAfter (Some page2) lastPage = None) by (vm_compute; reflexivity).
    destruct (Hpages s 10 [(firstPage, JArray [repo "a"]); (lastPage, JArray [repo "b"])]
                None [] ) as (Hresult & _ & Htrace & Hlink & _).
    + change (nextLink (requestOptions s)) with (@None string).
      apply paging_next.
      * reflexivity.
      * rewrite Hnext. reflexivity.
      * cbn. lia.
      * rewrite Hnext, <- Hlast.
        apply paging_end; [reflexivity | now rewrite Hlast].
    + reflexivity.
    + unfold run. split; [|split].
      * exact Hresult.
      * rewrite Htrace. change (nextLink (requestOptions s)) with (@None string).
        cbn [requestsFor]. rewrite Hnext. reflexivity.
      * exact Hlink.
Defined.

Lemma not_read_back (links : list (string * string)) (name target : string) :
  (name, target) ∈ links ->
  parseLinkHeaderToGitHubLinkObject (linkHeaderOf links) !! name <> Some target ->
  ~ header_maps_every_entry links.
Proof. intros Hin Hne H. apply Hne, H, Hin. Qed.

(** Entries that are not read back: a target with [rel=] in it, a target
    with [>] in it, a target or a name with a comma and a space in it, a
    name used twice. And a loop out of time returns while a next link is
    left. *)
Lemma pagination_stops_short :
  ~ header_maps_every_entry
      [("next"%string, "https://api.github.com/user/repos?rel=all&page=2"%string)] /\
  ~ header_maps_every_entry
      [("next"%string, "https://api.github.com/user/repos?q=a>b"%string)] /\
  ~ header_maps_every_entry
      [("next"%string, "https://api.github.com/user/repos?q=a, b"%string)] /\
  ~ header_maps_every_entry
      [("next, please"%string, "https://api.github.com/user/repos?page=2"%string)] /\
  ~ header_maps_every_entry
      [("next"%string, "https://api.github.com/user/repos?page=2"%string);
       ("next"%string, "https://api.github.com/user/repos?page=3"%string)] /\
  ~ follows_every_next_link (failingClient (Some "token"%string) JUndefined)
      parseError_message (JSON_parse_table bodies) ToString_string sortByLabel_codes
      noResponse_error 10 (stateWith [Ok firstPage; Ok lastPage] (clock 0 10000)).
Proof.
  repeat split.
  - eapply not_read_back; [apply elem_of_cons; now left | vm_compute; discriminate].
  - eapply not_read_back; [apply elem_of_cons; now left | vm_compute; discriminate].
  - eapply not_read_back; [apply elem_of_cons; now left | vm_compute; discriminate].
  - eapply not_read_back; [apply elem_of_cons; now left | vm_compute; discriminate].
  - eapply not_read_back; [apply elem_of_cons; now left | vm_compute; discriminate].
  - intros H.
    assert (Hrun :
      getGitHubReposQuickPicks (failingClient (Some "token"%string) JUndefined)
        parseError_message (JSON_parse_table bodies) ToString_string sortByLabel_codes
        noResponse_error 10 (stateWith [Ok firstPage; Ok lastPage] (clock 0 10000))
      = (Ok [loadMore; pickOf "a"],
         {| requestOptions :=
              {| resolveWithFullResponse := Some true;
                 headers := [];
                 url := JString page2;
                 nextLink := Some page2 |};
            context := {| suppressErrorDisplay := None; properties := ∅ |};
            picksCache := [pickOf "a"];
            world := {| responses := [Ok lastPage];
                        answers := [];
                        choices := [];
                        now := clock 0 10000;
                        clockReads := 2 |};
            trace := [Request (JString "https://api.github.com/orgs/org/repos")] |}))
      by (vm_compute; reflexivity).
    specialize (H [loadMore; pickOf "a"]). rewrite Hrun in H.
    specialize (H eq_refl). discriminate H.
Qed.

(** Three organizations: the second has no description. *)
Definition org (login : string) (about : option string) : any :=
  JObject (("login"%string, JString login) ::
           match about with
           | Some text => [("about"%string, JString text)]
           | None => []
           end).

Lemma createQuickPickFromJsons_picks_witness :
  let jsons := [org "a" (Some "first"%string); org "b" None;
                org "c" (Some "third"%string)] in
  map description (createQuickPickFromJsons ToString_string jsons "login"
                     (Some "about"%string))
    = ["first"%string; ""%string; ""%string] /\
  map label (createQuickPickFromJsons ToString_string jsons "login"
               (Some "about"%string))
    = [JString "a"; JString "b"; JString "c"].
Proof.
  intros jsons.
  destruct (createQuickPickFromJsons_picks ToString_string jsons "login"
              (Some "about"%string)) as (_ & _ & _ & Hcleared).
  destruct (Hcleared [org "a" (Some "first"%string)] (org "b" None)
              [org "c" (Some "third"%string)] "about"%string
              eq_refl eq_refl eq_refl eq_refl) as [Hsplit _].
  rewrite Hsplit. split; reflexivity.
Defined.

(** An object without a label is skipped before its description is looked
    at: the pick after it keeps its description. *)
Lemma skipped_object_keeps_description :
  createQuickPickFromJsons ToString_string
    [JObject []; org "c" (Some "third"%string)] "login" (Some "about"%string)
  = [{| label := JString "c";
        description := "third";
        data := org "c" (Some "third"%string);
        suppressPersistence := None |}]
  /\ ~ blank_after_missing ToString_string
         [JObject []; org "c" (Some "third"%string)] "login" "about".
Proof.
  split; [reflexivity|].
  intros H.
  specialize (H [] (JObject []) [org "c" (Some "third"%string)] eq_refl eq_refl
                {| label := JString "c";
                   description := "third";
                   data := org "c" (Some "third"%string);
                   suppressPersistence := None |}
                (or_introl eq_refl)).
  discriminate H.
Qed.

(** *** Further concrete runs *)

(** A state with the given answers and choices to come. *)
Definition withUser (answers : list (option MessageItem)) (choices : list Choice)
    (s : State) : State :=
  on_world (fun w => {| responses := responses w;
                        answers := answers;
                        choices := choices;
                        now := now w;
                        clockReads := clockReads w |}) s.

Definition withNextLink (link : string) (s : State) : State :=
  on_requestOptions (set_nextLink (Some link)) s.

Definition reposUrl : any := JString "https://api.github.com/orgs/org/repos".

(** Learn More twice, then Go to Portal. *)
Lemma showGitHubAuthPrompt_rounds_witness :
  let client := failingClient None JUndefined in
  let s := withUser [Some learnMore; Some learnMore; Some goToPortal; None] []
             (stateWith [] (clock 0 0)) in
  trace (snd (showGitHubAuthPrompt client s)) =
    [ShowErrorMessage invalidToken; OpenUrl "https://aka.ms/B7g6sw";
     ShowErrorMessage invalidToken; OpenUrl "https://aka.ms/B7g6sw";
     ShowErrorMessage invalidToken;
     OpenInPortal "/subscriptions/0/sites/site/vstscd"] /\
  answers (world (snd (showGitHubAuthPrompt client s))) = [None].
Proof.
  intros client s.
  destruct (showGitHubAuthPrompt_rounds client 2 (Some goToPortal) [None] s eq_refl)
    as (Htrace & Hanswers & _); [discriminate|].
  split; [rewrite Htrace; reflexivity | exact Hanswers].
Defined.

Lemma getJsonRequest_context_witness :
  let client := failingClient (Some "token"%string) JUndefined in
  let s := stateWith [Throw badCredentials_error] (clock 0 0) in
  context (snd (getJsonRequest client parseError_message (JSON_parse_table bodies)
                  noResponse_error s)) <> context s /\
  exists error,
    fst (getJsonRequest client parseError_message (JSON_parse_table bodies)
           noResponse_error s) = Throw error /\
    badCredentials parseError_message error = true /\
    suppressErrorDisplay
      (context (snd (getJsonRequest client parseError_message (JSON_parse_table bodies)
                       noResponse_error s))) = Some true.
Proof.
  intros client s.
  assert (Hchanged :
    context (snd (getJsonRequest client parseError_message (JSON_parse_table bodies)
                    noResponse_error s)) <> context s).
  { intros Hsame. apply (f_equal suppressErrorDisplay) in Hsame.
    vm_compute in Hsame. discriminate Hsame. }
  split; [exact Hchanged|].
  exact (getJsonRequest_context client parseError_message (JSON_parse_table bodies)
           noResponse_error s Hchanged).
Defined.

Lemma lastPage_names :
  "next"%string ∉
    map fst [("prev"%string, "https://api.github.com/orgs/org/repos?page=1"%string)].
Proof. compute_done. Qed.

Lemma last_page_clears_nextLink_witness :
  let client := failingClient (Some "token"%string) JUndefined in
  let s := withNextLink page2 (stateWith [Ok lastPage] (clock 0 0)) in
  nextLink (requestOptions s) = Some page2 /\
  nextLink (requestOptions
              (snd (getJsonRequest client parseError_message (JSON_parse_table bodies)
                      noResponse_error s))) = None.
Proof.
  intros client s. split; [reflexivity|].
  apply (last_page_clears_nextLink client parseError_message (JSON_parse_table bodies)
           noResponse_error s lastPage
           [("prev"%string, "https://api.github.com/orgs/org/repos?page=1"%string)]).
  - reflexivity.
  - reflexivity.
  - discriminate.
  - vm_compute. reflexivity.
  - exact lastPage_names.
Defined.

(** A link left by an earlier request, and a first page without a Link
    header: the second request goes to the link. *)
Lemma stale_link_is_requested_witness :
  let client := failingClient (Some "token"%string) JUndefined in
  let s := withNextLink page2
             (stateWith [plainResponse "[a]"; Ok lastPage] (clock 0 1)) in
  exists events,
    trace (snd (getGitHubReposQuickPicks client parseError_message
                  (JSON_parse_table bodies) ToString_string sortByLabel_codes
                  noResponse_error 10 s)) =
      trace s ++ Request reposUrl :: Request (JString page2) :: events.
Proof.
  intros client s.
  apply (stale_link_is_requested client parseError_message (JSON_parse_table bodies)
           ToString_string sortByLabel_codes noResponse_error 10 s page2
           {| headers_link := None; body := "[a]" |} (JArray [repo "a"])
           [Ok lastPage]).
  - reflexivity.
  - discriminate.
  - reflexivity.
  - reflexivity.
  - reflexivity.
  - discriminate.
  - cbn. lia.
Defined.

(** The second request fails: the repository of the first page is not
    cached. *)
Lemma getGitHubReposQuickPicks_failure_keeps_cache_witness :
  let client := failingClient (Some "token"%string) JUndefined in
  let s := set_picksCache [pickOf "z"]
             (stateWith [Ok firstPage; Throw (new_Error "Bad Gateway")] (clock 0 1)) in
  fst (getGitHubReposQuickPicks client parseError_message (JSON_parse_table bodies)
         ToString_string sortByLabel_codes noResponse_error 10 s)
    = Throw (new_Error "Bad Gateway") /\
  picksCache (snd (getGitHubReposQuickPicks client parseError_message
                     (JSON_parse_table bodies) ToString_string sortByLabel_codes
                     noResponse_error 10 s)) = [pickOf "z"].
Proof.
  intros client s.
  assert (Hthrows :
    fst (getGitHubReposQuickPicks client parseError_message (JSON_parse_table bodies)
           ToString_string sortByLabel_codes noResponse_error 10 s)
      = Throw (new_Error "Bad Gateway")) by (vm_compute; reflexivity).
  split; [exact Hthrows|].
  exact (getGitHubReposQuickPicks_failure_keeps_cache client parseError_message
           (JSON_parse_table bodies) ToString_string sortByLabel_codes noResponse_error
           10 s (new_Error "Bad Gateway") Hthrows).
Defined.

(** Time is up after the first page: the request is left pointing at the
    second. *)
Lemma getGitHubReposQuickPicks_resumes_witness :
  let client := failingClient (Some "token"%string) JUndefined in
  let s := stateWith [Ok firstPage; Ok lastPage] (clock 0 10000) in
  let s' := snd (getGitHubReposQuickPicks client parseError_message
                   (JSON_parse_table bodies) ToString_string sortByLabel_codes
                   noResponse_error 10 s) in
  fst (getGitHubReposQuickPicks client parseError_message (JSON_parse_table bodies)
         ToString_string sortByLabel_codes noResponse_error 10 s)
    = Ok [loadMore; pickOf "a"] /\
  url (requestOptions s') = JString page2 /\
  [loadMore; pickOf "a"] = loadMore :: picksCache s'.
Proof.
  intros client s s'.
  assert (Hreturns :
    fst (getGitHubReposQuickPicks client parseError_message (JSON_parse_table bodies)
           ToString_string sortByLabel_codes noResponse_error 10 s)
      = Ok [loadMore; pickOf "a"]) by (vm_compute; reflexivity).
  split; [exact Hreturns|].
  destruct (getGitHubReposQuickPicks_resumes client parseError_message
              (JSON_parse_table bodies) ToString_string sortByLabel_codes
              noResponse_error 10 s [loadMore; pickOf "a"] Hreturns) as [_ Hleft].
  fold s' in Hleft.
  assert (Hlink : nextLink (requestOptions s') = Some page2)
    by (vm_compute; reflexivity).
  rewrite Hlink in Hleft. exact Hleft.
Defined.

(** Load More is taken first, then the second repository. *)
Lemma chooseRepository_cached_pick_witness :
  let client := failingClient (Some "token"%string) JUndefined in
  let s := withUser [] [Take 0; Take 1]
             (stateWith [Ok firstPage; Ok lastPage] (clock 0 10000)) in
  let run := chooseRepository client parseError_message (JSON_parse_table bodies)
               ToString_string sortByLabel_codes noResponse_error
               (new_Error "Cancelled") 2 s in
  fst run = Ok (repo "b") /\
  truthy (repo "b") = true /\
  exists pick, In pick (picksCache (snd run)) /\ data pick = repo "b".
Proof.
  intros client s run.
  assert (Hreturns : fst run = Ok (repo "b")) by (vm_compute; reflexivity).
  split; [exact Hreturns|].
  apply (chooseRepository_cached_pick client parseError_message
           (JSON_parse_table bodies) ToString_string sortByLabel_codes noResponse_error
           (new_Error "Cancelled") 2 s (repo "b")).
  - cbn. lia.
  - exact Hreturns.
Defined.

Lemma sync_only_after_failure_witness :
  let client := failingClient (Some "token"%string) (new_Error "Bad Gateway") in
  let run := connectToGitHub client parseError_message (JSON_parse_table userBodies)
               ToString_string sortByLabel_codes "agent" (fun r _ => Ok r) new_Error
               noResponse_error (new_Error "Cancelled") wholeRun in
  In SyncRepository (added wholeRun (snd run)) /\
  ((exists err, verifyNoRunFromPackageSetting client = Throw err) \/
   (exists siteSourceControl err,
      In (UpdateSourceControl siteSourceControl) (added wholeRun (snd run)) /\
      updateSourceControl client siteSourceControl = Throw err)).
Proof.
  intros client run.
  assert (Hin : In SyncRepository (added wholeRun (snd run))).
  { vm_compute. repeat first [left; reflexivity | right]. }
  split; [exact Hin|].
  exact (sync_only_after_failure client parseError_message
           (JSON_parse_table userBodies) ToString_string sortByLabel_codes "agent"
           (fun r _ => Ok r) new_Error noResponse_error (new_Error "Cancelled")
           wholeRun Hin).
Defined.

(** A site that still runs from a package, and whose resync returns. *)
Definition unverifiedClient : SiteClient :=
  {| id := "/subscriptions/0/sites/site";
     fullName := "site";
     listSourceControls := Ok [{| token := Some "token"%string |}];
     verifyNoRunFromPackageSetting := Throw (new_Error "WEBSITE_RUN_FROM_PACKAGE");
     updateSourceControl := fun _ => Ok tt;
     syncRepository := Ok tt |}.

Lemma failed_verification_skips_update_witness :
  let run := connectToGitHub unverifiedClient parseError_message
               (JSON_parse_table userBodies) ToString_string sortByLabel_codes "agent"
               (fun r _ => Ok r) new_Error noResponse_error (new_Error "Cancelled")
               wholeRun in
  In VerifyNoRunFromPackageSetting (added wholeRun (snd run)) /\
  (forall siteSourceControl,
     ~ In (UpdateSourceControl siteSourceControl) (added wholeRun (snd run))) /\
  countSyncs (added wholeRun (snd run)) = 1%nat /\
  fst run = Ok tt.
Proof.
  intros run.
  assert (Hin : In VerifyNoRunFromPackageSetting (added wholeRun (snd run))).
  { vm_compute. repeat first [left; reflexivity | right]. }
  split; [exact Hin|].
  destruct (failed_verification_skips_update unverifiedClient parseError_message
              (JSON_parse_table userBodies) ToString_string sortByLabel_codes "agent"
              (fun r _ => Ok r) new_Error noResponse_error (new_Error "Cancelled")
              wholeRun (new_Error "WEBSITE_RUN_FROM_PACKAGE") eq_refl Hin)
    as (Hnot & _ & Hcount & Hresult).
  split; [exact Hnot|]. split; [exact Hcount|]. exact Hresult.
Defined.

(** A site with no source control listed. *)
Definition bareClient : SiteClient :=
  {| id := "/subscriptions/0/sites/site";
     fullName := "site";
     listSourceControls := Ok [];
     verifyNoRunFromPackageSetting := Ok tt;
     updateSourceControl := fun _ => Ok tt;
     syncRepository := Ok tt |}.

Lemma no_source_control_no_prompt_witness :
  let run := connectToGitHub bareClient parseError_message
               (JSON_parse_table userBodies) ToString_string sortByLabel_codes "agent"
               (fun r _ => Ok r) new_Error noResponse_error (new_Error "Cancelled")
               wholeRun in
  (exists error, fst run = Throw error) /\
  trace (snd run) = trace wholeRun ++ [ListSourceControls] /\
  context (snd run) = context wholeRun.
Proof.
  intros run.
  apply (no_source_control_no_prompt bareClient parseError_message
           (JSON_parse_table userBodies) ToString_string sortByLabel_codes "agent"
           (fun r _ => Ok r) new_Error noResponse_error (new_Error "Cancelled")
           wholeRun).
  intros sourceControl sourceControls. cbn. discriminate.
Defined.

Lemma failed_signing_makes_no_request_witness :
  let client := failingClient (Some "token"%string) JUndefined in
  let run := connectToGitHub client parseError_message (JSON_parse_table userBodies)
               ToString_string sortByLabel_codes "agent"
               (fun _ _ => Throw (new_Error "No credentials")) new_Error
               noResponse_error (new_Error "Cancelled") wholeRun in
  fst run = Throw (new_Error "No credentials") /\
  trace (snd run) = trace wholeRun ++ [ListSourceControls; SignRequest "token"] /\
  context (snd run) = context wholeRun.
Proof.
  intros client run.
  apply (failed_signing_makes_no_request client parseError_message
           (JSON_parse_table userBodies) ToString_string sortByLabel_codes "agent"
           (fun _ _ => Throw (new_Error "No credentials")) new_Error
           noResponse_error (new_Error "Cancelled") wholeRun
           {| token := Some "token"%string |} [] "token"%string
           (new_Error "No credentials")).
  - reflexivity.
  - reflexivity.
  - discriminate.
  - reflexivity.
Defined.

(** An object without a label between two organizations that have both
    properties. *)
Lemma createQuickPickFromJsons_descriptions_witness :
  let jsons := [org "a" (Some "first"%string); JObject [];
                org "c" (Some "third"%string)] in
  map description (createQuickPickFromJsons ToString_string jsons "login"
                     (Some "about"%string))
    = ["first"%string; "third"%string].
Proof.
  intros jsons.
  rewrite (createQuickPickFromJsons_descriptions ToString_string jsons "login" "about").
  - reflexivity.
  - discriminate.
  - intros json [<-|[<-|[<-|[]]]]; intros Hlabel;
      first [reflexivity | discriminate Hlabel].
Defined.


End ConnectToGitHub.

